(** * The task interchange engine (CSV import and export) of the node web interface

    A shallow embedding of [lib/csv]: the tokenizer [parseCSVLine], the header
    resolution ([parseHeader], [validateRequiredKeys], [findColumnIndices],
    [findContentColumnIndex]), the row materializer ([processRow],
    [buildContent]), the batch importer [parseCSV] and the serializer
    ([escapeCSVValue], [generateCSV]).

    Strings are sequences of code units below 256 (the Latin-1 block); the
    language primitives the code calls ([trim], [toLowerCase], [split], ...)
    are written out on that range.  [JSON.parse], [JSON.stringify] and the
    printing of numbers are operations of the runtime: the engine is
    parametric in them (class [Runtime]) and one instance is given for
    evaluating it on concrete documents. *)

From Stdlib Require Import String Ascii List Bool Arith ZArith Lia Permutation.
From Stdlib Require Import DecimalString.
Import ListNotations.

Local Open Scope list_scope.
Local Open Scope string_scope.

(** ** Characters and string primitives *)

Definition DQUOTE : ascii := ascii_of_nat 34.
Definition COMMA : ascii := ","%char.
Definition LF : ascii := ascii_of_nat 10.

Definition char_code (c : ascii) : nat := nat_of_ascii c.

(** White space and line terminators stripped by [String.prototype.trim]:
    TAB, LF, VT, FF, CR, SP and NBSP (the others lie above code 255). *)
Definition is_whitespace (c : ascii) : bool :=
  let n := char_code c in
  ((n =? 9) || (n =? 10) || (n =? 11) || (n =? 12) || (n =? 13)
   || (n =? 32) || (n =? 160))%nat.

Fixpoint trimStart (s : string) : string :=
  match s with
  | EmptyString => EmptyString
  | String c rest => if is_whitespace c then trimStart rest else s
  end.

Fixpoint trimEnd (s : string) : string :=
  match s with
  | EmptyString => EmptyString
  | String c rest =>
      match trimEnd rest with
      | EmptyString => if is_whitespace c then EmptyString else String c EmptyString
      | kept => String c kept
      end
  end.

Definition trim (s : string) : string := trimEnd (trimStart s).

Definition is_empty (s : string) : bool :=
  match s with EmptyString => true | _ => false end.

(** [toLowerCase] on one code unit: A-Z and the Latin-1 capitals
    (192-222 but the multiplication sign 215) move up by 32. *)
Definition lower_char (c : ascii) : ascii :=
  let n := char_code c in
  if (((65 <=? n) && (n <=? 90))
      || ((192 <=? n) && (n <=? 222) && negb (n =? 215)))%nat
  then ascii_of_nat (n + 32) else c.

Fixpoint toLowerCase (s : string) : string :=
  match s with
  | EmptyString => EmptyString
  | String c rest => String (lower_char c) (toLowerCase rest)
  end.

(** [toUpperCase] on one code unit: a-z and the Latin-1 small letters
    (224-254 but the division sign 247) move down by 32 and the sharp s (223)
    becomes SS.  The upper cases of the micro sign (181) and of y with
    diaeresis (255) lie above code 255; they are kept as they are here. *)
Definition upper_char (c : ascii) : string :=
  let n := char_code c in
  if (((97 <=? n) && (n <=? 122))
      || ((224 <=? n) && (n <=? 254) && negb (n =? 247)))%nat
  then String (ascii_of_nat (n - 32)) EmptyString
  else if (n =? 223)%nat then "SS"
  else String c EmptyString.

Fixpoint toUpperCase (s : string) : string :=
  match s with
  | EmptyString => EmptyString
  | String c rest => upper_char c ++ toUpperCase rest
  end.

(** [s.split(sep)] for a separator of one character. *)
Fixpoint split (sep : ascii) (s : string) : list string :=
  match s with
  | EmptyString => [EmptyString]
  | String c rest =>
      if Ascii.eqb c sep then EmptyString :: split sep rest
      else match split sep rest with
           | first :: others => String c first :: others
           | [] => [String c EmptyString]
           end
  end.

(** [parts.join(sep)]. *)
Fixpoint join (sep : string) (parts : list string) : string :=
  match parts with
  | [] => EmptyString
  | [part] => part
  | part :: others => part ++ sep ++ join sep others
  end.

(** [s.includes(c)] for a needle of one character. *)
Fixpoint includes (s : string) (c : ascii) : bool :=
  match s with
  | EmptyString => false
  | String d rest => Ascii.eqb d c || includes rest c
  end.

(** [s.replace(/q/g, qq)]: every quote character doubled. *)
Fixpoint double_quotes (s : string) : string :=
  match s with
  | EmptyString => EmptyString
  | String c rest =>
      if Ascii.eqb c DQUOTE then String DQUOTE (String DQUOTE (double_quotes rest))
      else String c (double_quotes rest)
  end.

(** [line[i]]: [None] is [undefined]. *)
Definition charAt (line : string) (i : nat) : option ascii := String.get i line.

(** [char === c] for a [char] read by [line[i]]. *)
Definition char_is (char : option ascii) (c : ascii) : bool :=
  match char with Some d => Ascii.eqb d c | None => false end.

(** [current += char]; appending [undefined] appends its name. *)
Definition append_char (current : string) (char : option ascii) : string :=
  match char with
  | Some c => current ++ String c EmptyString
  | None => current ++ "undefined"
  end.

(** ** Arrays, indices and maps *)

(** [values[index]] for an index held in a [number]; [None] is [undefined]. *)
Definition array_get {A : Type} (values : list A) (index : Z) : option A :=
  if (index <? 0)%Z then None else nth_error values (Z.to_nat index).

(** [array.findIndex(p)]: the first position satisfying [p], or -1. *)
Fixpoint findIndex_from {A : Type} (p : A -> bool) (l : list A) (i : Z) : Z :=
  match l with
  | [] => (-1)%Z
  | x :: rest => if p x then i else findIndex_from p rest (i + 1)%Z
  end.

Definition findIndex {A : Type} (p : A -> bool) (l : list A) : Z :=
  findIndex_from p l 0%Z.

(** A [Map<K, V>]: entries in insertion order; [set] on a key already there
    replaces its value in place. *)
Section JsMap.
Context {K V : Type} (eqb : K -> K -> bool).

Fixpoint map_set (m : list (K * V)) (k : K) (v : V) : list (K * V) :=
  match m with
  | [] => [(k, v)]
  | (k', v') :: rest =>
      if eqb k' k then (k', v) :: rest else (k', v') :: map_set rest k v
  end.

Fixpoint map_get (m : list (K * V)) (k : K) : option V :=
  match m with
  | [] => None
  | (k', v') :: rest => if eqb k' k then Some v' else map_get rest k
  end.

Definition map_has (m : list (K * V)) (k : K) : bool :=
  match map_get m k with Some _ => true | None => false end.
End JsMap.

(** ** The tokenizer *)

(** The [for] loop of [parseCSVLine], one iteration per unit of [fuel]; the
    index [i] advances by one, or by two over an escaped quote. *)
Fixpoint parseCSVLine_loop (fuel : nat) (line : string) (i : nat)
    (values : list string) (current : string) (inQuotes : bool)
    : list string * string :=
  match fuel with
  | O => (values, current)
  | S fuel' =>
      if (i <? String.length line)%nat then
        let char := charAt line i in
        if char_is char DQUOTE then
          if inQuotes && (i + 1 <? String.length line)%nat
             && char_is (charAt line (i + 1)) DQUOTE
          then parseCSVLine_loop fuel' line (i + 1 + 1) values
                 (current ++ String DQUOTE EmptyString) inQuotes
          else parseCSVLine_loop fuel' line (i + 1) values current (negb inQuotes)
        else if char_is char COMMA && negb inQuotes then
          parseCSVLine_loop fuel' line (i + 1) (values ++ [trim current])%list
            EmptyString inQuotes
        else
          parseCSVLine_loop fuel' line (i + 1) values (append_char current char)
            inQuotes
      else (values, current)
  end.

Definition parseCSVLine (line : string) : list string :=
  let '(values, current) :=
    parseCSVLine_loop (String.length line) line 0 [] EmptyString false in
  (values ++ [trim current])%list.

(** ** JSON values, objects and the runtime *)

(** A number as a decimal: [mantissa * 10 ^ exponent]. *)
Record number := { mantissa : Z; exponent : Z }.

#[local] Set Warnings "-register-all".

Inductive json : Type :=
| JNull
| JBool (b : bool)
| JNumber (n : number)
| JString (s : string)
| JArray (items : list json)
| JObject (props : list (string * json)).

(** [unknown]: a JSON value or [undefined]. *)
Inductive unknown : Type :=
| Undefined
| Value (v : json).

(** What the engine asks of the runtime.  [JSON_parse] answers [None] when
    [JSON.parse] throws. *)
Class Runtime : Type := {
  JSON_parse : string -> option json;
  JSON_stringify : json -> string;
  Number_toString : number -> string
}.

(** An object holds its properties in creation order.  [obj[key] = value]
    replaces the value of a property already there and creates one at the end
    otherwise. *)
Definition object_set (obj : list (string * json)) (key : string) (value : json)
    : list (string * json) :=
  map_set String.eqb obj key value.

Definition is_digit (c : ascii) : bool :=
  let n := char_code c in ((48 <=? n) && (n <=? 57))%nat.

Fixpoint digits_value (s : string) (acc : N) : option N :=
  match s with
  | EmptyString => Some acc
  | String c rest =>
      if is_digit c
      then digits_value rest (acc * 10 + N.of_nat (char_code c - 48))%N
      else None
  end.

(** A property key is an array index when it is the canonical decimal
    writing of an integer from 0 to 2^32 - 2. *)
Definition array_index (key : string) : option N :=
  match key with
  | EmptyString => None
  | String c rest =>
      if (Ascii.eqb c "0"%char && negb (is_empty rest)) then None
      else match digits_value key 0%N with
           | Some n => if (n <=? 4294967294)%N then Some n else None
           | None => None
           end
  end.

Section OwnProperties.
Context {V : Type}.

Fixpoint insert_index (n : N) (p : string * V) (sorted : list (N * (string * V)))
    : list (N * (string * V)) :=
  match sorted with
  | [] => [(n, p)]
  | (m, q) :: rest =>
      if (n <? m)%N then (n, p) :: sorted else (m, q) :: insert_index n p rest
  end.

Fixpoint index_properties (obj : list (string * V)) : list (N * (string * V)) :=
  match obj with
  | [] => []
  | (k, v) :: rest =>
      match array_index k with
      | Some n => insert_index n (k, v) (index_properties rest)
      | None => index_properties rest
      end
  end.

Definition named_properties (obj : list (string * V)) : list (string * V) :=
  filter (fun p => match array_index (fst p) with Some _ => false | None => true end)
         obj.

(** The own properties in the order every enumeration visits them: array
    indices ascending, then the other keys in creation order. *)
Definition own_properties (obj : list (string * V)) : list (string * V) :=
  (map snd (index_properties obj) ++ named_properties obj)%list.
End OwnProperties.

(** [Object.assign(target, source)]: each own property of [source] is
    assigned to [target] in turn.  Assigning to the key [__proto__] reaches
    the setter inherited from [Object.prototype], which creates no own
    property. *)
Definition assign_property (target : list (string * json)) (p : string * json)
    : list (string * json) :=
  if String.eqb (fst p) "__proto__" then target
  else object_set target (fst p) (snd p).

Definition Object_assign (target source : list (string * json))
    : list (string * json) :=
  fold_left assign_property (own_properties source) target.

(** ** Results of code that may throw *)

Inductive result (A : Type) : Type :=
| Ok (a : A)
| Throw (message : string).

Arguments Ok {A} a.
Arguments Throw {A} message.

(** ** The engine *)

Record CSVRow : Type := {
  name : string;
  content : string;
  type : string;
  metadata : option string
}.

Definition COLUMN_NAME : string := "name".
Definition COLUMN_CONTENT : string := "content".
Definition COLUMN_TYPE : string := "type".
Definition COLUMN_METADATA : string := "metadata".

Definition REQUIRED_KEYS : list string := [COLUMN_NAME; COLUMN_TYPE].

Definition KEYS_OUTSIDE_CONTENT : list string :=
  [COLUMN_NAME; COLUMN_TYPE; COLUMN_METADATA].

Definition parseHeader (headerLine : string) : option (list string) :=
  let columnNames :=
    filter (fun col => negb (String.eqb col EmptyString))
           (map trim (parseCSVLine headerLine)) in
  if (List.length columnNames =? 0)%nat then None else Some columnNames.

(** The callback of every [findIndex] of the file. *)
Definition matches_key (key : string) (col : string) : bool :=
  String.eqb (toLowerCase col) (toLowerCase key).

Fixpoint findColumnIndices_loop (columnNames keys : list string)
    (indices : list (Z * string)) : list (Z * string) :=
  match keys with
  | [] => indices
  | key :: keys' =>
      let index := findIndex (matches_key key) columnNames in
      findColumnIndices_loop columnNames keys'
        (if negb (index =? -1)%Z then map_set Z.eqb indices index key else indices)
  end.

Definition findColumnIndices (columnNames keys : list string) : list (Z * string) :=
  findColumnIndices_loop columnNames keys [].

Fixpoint validateRequiredKeys_loop (columnNames keys : list string)
    (requiredKeysIndices : list (Z * string)) : option (list (Z * string)) :=
  match keys with
  | [] => Some requiredKeysIndices
  | key :: keys' =>
      let index := findIndex (matches_key key) columnNames in
      if (index =? -1)%Z then None
      else validateRequiredKeys_loop columnNames keys'
             (map_set Z.eqb requiredKeysIndices index key)
  end.

Definition validateRequiredKeys (columnNames : list string) : option (list (Z * string)) :=
  validateRequiredKeys_loop columnNames REQUIRED_KEYS [].

Definition findContentColumnIndex (columnNames : list string) : Z :=
  findIndex (matches_key COLUMN_CONTENT) columnNames.

(** [values[index]?.trim()]. *)
Definition trimmed_at (values : list string) (index : Z) : option string :=
  option_map trim (array_get values index).

(** A string that may be [undefined], read as a condition. *)
Definition truthy (value : option string) : bool :=
  match value with
  | Some s => negb (is_empty s)
  | None => false
  end.

(** [value || fallback]. *)
Definition or_else (value : option string) (fallback : string) : string :=
  if truthy value then match value with Some s => s | None => fallback end
  else fallback.

Fixpoint extractKeysOutsideContent_loop (values : list string)
    (entries : list (Z * string)) (keysOutsideContentValues : list (string * string))
    : list (string * string) :=
  match entries with
  | [] => keysOutsideContentValues
  | (index, key) :: entries' =>
      extractKeysOutsideContent_loop values entries'
        match trimmed_at values index with
        | Some value => map_set String.eqb keysOutsideContentValues key value
        | None => keysOutsideContentValues
        end
  end.

Definition extractKeysOutsideContent (values : list string)
    (keysOutsideContentIndices : list (Z * string)) : list (string * string) :=
  extractKeysOutsideContent_loop values keysOutsideContentIndices [].

Section Engine.
Context {runtime : Runtime}.

(** The first loop of [buildContent]: [values] and [columnNames] are what
    remains of the two arrays from index [i] on, so [values[i]] and
    [columnNames[i]] are their heads and the loop ends with the shorter. *)
Fixpoint buildContent_columns (i : Z) (values columnNames : list string)
    (keysOutsideContentIndices : list (Z * string)) (contentColumnIndex : Z)
    (contentObject : list (string * json)) : list (string * json) :=
  match values, columnNames with
  | cell :: values', columnName :: columnNames' =>
      buildContent_columns (i + 1)%Z values' columnNames'
        keysOutsideContentIndices contentColumnIndex
        (if negb (map_has Z.eqb keysOutsideContentIndices i)
            && negb (i =? contentColumnIndex)%Z
         then
           let value := trim cell in
           if negb (String.eqb value EmptyString) then
             let upperKey := toUpperCase columnName in
             match JSON_parse value with
             | Some parsedValue => object_set contentObject upperKey parsedValue
             | None => object_set contentObject upperKey (JString value)
             end
           else contentObject
         else contentObject)
  | _, _ => contentObject
  end.

(** The second part of [buildContent]: the content column, when there is
    one, merged over what the columns gave. *)
Definition buildContent_merge (values : list string) (contentColumnIndex : Z)
    (contentObject : list (string * json)) : list (string * json) :=
  if negb (contentColumnIndex =? -1)%Z then
    match trimmed_at values contentColumnIndex with
    | Some contentColumnValue =>
        if negb (is_empty contentColumnValue) then
          match JSON_parse contentColumnValue with
          | Some (JObject parsedContent) => Object_assign contentObject parsedContent
          | Some parsedContent => object_set contentObject "CONTENT" parsedContent
          | None => object_set contentObject "CONTENT" (JString contentColumnValue)
          end
        else contentObject
    | None => contentObject
    end
  else contentObject.

Definition buildContent (values columnNames : list string)
    (keysOutsideContentIndices : list (Z * string)) (contentColumnIndex : Z)
    : string :=
  let contentObject :=
    buildContent_columns 0%Z values columnNames keysOutsideContentIndices
      contentColumnIndex [] in
  JSON_stringify (JObject (buildContent_merge values contentColumnIndex contentObject)).

Fixpoint validateRowHasRequiredKeys (values : list string)
    (requiredKeysIndices : list (Z * string)) : bool :=
  match requiredKeysIndices with
  | [] => true
  | (index, _) :: entries =>
      if negb (truthy (trimmed_at values index)) then false
      else validateRowHasRequiredKeys values entries
  end.

Definition processRow (line : string) (columnNames : list string)
    (requiredKeysIndices keysOutsideContentIndices : list (Z * string))
    (contentColumnIndex : Z) : result (option CSVRow) :=
  if is_empty (trim line) then
    Throw "Empty row found in the CSV file"
  else
    let values := parseCSVLine line in
    if negb (validateRowHasRequiredKeys values requiredKeysIndices) then
      Throw "Required keys not found in the CSV row"
    else
      let keysOutsideContentValues :=
        extractKeysOutsideContent values keysOutsideContentIndices in
      let hasMetadata :=
        map_has String.eqb keysOutsideContentValues COLUMN_METADATA in
      let finalContent :=
        if hasMetadata && negb (contentColumnIndex =? -1)%Z then
          or_else (trimmed_at values contentColumnIndex) EmptyString
        else
          buildContent values columnNames keysOutsideContentIndices
            contentColumnIndex in
      Ok (Some {|
        name := or_else (map_get String.eqb keysOutsideContentValues COLUMN_NAME)
                  EmptyString;
        content := finalContent;
        type := or_else (map_get String.eqb keysOutsideContentValues COLUMN_TYPE)
                  EmptyString;
        metadata := Some (or_else (map_get String.eqb keysOutsideContentValues
                                     COLUMN_METADATA) EmptyString)
      |}).

(** The message [console.error] prints for a row that threw. *)
Definition row_failure (message : string) : string :=
  "Failed to process CSV row: " ++ message.

(** The loop of [parseCSV] over the data lines: the rows pushed so far and
    the lines written to the console. *)
Fixpoint parseCSV_loop (dataLines : list string) (columnNames : list string)
    (requiredKeysIndices keysOutsideContentIndices : list (Z * string))
    (contentColumnIndex : Z) (rows : list CSVRow) (console : list string)
    : list CSVRow * list string :=
  match dataLines with
  | [] => (rows, console)
  | line :: dataLines' =>
      match processRow line columnNames requiredKeysIndices
              keysOutsideContentIndices contentColumnIndex with
      | Ok (Some row) =>
          parseCSV_loop dataLines' columnNames requiredKeysIndices
            keysOutsideContentIndices contentColumnIndex
            (rows ++ [row])%list console
      | Ok None =>
          parseCSV_loop dataLines' columnNames requiredKeysIndices
            keysOutsideContentIndices contentColumnIndex rows console
      | Throw message =>
          parseCSV_loop dataLines' columnNames requiredKeysIndices
            keysOutsideContentIndices contentColumnIndex rows
            (console ++ [row_failure message])%list
      end
  end.

(** [parseCSV] with what it writes to the console. *)
Definition parseCSV_run (csvText : string) : result (list CSVRow * list string) :=
  let lines := split LF (trim csvText) in
  if (List.length lines =? 0)%nat || (List.length lines =? 1)%nat then
    Throw "No lines found in the CSV file"
  else
    let headerLine := nth 0 lines EmptyString in
    match parseHeader headerLine with
    | None => Throw "No column names found in the CSV header"
    | Some columnNames =>
        match validateRequiredKeys columnNames with
        | None => Throw "Required keys not found in the CSV header"
        | Some requiredKeysIndices =>
            let keysOutsideContentIndices :=
              findColumnIndices columnNames KEYS_OUTSIDE_CONTENT in
            let contentColumnIndex := findContentColumnIndex columnNames in
            let dataLines := tl lines in
            Ok (parseCSV_loop dataLines columnNames requiredKeysIndices
                  keysOutsideContentIndices contentColumnIndex [] [])
        end
    end.

Definition parseCSV (csvText : string) : result (list CSVRow) :=
  match parseCSV_run csvText with
  | Ok (rows, _) => Ok rows
  | Throw message => Throw message
  end.

Definition escapeCSVValue (value : unknown) : string :=
  match value with
  | Undefined | Value JNull => EmptyString
  | Value v =>
      let stringValue :=
        match v with
        | JNull | JArray _ | JObject _ => JSON_stringify v
        | JString s => s
        | JNumber n => Number_toString n
        | JBool b => if b then "true" else "false"
        end in
      if includes stringValue COMMA || includes stringValue DQUOTE
         || includes stringValue LF
      then String DQUOTE (double_quotes stringValue ++ String DQUOTE EmptyString)
      else stringValue
  end.

Definition generateCSV (headers : list string) (rows : list (list unknown)) : string :=
  let csvRows :=
    (join "," (map escapeCSVValue (map (fun h => Value (JString h)) headers))
     :: map (fun row => join "," (map escapeCSVValue row)) rows)%list in
  join (String LF EmptyString) csvRows.
End Engine.

(** ** A runtime for evaluating the engine

    [JSON.parse] and [JSON.stringify] over the JSON grammar, with numbers
    kept as the decimals their literals denote (the runtime rounds a literal
    to a double, which changes nothing for literals of at most 15 significant
    digits in the range of doubles) and string escapes up to code 255. *)

Definition is_json_space (c : ascii) : bool :=
  let n := char_code c in ((n =? 32) || (n =? 9) || (n =? 10) || (n =? 13))%nat.

Fixpoint skip_space (s : string) : string :=
  match s with
  | String c rest => if is_json_space c then skip_space rest else s
  | EmptyString => s
  end.

Definition hex_value (c : ascii) : option nat :=
  let n := char_code c in
  if ((48 <=? n) && (n <=? 57))%nat then Some (n - 48)
  else if ((65 <=? n) && (n <=? 70))%nat then Some (n - 55)
  else if ((97 <=? n) && (n <=? 102))%nat then Some (n - 87)
  else None.

(** The characters of a string literal after its opening quote. *)
Fixpoint parse_chars (s : string) (acc : string) : option (string * string) :=
  match s with
  | EmptyString => None
  | String c rest =>
      if Ascii.eqb c DQUOTE then Some (acc, rest)
      else if (char_code c <? 32)%nat then None
      else if Ascii.eqb c "\"%char then
        match rest with
        | String e rest' =>
            let plain (d : ascii) := parse_chars rest' (acc ++ String d EmptyString) in
            if Ascii.eqb e DQUOTE then plain DQUOTE
            else if Ascii.eqb e "\"%char then plain "\"%char
            else if Ascii.eqb e "/"%char then plain "/"%char
            else if Ascii.eqb e "b"%char then plain (ascii_of_nat 8)
            else if Ascii.eqb e "f"%char then plain (ascii_of_nat 12)
            else if Ascii.eqb e "n"%char then plain (ascii_of_nat 10)
            else if Ascii.eqb e "r"%char then plain (ascii_of_nat 13)
            else if Ascii.eqb e "t"%char then plain (ascii_of_nat 9)
            else if Ascii.eqb e "u"%char then
              match rest' with
              | String h1 (String h2 (String h3 (String h4 rest''))) =>
                  match hex_value h1, hex_value h2, hex_value h3, hex_value h4 with
                  | Some 0%nat, Some 0%nat, Some a, Some b =>
                      parse_chars rest''
                        (acc ++ String (ascii_of_nat (16 * a + b)) EmptyString)
                  | _, _, _, _ => None
                  end
              | _ => None
              end
            else None
        | EmptyString => None
        end
      else parse_chars rest (acc ++ String c EmptyString)
  end.

Fixpoint take_digits (s : string) (acc : string) : string * string :=
  match s with
  | String c rest =>
      if is_digit c then take_digits rest (acc ++ String c EmptyString) else (acc, s)
  | EmptyString => (acc, s)
  end.

Definition digits_Z (ds : string) : Z :=
  match digits_value ds 0%N with Some n => Z.of_N n | None => 0%Z end.

(** A number literal: integer part, optional fraction, optional exponent. *)
Definition parse_number (s : string) : option (number * string) :=
  let '(negative, s1) :=
    match s with
    | String c rest => if Ascii.eqb c "-"%char then (true, rest) else (false, s)
    | EmptyString => (false, s)
    end in
  let '(int, s2) := take_digits s1 EmptyString in
  let int_ok :=
    match int with
    | EmptyString => false
    | String c more => negb (Ascii.eqb c "0"%char) || is_empty more
    end in
  if negb int_ok then None
  else
    let frac_part :=
      match s2 with
      | String c rest =>
          if Ascii.eqb c "."%char then
            let '(frac, s3) := take_digits rest EmptyString in
            if is_empty frac then None else Some (frac, s3)
          else Some (EmptyString, s2)
      | EmptyString => Some (EmptyString, s2)
      end in
    match frac_part with
    | None => None
    | Some (frac, s3) =>
        let exp_part :=
          match s3 with
          | String c rest =>
              if Ascii.eqb c "e"%char || Ascii.eqb c "E"%char then
                let '(minus, s4) :=
                  match rest with
                  | String d rest' =>
                      if Ascii.eqb d "-"%char then (true, rest')
                      else if Ascii.eqb d "+"%char then (false, rest')
                      else (false, rest)
                  | EmptyString => (false, rest)
                  end in
                let '(ds, s5) := take_digits s4 EmptyString in
                if is_empty ds then None
                else Some ((if minus then - digits_Z ds else digits_Z ds)%Z, s5)
              else Some (0%Z, s3)
          | EmptyString => Some (0%Z, s3)
          end in
        match exp_part with
        | None => None
        | Some (e, rest) =>
            let m := digits_Z (int ++ frac) in
            Some ({| mantissa := if negative then (- m)%Z else m;
                     exponent := (e - Z.of_nat (String.length frac))%Z |}, rest)
        end
    end.

Definition strip_prefix (prefix s : string) : option string :=
  if String.prefix prefix s
  then Some (String.substring (String.length prefix)
               (String.length s - String.length prefix) s)
  else None.

Section Parser.
Variable parse_value : string -> option (json * string).

(** The items of an array after the first bracket, one per unit of fuel. *)
Fixpoint parse_items (fuel : nat) (s : string) (acc : list json)
    : option (json * string) :=
  match fuel with
  | O => None
  | S fuel' =>
      match parse_value s with
      | Some (item, after) =>
          match skip_space after with
          | String c rest =>
              if Ascii.eqb c ","%char then parse_items fuel' rest (acc ++ [item])%list
              else if Ascii.eqb c "]"%char then Some (JArray (acc ++ [item])%list, rest)
              else None
          | EmptyString => None
          end
      | None => None
      end
  end.

(** The members of an object after the first brace.  A key written twice
    keeps its first place and its last value. *)
Fixpoint parse_members (fuel : nat) (s : string) (acc : list (string * json))
    : option (json * string) :=
  match fuel with
  | O => None
  | S fuel' =>
      match skip_space s with
      | String q rest =>
          if Ascii.eqb q DQUOTE then
            match parse_chars rest EmptyString with
            | Some (key, after_key) =>
                match skip_space after_key with
                | String colon after_colon =>
                    if Ascii.eqb colon ":"%char then
                      match parse_value after_colon with
                      | Some (value, after) =>
                          let acc' := map_set String.eqb acc key value in
                          match skip_space after with
                          | String c rest' =>
                              if Ascii.eqb c ","%char then parse_members fuel' rest' acc'
                              else if Ascii.eqb c "}"%char then Some (JObject acc', rest')
                              else None
                          | EmptyString => None
                          end
                      | None => None
                      end
                    else None
                | EmptyString => None
                end
            | None => None
            end
          else None
      | EmptyString => None
      end
  end.
End Parser.

(** One JSON value at the head of [s] and what follows it.  The length of
    the text bounds the nesting and the number of items, so it is fuel
    enough. *)
Fixpoint parse_value (fuel : nat) (s : string) : option (json * string) :=
  match fuel with
  | O => None
  | S fuel' =>
      match skip_space s with
      | EmptyString => None
      | String c rest =>
          let text := String c rest in
          if Ascii.eqb c "{"%char then
            match skip_space rest with
            | String d after =>
                if Ascii.eqb d "}"%char then Some (JObject [], after)
                else parse_members (parse_value fuel') fuel' rest []
            | EmptyString => None
            end
          else if Ascii.eqb c "["%char then
            match skip_space rest with
            | String d after =>
                if Ascii.eqb d "]"%char then Some (JArray [], after)
                else parse_items (parse_value fuel') fuel' rest []
            | EmptyString => None
            end
          else if Ascii.eqb c DQUOTE then
            match parse_chars rest EmptyString with
            | Some (str, after) => Some (JString str, after)
            | None => None
            end
          else
            match strip_prefix "true" text, strip_prefix "false" text,
                  strip_prefix "null" text with
            | Some after, _, _ => Some (JBool true, after)
            | _, Some after, _ => Some (JBool false, after)
            | _, _, Some after => Some (JNull, after)
            | None, None, None =>
                match parse_number text with
                | Some (n, after) => Some (JNumber n, after)
                | None => None
                end
            end
      end
  end.

Definition json_parse (text : string) : option json :=
  match parse_value (S (String.length text)) text with
  | Some (value, after) => if is_empty (skip_space after) then Some value else None
  | None => None
  end.

(** Printing *)

Definition decimal (n : N) : string := NilZero.string_of_uint (N.to_uint n).

Fixpoint zeros (n : nat) : string :=
  match n with O => EmptyString | S n' => String "0"%char (zeros n') end.

(** The digits of a mantissa without its trailing zeros. *)
Fixpoint significant (ds : string) : string :=
  match ds with
  | EmptyString => EmptyString
  | String c rest =>
      match significant rest with
      | EmptyString => if Ascii.eqb c "0"%char then EmptyString else String c EmptyString
      | kept => String c kept
      end
  end.

(** [Number::toString] in radix 10: [ds] are the [k] significant digits and
    [n] places the decimal point. *)
Definition number_to_string (x : number) : string :=
  if (mantissa x =? 0)%Z then "0"
  else
    let all := decimal (Z.abs_N (mantissa x)) in
    let ds := significant all in
    let k := Z.of_nat (String.length ds) in
    let n := (Z.of_nat (String.length all) + exponent x)%Z in
    let sign := if (mantissa x <? 0)%Z then "-" else EmptyString in
    sign ++
    (if ((k <=? n) && (n <=? 21))%Z then ds ++ zeros (Z.to_nat (n - k))
     else if ((0 <? n) && (n <=? 21))%Z then
       String.substring 0 (Z.to_nat n) ds ++ "."
       ++ String.substring (Z.to_nat n) (Z.to_nat (k - n)) ds
     else if ((-6 <? n) && (n <=? 0))%Z then "0." ++ zeros (Z.to_nat (- n)) ++ ds
     else
       let e := (n - 1)%Z in
       let exp := (if (e <? 0)%Z then "-" else "+") ++ decimal (Z.abs_N e) in
       if (k =? 1)%Z then ds ++ "e" ++ exp
       else String.substring 0 1 ds ++ "."
            ++ String.substring 1 (Z.to_nat (k - 1)) ds ++ "e" ++ exp).

Definition hex_digit (n : nat) : ascii :=
  if (n <? 10)%nat then ascii_of_nat (48 + n) else ascii_of_nat (87 + n).

Definition quote_char (c : ascii) : string :=
  let n := char_code c in
  let escaped (e : string) := String "\"%char e in
  if Ascii.eqb c DQUOTE then escaped (String DQUOTE EmptyString)
  else if Ascii.eqb c "\"%char then escaped "\"
  else if (n =? 8)%nat then escaped "b"
  else if (n =? 12)%nat then escaped "f"
  else if (n =? 10)%nat then escaped "n"
  else if (n =? 13)%nat then escaped "r"
  else if (n =? 9)%nat then escaped "t"
  else if (n <? 32)%nat then
    escaped ("u00" ++ String (hex_digit (n / 16)) (String (hex_digit (n mod 16)) EmptyString))
  else String c EmptyString.

Fixpoint quote_chars (s : string) : string :=
  match s with
  | EmptyString => EmptyString
  | String c rest => quote_char c ++ quote_chars rest
  end.

Definition quote_string (s : string) : string :=
  String DQUOTE (quote_chars s ++ String DQUOTE EmptyString).

Fixpoint json_stringify (value : json) : string :=
  match value with
  | JNull => "null"
  | JBool b => if b then "true" else "false"
  | JNumber n => number_to_string n
  | JString s => quote_string s
  | JArray items => "[" ++ join "," (map json_stringify items) ++ "]"
  | JObject props =>
      "{" ++ join ","
               (map (fun p => quote_string (fst p) ++ ":" ++ snd p)
                    (own_properties
                       (map (fun p => let '(k, v) := p in (k, json_stringify v)) props)))
          ++ "}"
  end.

#[export] Instance decimal_runtime : Runtime := {
  JSON_parse := json_parse;
  JSON_stringify := json_stringify;
  Number_toString := number_to_string
}.

(** ** The tokenizer as the specification words it

    One scan from left to right with one boolean state, inside a quoted
    field or not.  A quote toggles the state, unless the scan is inside a
    quoted field and the next character is a quote too: then the buffer gets
    one quote and both characters are consumed.  A comma outside quotes ends
    the field (the trimmed buffer is pushed, the buffer is reset); the end of
    the line ends the last field. *)
Fixpoint fields_from (inside : bool) (buffer : string) (input : string) : list string :=
  match input with
  | EmptyString => [trim buffer]
  | String c rest =>
      if Ascii.eqb c DQUOTE then
        match rest with
        | String next rest' =>
            if inside && Ascii.eqb next DQUOTE
            then fields_from inside (buffer ++ String DQUOTE EmptyString) rest'
            else fields_from (negb inside) buffer rest
        | EmptyString => fields_from (negb inside) buffer rest
        end
      else if Ascii.eqb c COMMA && negb inside
      then trim buffer :: fields_from inside EmptyString rest
      else fields_from inside (buffer ++ String c EmptyString) rest
  end.

Definition tokenize_spec (line : string) : list string :=
  fields_from false EmptyString line.

(** The state of that scan after [input]: inside a quoted field or not. *)
Fixpoint inside_after (inside : bool) (input : string) : bool :=
  match input with
  | EmptyString => inside
  | String c rest =>
      if Ascii.eqb c DQUOTE then
        match rest with
        | String next rest' =>
            if inside && Ascii.eqb next DQUOTE then inside_after inside rest'
            else inside_after (negb inside) rest
        | EmptyString => negb inside
        end
      else inside_after inside rest
  end.

(** A value the tokenizer can represent: a field of some line. *)
Definition representable (value : string) : Prop :=
  exists line, In value (parseCSVLine line).

(** ** Documents, their schema and their rows *)

Section Documents.
Context {runtime : Runtime}.

Definition documentLines (csvText : string) : list string := split LF (trim csvText).
Definition headerLine (csvText : string) : string := nth 0 (documentLines csvText) EmptyString.
Definition dataLines (csvText : string) : list string := tl (documentLines csvText).

(** The tokenized header, before empty names are dropped. *)
Definition headerFields (csvText : string) : list string :=
  parseCSVLine (headerLine csvText).

Definition header_lacks (csvText key : string) : Prop :=
  forall col, In col (headerFields csvText) -> toLowerCase col <> toLowerCase key.

Definition columnsOf (csvText : string) : list string :=
  match parseHeader (headerLine csvText) with
  | Some columnNames => columnNames
  | None => []
  end.

Definition index_of (key : string) (csvText : string) : Z :=
  findIndex (matches_key key) (columnsOf csvText).

(** [processRow] as [parseCSV] calls it on a line of the document. *)
Definition importRow (csvText line : string) : result (option CSVRow) :=
  match validateRequiredKeys (columnsOf csvText) with
  | Some requiredKeysIndices =>
      processRow line (columnsOf csvText) requiredKeysIndices
        (findColumnIndices (columnsOf csvText) KEYS_OUTSIDE_CONTENT)
        (findContentColumnIndex (columnsOf csvText))
  | None => Throw "Required keys not found in the CSV header"
  end.

(** A data line is skipped when it is blank or lacks a value at the index
    of the name column or of the type column. *)
Definition row_skipped (csvText line : string) : bool :=
  is_empty (trim line)
  || negb (truthy (trimmed_at (parseCSVLine line) (index_of COLUMN_NAME csvText)))
  || negb (truthy (trimmed_at (parseCSVLine line) (index_of COLUMN_TYPE csvText))).

(** The content of a row in plaintext mode. *)
Definition plaintextContent (csvText line : string) : string :=
  buildContent (parseCSVLine line) (columnsOf csvText)
    (findColumnIndices (columnsOf csvText) KEYS_OUTSIDE_CONTENT)
    (findContentColumnIndex (columnsOf csvText)).

(** The content of a row in passthrough mode: the trimmed content cell,
    nothing when the row has no such cell. *)
Definition passthroughContent (csvText line : string) : string :=
  match array_get (parseCSVLine line) (index_of COLUMN_CONTENT csvText) with
  | Some cell => trim cell
  | None => EmptyString
  end.

(** The header resolves: it has column names, the two required ones among
    them. *)
Definition header_resolves (csvText : string) : Prop :=
  exists columnNames requiredKeysIndices,
    parseHeader (headerLine csvText) = Some columnNames
    /\ validateRequiredKeys columnNames = Some requiredKeysIndices.

(** The record of a data line that is not skipped. *)
Definition rowRecord (csvText line : string) : CSVRow :=
  let values := parseCSVLine line in
  {| name := or_else (trimmed_at values (index_of COLUMN_NAME csvText)) EmptyString;
     content :=
       match array_get values (index_of COLUMN_METADATA csvText) with
       | Some _ =>
           if (index_of COLUMN_CONTENT csvText =? -1)%Z
           then plaintextContent csvText line
           else passthroughContent csvText line
       | None => plaintextContent csvText line
       end;
     type := or_else (trimmed_at values (index_of COLUMN_TYPE csvText)) EmptyString;
     metadata :=
       Some (or_else (trimmed_at values (index_of COLUMN_METADATA csvText)) EmptyString)
  |}.

(** A metadata value was extracted from the line: [hasMetadata] in
    [processRow]. *)
Definition metadataExtracted (csvText line : string) : bool :=
  map_has String.eqb
    (extractKeysOutsideContent (parseCSVLine line)
       (findColumnIndices (columnsOf csvText) KEYS_OUTSIDE_CONTENT))
    COLUMN_METADATA.

(** The condition [processRow] tests to pass the content cell through: a
    metadata value was extracted and there is a content column. *)
Definition passthroughSelected (csvText line : string) : bool :=
  metadataExtracted csvText line
  && negb (findContentColumnIndex (columnsOf csvText) =? -1)%Z.

(** The rows [parseCSV] keeps: one per data line that materializes, in the
    order of the lines. *)
Definition materializedRows (csvText : string) : list CSVRow :=
  flat_map (fun line =>
              match importRow csvText line with
              | Ok (Some row) => [row]
              | _ => []
              end)
           (dataLines csvText).

(** ** Export of imported records *)

Inductive column : Type := ColName | ColContent | ColType | ColMetadata.

Definition column_header (c : column) : string :=
  match c with
  | ColName => COLUMN_NAME
  | ColContent => COLUMN_CONTENT
  | ColType => COLUMN_TYPE
  | ColMetadata => COLUMN_METADATA
  end.

Definition column_value (row : CSVRow) (c : column) : unknown :=
  match c with
  | ColName => Value (JString (name row))
  | ColContent => Value (JString (content row))
  | ColType => Value (JString (type row))
  | ColMetadata =>
      match metadata row with
      | Some m => Value (JString m)
      | None => Undefined
      end
  end.

(** The records serialized under the columns [cols], in that order. *)
Definition exportRecords (cols : list column) (rows : list CSVRow) : string :=
  generateCSV (map column_header cols)
    (map (fun row => map (column_value row) cols) rows).
End Documents.

(** The indices of the columns kept outside the content, once resolved. *)
Definition outsideContentIndices (nameIndex typeIndex metadataIndex : Z)
    : list (Z * string) :=
  (nameIndex, COLUMN_NAME) :: (typeIndex, COLUMN_TYPE)
  :: (if (metadataIndex =? -1)%Z then [] else [(metadataIndex, COLUMN_METADATA)]).

Definition starts_with_quote (s : string) : bool :=
  match s with String c _ => Ascii.eqb c DQUOTE | EmptyString => false end.

(** The condition under which [escapeCSVValue] wraps a string in quotes. *)
Definition special (v : string) : bool :=
  includes v COMMA || includes v DQUOTE || includes v LF.

(** A cell without special characters: no comma, no quote, no line feed, and
    no white space around it. *)
Definition plain_cell (cell : string) : Prop :=
  includes cell COMMA = false /\ includes cell DQUOTE = false
  /\ includes cell LF = false /\ trim cell = cell.

Definition column_eqb (c d : column) : bool :=
  match c, d with
  | ColName, ColName | ColContent, ColContent
  | ColType, ColType | ColMetadata, ColMetadata => true
  | _, _ => false
  end.

Definition required_column (c : column) : bool :=
  match c with ColName | ColType => true | ColContent | ColMetadata => false end.

(** The column layouts under which records are exported as they were
    imported: each column once at most, the two required columns, and the
    content column only next to a metadata column. *)
Definition valid_layout (cols : list column) : Prop :=
  NoDup cols /\ In ColName cols /\ In ColType cols
  /\ (In ColContent cols -> In ColMetadata cols).

(** A row of plain cells, one per column, with a name and a type. *)
Definition row_fits (cols : list column) (row : list string) : Prop :=
  Forall plain_cell row
  /\ Forall2 (fun c cell => required_column c = true -> cell <> EmptyString) cols row.

(** The text of a table of cells: cells joined by commas, lines by line
    feeds, the header first. *)
Definition tableText (header : list string) (cells : list (list string)) : string :=
  join (String LF EmptyString) (join "," header :: map (join ",") cells).

(** Two documents are equal up to the order of their columns only if they
    have as many lines and corresponding lines hold the same cells in some
    order. *)
Definition same_cells_per_line (doc1 doc2 : string) : Prop :=
  Forall2 (fun l1 l2 => Permutation (parseCSVLine l1) (parseCSVLine l2))
          (split LF doc1) (split LF doc2).

(** ** Literals for examples: an apostrophe stands for a quote character. *)
Fixpoint lit (s : string) : string :=
  match s with
  | EmptyString => EmptyString
  | String c rest => String (if Ascii.eqb c "'"%char then DQUOTE else c) (lit rest)
  end.

Definition document (lines : list string) : string := join (String LF EmptyString) lines.

(** ** Documents of the examples *)

(** A header with an empty field before the name column, and one row. *)
Definition shifted_document : string := document ["a,,name,type"; "v,w,n,t"].

(** A content cell holding an object with the key a, and a column b. *)
Definition merge_document : string :=
  document ["name,type,content,b"; lit "n,t,'{''a'':1}',2"].

(** A content cell holding an object with the key A, and a column a. *)
Definition collision_document : string :=
  document ["name,type,content,a"; lit "n,t,'{''A'':1}',2"].

Definition grid_document : string :=
  document ["name,type,content";
            lit "'Grid Bot',execute_actions,'{''symbol'':''BTC/USDT''}'"].

Definition said_hi : string := lit "He said 'hi', twice".

(** Plain cells under a header without a metadata column. *)
Definition content_document : string := document ["name,type,content"; "foo,bar,abc"].

(** A metadata column and a content column; the second row has an empty
    metadata cell, the third row ends before the metadata cell. *)
Definition passthrough_document : string :=
  document ["name,type,content,metadata"; "n1,t1, {raw ,m1"; "n2,t2,c2,"; "n3,t3,7"].

(** A blank line and a row without a name between two rows that
    materialize. *)
Definition skipping_document : string :=
  document ["Name,TYPE,x"; "a,b,1"; " "; ",b,2"; "c,d,3"].

(** A header without the name column. *)
Definition rejected_document : string := document ["nom,type"; "a,b"].

(** A header with the two required columns, then rows that are all blank:
    a line of one space and an empty line. *)
Definition blank_rows_document : string := document ["name,type"; " "; ""].

(** ** Files: the check of the name, the reading and the download *)

(** [s.endsWith(suffix)]: [suffix] is [s] or ends what follows the first
    character of [s]. *)
Fixpoint endsWith (s suffix : string) : bool :=
  String.eqb s suffix
  || match s with
     | EmptyString => false
     | String _ rest => endsWith rest suffix
     end.

(** A [File]: its name and what the promise of [file.text()] settles to, the
    text or the error it is rejected with. *)
Record File : Type := {
  fileName : string;
  fileText : result string
}.

Definition isValidCSVFile (file : File) : bool := endsWith (fileName file) ".csv".

(** What [downloadCSV] hands to the browser: the blob behind the link and
    the [download] attribute of the link it clicks. *)
Record Download : Type := {
  blobParts : list string;
  blobType : string;
  downloadName : string
}.

Definition downloadCSV (csvString filename : string) : Download :=
  {| blobParts := [csvString];
     blobType := "text/csv;charset=utf-8;";
     downloadName := filename ++ ".csv" |}.

Section Files.
Context {runtime : Runtime}.

(** [parseCSVFile]: the promise it returns, resolved with the rows or
    rejected with an error.  The check of the name is outside the [try];
    what the [try] catches, from the reading or from [parseCSV], is thrown
    again under a longer message. *)
Definition parseCSVFile (file : File) : result (list CSVRow) :=
  if negb (isValidCSVFile file) then Throw "File must be a CSV file"
  else
    match
      match fileText file with
      | Ok text => parseCSV text
      | Throw message => Throw message
      end
    with
    | Ok rows => Ok rows
    | Throw message => Throw ("Failed to read CSV file: " ++ message)
    end.
End Files.

(** ** The session kept in [localStorage] *)

Definition Storage : Type := list (string * string).

Definition getItem (storage : Storage) (key : string) : option string :=
  map_get String.eqb storage key.

Definition setItem (storage : Storage) (key value : string) : Storage :=
  map_set String.eqb storage key value.

Definition removeItem (storage : Storage) (key : string) : Storage :=
  filter (fun entry => negb (String.eqb (fst entry) key)) storage.

(** [getItem(key) !== null]. *)
Definition stored (storage : Storage) (key : string) : bool :=
  match getItem storage key with Some _ => true | None => false end.

Definition isLoggedIn (storage : Storage) : bool :=
  stored storage "auth_username" && stored storage "auth_password".

Record LoginCredentials : Type := { username : string; password : string }.

(** The browser as [useAuth] touches it: [localStorage], the route
    [navigate] was last sent to (none yet), and the messages of the errors
    handed to [handleError], which is imported from outside these sources
    and is taken to leave the storage and the route alone. *)
Record Browser : Type := {
  localStorage : Storage;
  route : option string;
  handledErrors : list string
}.

(** [login] up to its [await]: both credentials are stored before the
    server is asked. *)
Definition login_store (data : LoginCredentials) (storage : Storage) : Storage :=
  setItem (setItem storage "auth_username" (username data))
          "auth_password" (password data).

(** [loginMutation.mutate(data)]: [login], then [onSuccess] or [onError]
    with what [LoginService.testAuth()] settled to, the [Throw] carrying
    the message of the error. *)
Definition loginMutation (testAuth : result unit) (data : LoginCredentials)
    (browser : Browser) : Browser :=
  let storage := login_store data (localStorage browser) in
  match testAuth with
  | Ok _ =>
      {| localStorage := storage;
         route := Some "/";
         handledErrors := handledErrors browser |}
  | Throw message =>
      {| localStorage := removeItem (removeItem storage "auth_username") "auth_password";
         route := route browser;
         handledErrors := (handledErrors browser ++ [message])%list |}
  end.

Definition logout (browser : Browser) : Browser :=
  {| localStorage :=
       removeItem (removeItem (localStorage browser) "auth_username") "auth_password";
     route := Some "/login";
     handledErrors := handledErrors browser |}.

(** ** The export of task results and the import dialog *)

(** The fields of a [Task] that the two components read or write, each
    absent ([undefined] or [null]) or a string. *)
Record Task : Type := {
  task_name : option string;
  task_content : option string;
  task_type : option string;
  task_content_metadata : option string;
  task_status : option string;
  task_result : option string;
  task_result_metadata : option string
}.

(** What a handler does besides setting state, in order.  [HandleError] is
    the call of [handleError], imported from outside these sources, on an
    error of that message. *)
Inductive effect : Type :=
| ShowErrorToast (message : string)
| ShowSuccessToast (message : string)
| HandleError (message : string)
| DownloadFile (download : Download)
| CreateTasks (requestBody : list Task)
| InvalidateTasks.

(** An optional string as a value to serialize. *)
Definition optional_value (value : option string) : unknown :=
  match value with
  | Some s => Value (JString s)
  | None => Undefined
  end.

(** [n] in a template literal, for a count. *)
Definition count_text (n : nat) : string := decimal (N.of_nat n).

(** [n > 1 ? suffix : empty]. *)
Definition plural (n : nat) (suffix : string) : string :=
  if (1 <? n)%nat then suffix else EmptyString.

Section Components.
Context {runtime : Runtime}.

(** [task.result && task.result.trim() !== empty]. *)
Definition hasResult (task : Task) : bool :=
  truthy (task_result task)
  && negb (String.eqb (trim (or_else (task_result task) EmptyString)) EmptyString).

(** The value exported for the result of a task: its JSON text printed
    again when it parses to something else than [null], the text itself
    otherwise. *)
Definition resultValue (task : Task) : option string :=
  match
    (if truthy (task_result task)
     then match JSON_parse (or_else (task_result task) EmptyString) with
          | Some parsed => Ok parsed
          | None => Throw "SyntaxError"
          end
     else Ok JNull)
  with
  | Ok JNull => task_result task
  | Ok parsed => Some (JSON_stringify parsed)
  | Throw _ => task_result task
  end.

Definition exportHeaders : list string := ["name"; "status"; "result"; "result_metadata"].

Definition exportRow (task : Task) : list unknown :=
  [Value (JString (or_else (task_name task) EmptyString));
   Value (JString (or_else (task_status task) EmptyString));
   Value (JString (or_else (resultValue task) "No result found"));
   optional_value (task_result_metadata task)].

(** The state of [ExportResults] and what it has done. *)
Record ExportState : Type := {
  isExporting : bool;
  exportEffects : list effect
}.

(** [handleExport]; [now] is [new Date().toISOString()] and [tasks] the data
    of the query, absent while it loads. *)
Definition handleExport (now : string) (tasks : option (list Task))
    (state : ExportState) : ExportState :=
  match tasks with
  | None | Some [] =>
      {| isExporting := isExporting state;
         exportEffects :=
           (exportEffects state ++ [ShowErrorToast "No tasks available to export"])%list |}
  | Some tasks =>
      let tasksWithResults := filter hasResult tasks in
      if (List.length tasksWithResults =? 0)%nat then
        {| isExporting := false;
           exportEffects :=
             (exportEffects state
              ++ [ShowErrorToast "No tasks with results found to export"])%list |}
      else
        let rows := map exportRow tasksWithResults in
        let csvString := generateCSV exportHeaders rows in
        let filename := "task-results-" ++ nth 0 (split "T"%char now) EmptyString in
        {| isExporting := false;
           exportEffects :=
             (exportEffects state
              ++ [DownloadFile (downloadCSV csvString filename);
                  ShowSuccessToast
                    ("Exported " ++ count_text (List.length tasksWithResults)
                     ++ " task result" ++ plural (List.length tasksWithResults) "s")])%list |}
  end.

(** The state of [ImportTask] and what it has done.  [fileInput] is the
    value of the file input behind [fileInputRef], when it is mounted. *)
Record ImportState : Type := {
  isOpen : bool;
  selectedFile : option File;
  parsedTasks : list CSVRow;
  isParsing : bool;
  fileInput : option string;
  importEffects : list effect
}.

(** [handleFileSelect]; [file] is [event.target.files?.[0]]. *)
Definition handleFileSelect (file : option File) (state : ImportState) : ImportState :=
  match file with
  | None => state
  | Some file =>
      match parseCSVFile file with
      | Ok tasks =>
          if (List.length tasks =? 0)%nat then
            {| isOpen := isOpen state;
               selectedFile := None;
               parsedTasks := parsedTasks state;
               isParsing := false;
               fileInput := fileInput state;
               importEffects :=
                 (importEffects state
                  ++ [ShowErrorToast "No valid tasks found in the CSV file"])%list |}
          else
            {| isOpen := isOpen state;
               selectedFile := Some file;
               parsedTasks := tasks;
               isParsing := false;
               fileInput := fileInput state;
               importEffects := importEffects state |}
      | Throw message =>
          {| isOpen := isOpen state;
             selectedFile := None;
             parsedTasks := [];
             isParsing := false;
             fileInput := fileInput state;
             importEffects := (importEffects state ++ [ShowErrorToast message])%list |}
      end
  end.

(** The task sent for a parsed row. *)
Definition taskOfRow (row : CSVRow) : Task :=
  {| task_name := Some (name row);
     task_content := Some (content row);
     task_type := Some (type row);
     task_content_metadata := metadata row;
     task_status := None;
     task_result := None;
     task_result_metadata := None |}.

(** The state [handleImport] and [handleDialogClose] reset to. *)
Definition resetSelection (open : bool) (effects : list effect) (state : ImportState)
    : ImportState :=
  {| isOpen := open;
     selectedFile := None;
     parsedTasks := [];
     isParsing := isParsing state;
     fileInput := match fileInput state with
                  | Some _ => Some EmptyString
                  | None => None
                  end;
     importEffects := effects |}.

(** [handleImport]; [created] is what [createTaskMutation.mutateAsync]
    settles to: the counts of tasks created and failed, or the error, which
    [onError] hands to [handleError] before the [catch] sees it. *)
Definition handleImport (created : result (nat * nat)) (state : ImportState)
    : ImportState :=
  if (List.length (parsedTasks state) =? 0)%nat then
    {| isOpen := isOpen state;
       selectedFile := selectedFile state;
       parsedTasks := parsedTasks state;
       isParsing := isParsing state;
       fileInput := fileInput state;
       importEffects := (importEffects state ++ [ShowErrorToast "No tasks to import"])%list |}
  else
    let tasks := map taskOfRow (parsedTasks state) in
    match created with
    | Ok (successCount, errorCount) =>
        resetSelection false
          (importEffects state
           ++ [CreateTasks tasks;
               if (0 <? successCount)%nat then
                 ShowSuccessToast
                   ("Successfully imported task" ++ plural successCount "s"
                    ++ (if (0 <? errorCount)%nat
                        then " (" ++ count_text errorCount ++ " failed)"
                        else EmptyString))
               else ShowErrorToast "Failed to import tasks";
               InvalidateTasks])%list
          state
    | Throw message =>
        {| isOpen := isOpen state;
           selectedFile := selectedFile state;
           parsedTasks := parsedTasks state;
           isParsing := isParsing state;
           fileInput := fileInput state;
           importEffects :=
             (importEffects state
              ++ [CreateTasks tasks; HandleError message;
                  ShowErrorToast "An error occurred during import"])%list |}
    end.

Definition handleDialogClose (open : bool) (state : ImportState) : ImportState :=
  if negb open then resetSelection open (importEffects state) state
  else {| isOpen := open;
          selectedFile := selectedFile state;
          parsedTasks := parsedTasks state;
          isParsing := isParsing state;
          fileInput := fileInput state;
          importEffects := importEffects state |}.
End Components.

(** ** Notions for the properties of the importer and of the serializer *)

Definition CR : ascii := ascii_of_nat 13.

(** A text with every line feed preceded by a carriage return. *)
Fixpoint crlf (s : string) : string :=
  match s with
  | EmptyString => EmptyString
  | String c rest =>
      if Ascii.eqb c LF then String CR (String LF (crlf rest))
      else String c (crlf rest)
  end.

(** Lines with a carriage return at the end of each but the last. *)
Fixpoint with_cr (lines : list string) : list string :=
  match lines with
  | [] => []
  | [line] => [line]
  | line :: others => (line ++ String CR EmptyString) :: with_cr others
  end.

Fixpoint count_char (c : ascii) (s : string) : nat :=
  match s with
  | EmptyString => O
  | String d rest => ((if Ascii.eqb d c then 1 else 0) + count_char c rest)%nat
  end.

(** The line feeds in the cells of a row, once rendered. *)
Definition count_in_cells (c : ascii) (cells : list string) : nat :=
  fold_right (fun cell total => (count_char c cell + total)%nat) O cells.

(** What [console.error] prints for a data line that is skipped. *)
Definition skipMessage (line : string) : string :=
  "Failed to process CSV row: "
  ++ (if is_empty (trim line) then "Empty row found in the CSV file"
      else "Required keys not found in the CSV row").

Section Rendering.
Context {runtime : Runtime}.

(** The string [escapeCSVValue] makes of a value before it quotes it. *)
Definition stringValue (value : unknown) : string :=
  match value with
  | Undefined | Value JNull => EmptyString
  | Value (JString s) => s
  | Value (JNumber n) => Number_toString n
  | Value (JBool b) => if b then "true" else "false"
  | Value (JArray items) => JSON_stringify (JArray items)
  | Value (JObject props) => JSON_stringify (JObject props)
  end.
End Rendering.

(** The file the browser saves for a download, read back. *)
Definition savedFile (download : Download) : File :=
  {| fileName := downloadName download;
     fileText := Ok (join EmptyString (blobParts download)) |}.

(** [index] is the first position of [columnNames] whose name is [key] up
    to letter case. *)
Definition first_match (columnNames : list string) (key : string) (index : Z) : Prop :=
  (exists col, array_get columnNames index = Some col
               /\ toLowerCase col = toLowerCase key)
  /\ forall j col,
       (0 <= j < index)%Z -> array_get columnNames j = Some col ->
       toLowerCase col <> toLowerCase key.

(** ** Examples for the components *)

(** A task with a result, and one whose result is blank. *)
Definition finished_task : Task :=
  {| task_name := Some "t1";
     task_content := None;
     task_type := Some "execute_actions";
     task_content_metadata := None;
     task_status := Some "completed";
     task_result := Some (lit "{ 'ok' : true }");
     task_result_metadata := None |}.

Definition pending_task : Task :=
  {| task_name := Some "t2";
     task_content := None;
     task_type := Some "execute_actions";
     task_content_metadata := None;
     task_status := Some "pending";
     task_result := Some "  ";
     task_result_metadata := None |}.

Definition idle_export : ExportState := {| isExporting := false; exportEffects := [] |}.

(** The dialog as it opens: nothing selected, nothing parsed. *)
Definition opened_dialog : ImportState :=
  {| isOpen := true;
     selectedFile := None;
     parsedTasks := [];
     isParsing := false;
     fileInput := Some EmptyString;
     importEffects := [] |}.

(** A file with one task, a file whose only row lacks a name, and a file
    whose header lacks the type column. *)
Definition one_task_file : File :=
  {| fileName := "tasks.csv"; fileText := Ok content_document |}.

Definition no_task_file : File :=
  {| fileName := "empty.csv"; fileText := Ok (document ["name,type"; ",bar"]) |}.

Definition rejected_file : File :=
  {| fileName := "rejected.csv"; fileText := Ok rejected_document |}.

(** A browser with a session and a setting of another kind. *)
Definition signed_in_browser : Browser :=
  {| localStorage := [("theme", "dark"); ("auth_username", "ann"); ("auth_password", "old")];
     route := Some "/tasks";
     handledErrors := [] |}.

(** A task as the import dialog sends it: a name and a type that are not
    empty, a content and a content metadata, nothing else. *)
Definition sendable (task : Task) : Prop :=
  exists name type content metadata,
    task = {| task_name := Some name;
              task_content := Some content;
              task_type := Some type;
              task_content_metadata := Some metadata;
              task_status := None;
              task_result := None;
              task_result_metadata := None |}
    /\ name <> EmptyString /\ type <> EmptyString.

(** No request to create tasks among the effects. *)
Definition sends_nothing (effects : list effect) : Prop :=
  forall requestBody, ~ In (CreateTasks requestBody) effects.

Section Folding.
Context {runtime : Runtime}.

(** What the first loop of [buildContent] stores for a cell: the cell parsed
    as JSON, or the trimmed cell itself. *)
Definition cellValue (cell : string) : json :=
  match JSON_parse (trim cell) with
  | Some parsedValue => parsedValue
  | None => JString (trim cell)
  end.

(** The cells that loop folds into the content, from index [i] on and in
    the order of the columns: those of the columns that are neither kept
    outside the content nor the content column, when they are not empty,
    each under the upper-cased name of its column. *)
Fixpoint foldedCells (i : Z) (values columnNames : list string)
    (keysOutsideContentIndices : list (Z * string)) (contentColumnIndex : Z)
    : list (string * json) :=
  match values, columnNames with
  | cell :: values', columnName :: columnNames' =>
      ((if negb (map_has Z.eqb keysOutsideContentIndices i)
           && negb (i =? contentColumnIndex)%Z
           && negb (String.eqb (trim cell) EmptyString)
        then [(toUpperCase columnName, cellValue cell)]
        else [])
       ++ foldedCells (i + 1)%Z values' columnNames' keysOutsideContentIndices
            contentColumnIndex)%list
  | _, _ => []
  end.
End Folding.

(** The last value given to [key] in a list of entries. *)
Definition last_value (entries : list (string * json)) (key : string) : option json :=
  map_get String.eqb (rev entries) key.

(** * Properties *)

(** ** Strings *)

Lemma append_empty_r (s : string) : s ++ EmptyString = s.
Proof. induction s as [|c s IH]; simpl; [reflexivity | now rewrite IH]. Qed.

Lemma append_assoc (a b c : string) : (a ++ b) ++ c = a ++ (b ++ c).
Proof. induction a as [|x a IH]; simpl; [reflexivity | now rewrite IH]. Qed.

Lemma append_char_assoc (a : string) (c : ascii) (b : string) :
  (a ++ String c EmptyString) ++ b = a ++ String c b.
Proof. now rewrite append_assoc. Qed.

Lemma length_append (a b : string) :
  String.length (a ++ b) = (String.length a + String.length b)%nat.
Proof. induction a as [|x a IH]; simpl; [reflexivity | now rewrite IH]. Qed.

Lemma get_append_length (a : string) (c : ascii) (b : string) :
  String.get (String.length a) (a ++ String c b) = Some c.
Proof. induction a as [|x a IH]; simpl; [reflexivity | exact IH]. Qed.

Lemma is_empty_true (s : string) : is_empty s = true <-> s = EmptyString.
Proof. destruct s; simpl; split; congruence. Qed.

Lemma is_empty_false (s : string) : is_empty s = false <-> s <> EmptyString.
Proof. destruct s; simpl; split; congruence. Qed.

Lemma trimEnd_idempotent (s : string) : trimEnd (trimEnd s) = trimEnd s.
Proof.
  induction s as [|c s IH]; simpl; [reflexivity|].
  destruct (trimEnd s) as [|k ks] eqn:E.
  - destruct (is_whitespace c) eqn:W; simpl; [reflexivity | now rewrite W].
  - simpl in *. now rewrite IH.
Qed.

Lemma trimStart_fixed (c : ascii) (s : string) :
  is_whitespace c = false -> trimStart (String c s) = String c s.
Proof. intros W. simpl. now rewrite W. Qed.

Lemma trimStart_head (s : string) :
  match trimStart s with
  | EmptyString => True
  | String c _ => is_whitespace c = false
  end.
Proof.
  induction s as [|c s IH]; simpl; [exact I|].
  destruct (is_whitespace c) eqn:W; [exact IH | simpl; exact W].
Qed.

Lemma trimEnd_head (c : ascii) (s : string) :
  is_whitespace c = false -> exists t, trimEnd (String c s) = String c t.
Proof.
  intros W. simpl. destruct (trimEnd s); [rewrite W|]; eexists; reflexivity.
Qed.

Lemma trim_idempotent (s : string) : trim (trim s) = trim s.
Proof.
  unfold trim. pose proof (trimStart_head s) as H.
  destruct (trimStart s) as [|c t]; [reflexivity|].
  destruct (trimEnd_head c t H) as [u E]. rewrite E.
  rewrite trimStart_fixed by exact H. rewrite <- E. apply trimEnd_idempotent.
Qed.

Lemma trimEnd_append (a b : string) :
  trimEnd b = b -> b <> EmptyString -> trimEnd (a ++ b) = a ++ b.
Proof.
  intros Hb Hne. induction a as [|c a IH]; simpl; [exact Hb|].
  rewrite IH. destruct (a ++ b) eqn:E; [|reflexivity].
  destruct a; simpl in E; [contradiction | discriminate].
Qed.

(** ** The tokenizer *)

(** The loop at index [length before] of [before ++ rest] does to its state
    what the scan of the specification does on [rest], whenever the fuel
    covers [rest]. *)
Lemma parseCSVLine_loop_scan (fuel : nat) :
  forall (before rest : string) (values : list string) (current : string)
         (inQuotes : bool),
    (String.length rest <= fuel)%nat ->
    (let '(values', current') :=
       parseCSVLine_loop fuel (before ++ rest) (String.length before)
         values current inQuotes in
     values' ++ [trim current'])%list
    = (values ++ fields_from inQuotes current rest)%list.
Proof.
  induction fuel as [|fuel IH]; intros before rest values current inQuotes Hfuel.
  - destruct rest; simpl in Hfuel; [reflexivity | lia].
  - destruct rest as [|c rest].
    + simpl. rewrite append_empty_r, Nat.ltb_irrefl. reflexivity.
    + cbn [parseCSVLine_loop].
      assert (Hlt : (String.length before <? String.length (before ++ String c rest))%nat = true).
      { apply Nat.ltb_lt. rewrite length_append. simpl. lia. }
      rewrite Hlt. unfold charAt. rewrite get_append_length.
      cbn [char_is fields_from append_char].
      assert (Hnext : (String.length before + 1)%nat
                      = String.length (before ++ String c EmptyString)).
      { rewrite length_append. reflexivity. }
      assert (Hsplit : before ++ String c rest = (before ++ String c EmptyString) ++ rest).
      { now rewrite append_char_assoc. }
      simpl in Hfuel.
      destruct (Ascii.eqb c DQUOTE) eqn:Q.
      * destruct rest as [|next rest'].
        -- assert (Hend : (String.length before + 1 <? String.length (before ++ String c EmptyString))%nat = false).
           { apply Nat.ltb_ge. rewrite length_append. simpl. lia. }
           rewrite Hend, andb_false_r. cbn [andb].
           rewrite Hsplit, Hnext. apply IH. simpl. lia.
        -- assert (Hin : (String.length before + 1 <? String.length (before ++ String c (String next rest')))%nat = true).
           { apply Nat.ltb_lt. rewrite length_append. simpl. lia. }
           rewrite Hin, andb_true_r.
           assert (Hget : String.get (String.length before + 1) (before ++ String c (String next rest')) = Some next).
           { rewrite Hsplit, Hnext. apply get_append_length. }
           rewrite Hget. cbn [char_is].
           destruct (inQuotes && Ascii.eqb next DQUOTE) eqn:E.
           ++ replace (before ++ String c (String next rest'))
                with ((before ++ String c (String next EmptyString)) ++ rest')
                by (rewrite append_assoc; reflexivity).
              replace (String.length before + 1 + 1)%nat
                with (String.length (before ++ String c (String next EmptyString)))
                by (rewrite length_append; simpl; lia).
              apply IH. simpl in Hfuel. lia.
           ++ rewrite Hsplit, Hnext. apply IH. simpl in *. lia.
      * destruct (Ascii.eqb c COMMA && negb inQuotes) eqn:E.
        -- rewrite Hsplit, Hnext, IH by lia.
           rewrite <- app_assoc. reflexivity.
        -- rewrite Hsplit, Hnext. apply IH. lia.
Qed.

Lemma parseCSVLine_scan (line : string) : parseCSVLine line = tokenize_spec line.
Proof.
  unfold parseCSVLine, tokenize_spec.
  exact (parseCSVLine_loop_scan (String.length line) EmptyString line [] EmptyString
           false (le_n _)).
Qed.

(** More fuel than the length of the line changes nothing: the loop has
    ended by then. *)
Lemma parseCSVLine_fuel (line : string) (fuel : nat) :
  (String.length line <= fuel)%nat ->
  (let '(values, current) := parseCSVLine_loop fuel line 0 [] EmptyString false in
   values ++ [trim current])%list
  = parseCSVLine line.
Proof.
  intros H. rewrite parseCSVLine_scan.
  exact (parseCSVLine_loop_scan fuel EmptyString line [] EmptyString false H).
Qed.

(** Induction along the scan, which steps over one character or two. *)
Lemma scan_ind (P : string -> Prop) :
  P EmptyString ->
  (forall c rest,
      P rest -> (forall next rest', rest = String next rest' -> P rest') ->
      P (String c rest)) ->
  forall s, P s.
Proof.
  intros Hnil Hstep s.
  enough (H : P s /\ forall next rest', s = String next rest' -> P rest') by apply H.
  induction s as [|c s [IH1 IH2]].
  - split; [exact Hnil | discriminate].
  - split; [apply Hstep; assumption|].
    intros next rest' E. injection E as _ <-. exact IH1.
Qed.

Lemma fields_trimmed (input : string) :
  forall inside buffer,
    Forall (fun field => trim field = field) (fields_from inside buffer input).
Proof.
  induction input as [|c rest IH1 IH2] using scan_ind; intros inside buffer.
  - simpl. constructor; [apply trim_idempotent | constructor].
  - simpl. destruct (Ascii.eqb c DQUOTE).
    + destruct rest as [|next rest']; [apply IH1|].
      destruct (inside && Ascii.eqb next DQUOTE); [|apply IH1].
      exact (IH2 next rest' eq_refl _ _).
    + destruct (Ascii.eqb c COMMA && negb inside); [|apply IH1].
      constructor; [apply trim_idempotent | apply IH1].
Qed.

Lemma parseCSVLine_trimmed (line : string) :
  Forall (fun field => trim field = field) (parseCSVLine line).
Proof. rewrite parseCSVLine_scan. apply fields_trimmed. Qed.

(** Characters that are neither quotes nor separating commas only grow the
    buffer. *)
Lemma fields_plain_tail (v : string) :
  forall inside buffer tail,
    includes v DQUOTE = false ->
    includes v COMMA = false \/ inside = true ->
    fields_from inside buffer (v ++ tail) = fields_from inside (buffer ++ v) tail.
Proof.
  induction v as [|c v IH]; intros inside buffer tail Hq Hc; simpl.
  - now rewrite append_empty_r.
  - simpl in Hq. apply orb_false_iff in Hq as [Hq1 Hq2]. rewrite Hq1.
    assert (E : Ascii.eqb c COMMA && negb inside = false).
    { destruct Hc as [Hc | ->]; [|apply andb_false_r].
      simpl in Hc. apply orb_false_iff in Hc as [-> _]. reflexivity. }
    rewrite E, IH, append_char_assoc; [reflexivity | exact Hq2 |].
    destruct Hc as [Hc | Hc]; [left | now right].
    simpl in Hc. now apply orb_false_iff in Hc as [_ ?].
Qed.

(** Inside a quoted field, the doubled quotes of [double_quotes v] give back
    the quotes of [v], and the quote that follows closes the field. *)
Lemma fields_quoted_tail (v : string) :
  forall buffer tail,
    starts_with_quote tail = false ->
    fields_from true buffer (double_quotes v ++ String DQUOTE tail)
    = fields_from false (buffer ++ v) tail.
Proof.
  induction v as [|c v IH]; intros buffer tail Ht.
  - simpl. rewrite append_empty_r. replace (Ascii.eqb DQUOTE DQUOTE) with true by reflexivity.
    destruct tail as [|next tail']; [reflexivity|].
    simpl in Ht. rewrite Ht. reflexivity.
  - simpl. destruct (Ascii.eqb c DQUOTE) eqn:Q.
    + apply Ascii.eqb_eq in Q. subst c. simpl.
      replace (Ascii.eqb DQUOTE DQUOTE) with true by reflexivity. simpl.
      rewrite IH by exact Ht. now rewrite append_char_assoc.
    + simpl. rewrite Q. simpl. rewrite andb_false_r.
      rewrite IH by exact Ht. now rewrite append_char_assoc.
Qed.

(** A quote met outside quotes opens a quoted field. *)
Lemma fields_open_quote (buffer rest : string) :
  fields_from false buffer (String DQUOTE rest) = fields_from true buffer rest.
Proof. cbn. destruct rest; reflexivity. Qed.

Lemma parseCSVLine_quoted (v : string) :
  parseCSVLine (String DQUOTE (double_quotes v ++ String DQUOTE EmptyString)) = [trim v].
Proof.
  rewrite parseCSVLine_scan. unfold tokenize_spec.
  now rewrite fields_open_quote, fields_quoted_tail.
Qed.

Lemma join_cons (sep a b : string) (l : list string) :
  join sep (a :: b :: l) = a ++ sep ++ join sep (b :: l).
Proof. reflexivity. Qed.

Lemma join_one (sep a : string) : join sep [a] = a.
Proof. reflexivity. Qed.

Section Escaping.
Context {runtime : Runtime}.

Lemma escapeCSVValue_string (v : string) :
  escapeCSVValue (Value (JString v))
  = if special v then String DQUOTE (double_quotes v ++ String DQUOTE EmptyString) else v.
Proof. reflexivity. Qed.

(** An escaped value followed by anything but a quote: the scan reaches what
    follows with the value in its buffer. *)
Lemma fields_escaped (v tail : string) :
  starts_with_quote tail = false ->
  fields_from false EmptyString (escapeCSVValue (Value (JString v)) ++ tail)
  = fields_from false v tail.
Proof.
  intros Ht. rewrite escapeCSVValue_string. destruct (special v) eqn:S.
  - change (String DQUOTE (double_quotes v ++ String DQUOTE EmptyString) ++ tail)
      with (String DQUOTE ((double_quotes v ++ String DQUOTE EmptyString) ++ tail)).
    rewrite append_char_assoc, fields_open_quote.
    now rewrite fields_quoted_tail.
  - unfold special in S. apply orb_false_iff in S as [S _].
    apply orb_false_iff in S as [Sc Sq].
    rewrite fields_plain_tail; [reflexivity | exact Sq | now left].
Qed.

Lemma parseCSVLine_escaped (v : string) :
  parseCSVLine (escapeCSVValue (Value (JString v))) = [trim v].
Proof.
  rewrite parseCSVLine_scan. unfold tokenize_spec.
  rewrite <- (append_empty_r (escapeCSVValue _)).
  now rewrite fields_escaped.
Qed.

(** A line of escaped values tokenizes to the values, trimmed. *)
Lemma parseCSVLine_row (v : string) (vs : list string) :
  parseCSVLine (join "," (map (fun s => escapeCSVValue (Value (JString s))) (v :: vs)))
  = map trim (v :: vs).
Proof.
  rewrite parseCSVLine_scan. unfold tokenize_spec.
  revert v. induction vs as [|w vs IH]; intros v.
  - cbn [map]. rewrite join_one, <- (append_empty_r (escapeCSVValue _)).
    now rewrite fields_escaped.
  - cbn [map] in *. rewrite join_cons.
    change ("," ++ ?x) with (String COMMA x).
    rewrite fields_escaped by reflexivity.
    cbn [fields_from]. replace (Ascii.eqb COMMA DQUOTE) with false by reflexivity.
    replace (Ascii.eqb COMMA COMMA) with true by reflexivity. cbn [andb negb].
    rewrite IH. reflexivity.
Qed.
End Escaping.

(** A comma met outside quotes ends a field: the fields of what precedes it,
    then the fields of what follows. *)
Lemma fields_split_comma (a : string) :
  forall inside buffer b,
    inside_after inside a = false ->
    fields_from inside buffer (a ++ String COMMA b)
    = (fields_from inside buffer a ++ fields_from false EmptyString b)%list.
Proof.
  induction a as [|c rest IH1 IH2] using scan_ind; intros inside buffer b H.
  - simpl in H. subst inside. reflexivity.
  - simpl in H |- *. destruct (Ascii.eqb c DQUOTE) eqn:Q.
    + destruct rest as [|next rest'].
      * simpl. replace (Ascii.eqb COMMA DQUOTE) with false by reflexivity.
        rewrite andb_false_r. destruct inside; [|discriminate]. reflexivity.
      * simpl. destruct (inside && Ascii.eqb next DQUOTE).
        -- exact (IH2 next rest' eq_refl _ _ _ H).
        -- exact (IH1 _ _ _ H).
    + destruct (Ascii.eqb c COMMA && negb inside).
      * simpl. f_equal. exact (IH1 _ _ _ H).
      * exact (IH1 _ _ _ H).
Qed.

Lemma split_nonempty (sep : ascii) (s : string) : split sep s <> [].
Proof.
  destruct s as [|c s]; simpl; [discriminate|].
  destruct (Ascii.eqb c sep); [discriminate|].
  destruct (split sep s); discriminate.
Qed.

(** Without quotes, the fields are the pieces between commas, trimmed. *)
Lemma fields_quote_free (line : string) :
  forall buffer,
    includes line DQUOTE = false ->
    fields_from false buffer line
    = match split COMMA line with
      | first :: others => trim (buffer ++ first) :: map trim others
      | [] => []
      end.
Proof.
  induction line as [|c line IH]; intros buffer H.
  - simpl. now rewrite append_empty_r.
  - simpl in H. apply orb_false_iff in H as [Q H]. simpl. rewrite Q.
    destruct (Ascii.eqb c COMMA) eqn:C; simpl.
    + rewrite append_empty_r. f_equal. rewrite IH by exact H.
      destruct (split COMMA line); reflexivity.
    + rewrite IH by exact H. pose proof (split_nonempty COMMA line) as N.
      destruct (split COMMA line); [contradiction|].
      now rewrite append_char_assoc.
Qed.

(** ** Header resolution *)

Lemma findIndex_from_spec {A : Type} (p : A -> bool) (l : list A) :
  forall i,
    (0 <= i)%Z ->
    (findIndex_from p l i = (-1)%Z /\ Forall (fun x => p x = false) l)
    \/ ((i <= findIndex_from p l i)%Z
        /\ exists x, nth_error l (Z.to_nat (findIndex_from p l i - i)) = Some x
                     /\ p x = true).
Proof.
  induction l as [|x l IH]; intros i Hi; simpl.
  - left. split; [reflexivity | constructor].
  - destruct (p x) eqn:Px.
    + right. split; [lia|]. exists x. rewrite Z.sub_diag. split; [reflexivity | exact Px].
    + destruct (IH (i + 1)%Z ltac:(lia)) as [[E F] | [Hle [y [Hy Py]]]].
      * left. split; [exact E | constructor; assumption].
      * right. split; [lia|]. exists y. split; [|exact Py].
        replace (Z.to_nat (findIndex_from p l (i + 1) - i))
          with (S (Z.to_nat (findIndex_from p l (i + 1) - (i + 1)))) by lia.
        exact Hy.
Qed.

Lemma findIndex_spec {A : Type} (p : A -> bool) (l : list A) :
  (findIndex p l = (-1)%Z /\ Forall (fun x => p x = false) l)
  \/ ((0 <= findIndex p l)%Z
      /\ exists x, array_get l (findIndex p l) = Some x /\ p x = true).
Proof.
  unfold findIndex.
  destruct (findIndex_from_spec p l 0%Z ltac:(lia)) as [H | [Hle [x [Hx Px]]]];
    [left; exact H | right].
  split; [exact Hle|]. exists x. split; [|exact Px].
  unfold array_get. destruct (Z.ltb_spec (findIndex_from p l 0) 0); [lia|].
  now rewrite Z.sub_0_r in Hx.
Qed.

(** Two keys that differ up to case are found at different indices. *)
Lemma findIndex_keys_apart (key1 key2 : string) (columnNames : list string) :
  toLowerCase key1 <> toLowerCase key2 ->
  findIndex (matches_key key1) columnNames <> (-1)%Z ->
  findIndex (matches_key key1) columnNames <> findIndex (matches_key key2) columnNames.
Proof.
  intros Hkeys H1 E.
  destruct (findIndex_spec (matches_key key1) columnNames) as [[H _] | [_ [x [Hx Px]]]];
    [contradiction|].
  destruct (findIndex_spec (matches_key key2) columnNames) as [[H _] | [_ [y [Hy Py]]]];
    [congruence|].
  rewrite E in Hx. rewrite Hx in Hy. injection Hy as <-.
  unfold matches_key in Px, Py. apply String.eqb_eq in Px, Py. congruence.
Qed.

Lemma validateRequiredKeys_spec (columnNames : list string) :
  validateRequiredKeys columnNames
  = let nameIndex := findIndex (matches_key COLUMN_NAME) columnNames in
    let typeIndex := findIndex (matches_key COLUMN_TYPE) columnNames in
    if (nameIndex =? -1)%Z || (typeIndex =? -1)%Z then None
    else Some [(nameIndex, COLUMN_NAME); (typeIndex, COLUMN_TYPE)].
Proof.
  unfold validateRequiredKeys, REQUIRED_KEYS. cbn [validateRequiredKeys_loop map_set].
  cbv zeta.
  destruct (Z.eqb_spec (findIndex (matches_key COLUMN_NAME) columnNames) (-1)) as [|Hn];
    [reflexivity|].
  destruct (Z.eqb_spec (findIndex (matches_key COLUMN_TYPE) columnNames) (-1)) as [|Ht];
    [reflexivity|].
  cbn [orb].
  destruct (Z.eqb_spec (findIndex (matches_key COLUMN_NAME) columnNames)
              (findIndex (matches_key COLUMN_TYPE) columnNames)) as [E|]; [|reflexivity].
  exfalso. revert E. apply findIndex_keys_apart; [discriminate | exact Hn].
Qed.

Lemma findColumnIndices_spec (columnNames : list string) :
  findIndex (matches_key COLUMN_NAME) columnNames <> (-1)%Z ->
  findIndex (matches_key COLUMN_TYPE) columnNames <> (-1)%Z ->
  findColumnIndices columnNames KEYS_OUTSIDE_CONTENT
  = outsideContentIndices (findIndex (matches_key COLUMN_NAME) columnNames)
      (findIndex (matches_key COLUMN_TYPE) columnNames)
      (findIndex (matches_key COLUMN_METADATA) columnNames).
Proof.
  intros Hn Ht.
  unfold findColumnIndices, KEYS_OUTSIDE_CONTENT, outsideContentIndices.
  cbn [findColumnIndices_loop].
  apply Z.eqb_neq in Hn as Hn', Ht as Ht'. rewrite Hn', Ht'. cbn [negb map_set].
  pose proof (findIndex_keys_apart COLUMN_NAME COLUMN_TYPE columnNames
                ltac:(discriminate) Hn) as Hnt.
  apply Z.eqb_neq in Hnt as Hnt'. rewrite Hnt'.
  destruct (Z.eqb_spec (findIndex (matches_key COLUMN_METADATA) columnNames) (-1)) as [|Hm];
    [reflexivity|].
  cbn [negb map_set].
  pose proof (findIndex_keys_apart COLUMN_NAME COLUMN_METADATA columnNames
                ltac:(discriminate) Hn) as Hnm.
  pose proof (findIndex_keys_apart COLUMN_TYPE COLUMN_METADATA columnNames
                ltac:(discriminate) Ht) as Htm.
  apply Z.eqb_neq in Hnm, Htm. rewrite Hnm, Htm. reflexivity.
Qed.

Lemma array_get_absent {A : Type} (values : list A) : array_get values (-1)%Z = None.
Proof. reflexivity. Qed.

(** ** The row materializer *)

Section Rows.
Context {runtime : Runtime}.

(** What [processRow] returns on a schema resolved to the indices of the
    name, type and metadata columns. *)
Lemma processRow_spec (line : string) (columnNames : list string)
    (nameIndex typeIndex metadataIndex contentColumnIndex : Z) :
  let values := parseCSVLine line in
  let indices := outsideContentIndices nameIndex typeIndex metadataIndex in
  processRow line columnNames [(nameIndex, COLUMN_NAME); (typeIndex, COLUMN_TYPE)]
    indices contentColumnIndex
  = if is_empty (trim line) then Throw "Empty row found in the CSV file"
    else if negb (truthy (trimmed_at values nameIndex))
            || negb (truthy (trimmed_at values typeIndex))
    then Throw "Required keys not found in the CSV row"
    else Ok (Some {|
      name := or_else (trimmed_at values nameIndex) EmptyString;
      content :=
        match array_get values metadataIndex with
        | Some _ =>
            if (contentColumnIndex =? -1)%Z
            then buildContent values columnNames indices contentColumnIndex
            else or_else (trimmed_at values contentColumnIndex) EmptyString
        | None => buildContent values columnNames indices contentColumnIndex
        end;
      type := or_else (trimmed_at values typeIndex) EmptyString;
      metadata := Some (or_else (trimmed_at values metadataIndex) EmptyString)
    |}).
Proof.
  intros values indices. unfold processRow. fold values.
  destruct (is_empty (trim line)); [reflexivity|].
  cbn [validateRowHasRequiredKeys].
  destruct (trimmed_at values nameIndex) as [[|n0 n]|] eqn:En; try reflexivity.
  destruct (trimmed_at values typeIndex) as [[|t0 t]|] eqn:Et; try reflexivity.
  cbn [truthy is_empty negb orb]. subst indices.
  unfold outsideContentIndices, extractKeysOutsideContent.
  cbn [extractKeysOutsideContent_loop]. rewrite En, Et.
  destruct (Z.eqb_spec metadataIndex (-1)) as [->|Hm].
  - reflexivity.
  - cbn [extractKeysOutsideContent_loop].
    assert (Em : trimmed_at values metadataIndex
                 = option_map trim (array_get values metadataIndex)) by reflexivity.
    rewrite Em. destruct (array_get values metadataIndex) as [m|]; cbn [option_map].
    + destruct (contentColumnIndex =? -1)%Z; reflexivity.
    + reflexivity.
Qed.
End Rows.

(** ** The batch importer *)

Section Importer.
Context {runtime : Runtime}.

Lemma parseCSV_loop_spec (columnNames : list string)
    (requiredKeysIndices keysOutsideContentIndices : list (Z * string))
    (contentColumnIndex : Z) (dataLines : list string) :
  forall rows console,
    fst (parseCSV_loop dataLines columnNames requiredKeysIndices
           keysOutsideContentIndices contentColumnIndex rows console)
    = (rows ++ flat_map (fun line =>
                           match processRow line columnNames requiredKeysIndices
                                   keysOutsideContentIndices contentColumnIndex with
                           | Ok (Some row) => [row]
                           | _ => []
                           end) dataLines)%list.
Proof.
  induction dataLines as [|line dataLines IH]; intros rows console; simpl.
  - now rewrite app_nil_r.
  - destruct (processRow line columnNames requiredKeysIndices
                keysOutsideContentIndices contentColumnIndex) as [[row|]|message];
      rewrite IH; [now rewrite <- app_assoc | reflexivity | reflexivity].
Qed.

Lemma columnsOf_header (csvText : string) (columnNames : list string) :
  parseHeader (headerLine csvText) = Some columnNames -> columnsOf csvText = columnNames.
Proof. intros H. unfold columnsOf. now rewrite H. Qed.

(** [parseCSV] throws on a document of one line, on a header without names
    and on a header without the required names, and returns the materialized
    rows otherwise. *)
Lemma parseCSV_spec (csvText : string) :
  parseCSV csvText
  = match documentLines csvText with
    | [] | [_] => Throw "No lines found in the CSV file"
    | _ :: _ :: _ =>
        match parseHeader (headerLine csvText) with
        | None => Throw "No column names found in the CSV header"
        | Some columnNames =>
            match validateRequiredKeys columnNames with
            | None => Throw "Required keys not found in the CSV header"
            | Some _ => Ok (materializedRows csvText)
            end
        end
    end.
Proof.
  unfold parseCSV, parseCSV_run, materializedRows, importRow, dataLines, headerLine.
  fold (documentLines csvText).
  destruct (documentLines csvText) as [|header [|line lines]] eqn:E;
    [reflexivity | reflexivity |].
  cbn [List.length Nat.eqb orb nth tl].
  destruct (parseHeader header) as [columnNames|] eqn:H; [|reflexivity].
  assert (C : columnsOf csvText = columnNames).
  { apply columnsOf_header. unfold headerLine. now rewrite E. }
  rewrite C.
  destruct (validateRequiredKeys columnNames) as [required|]; [|reflexivity].
  pose proof (parseCSV_loop_spec columnNames required
                (findColumnIndices columnNames KEYS_OUTSIDE_CONTENT)
                (findContentColumnIndex columnNames) (line :: lines) [] []) as L.
  destruct (parseCSV_loop _ _ _ _ _ _ _) as [rows console]. simpl in L. now rewrite L.
Qed.

Lemma header_resolves_indices (csvText : string) :
  header_resolves csvText ->
  index_of COLUMN_NAME csvText <> (-1)%Z /\ index_of COLUMN_TYPE csvText <> (-1)%Z
  /\ validateRequiredKeys (columnsOf csvText)
     = Some [(index_of COLUMN_NAME csvText, COLUMN_NAME);
             (index_of COLUMN_TYPE csvText, COLUMN_TYPE)].
Proof.
  intros [columnNames [required [H V]]].
  rewrite (columnsOf_header _ _ H). unfold index_of. rewrite (columnsOf_header _ _ H).
  rewrite validateRequiredKeys_spec in V |- *. cbv zeta in V |- *.
  destruct (Z.eqb_spec (findIndex (matches_key COLUMN_NAME) columnNames) (-1));
    [discriminate|].
  destruct (Z.eqb_spec (findIndex (matches_key COLUMN_TYPE) columnNames) (-1));
    [discriminate|].
  repeat split; assumption.
Qed.

Lemma importRow_resolves (csvText line : string) (row : option CSVRow) :
  importRow csvText line = Ok row -> header_resolves csvText.
Proof.
  unfold importRow, header_resolves, columnsOf.
  destruct (parseHeader (headerLine csvText)) as [columnNames|].
  - destruct (validateRequiredKeys columnNames) as [required|] eqn:V; [|discriminate].
    intros _. now exists columnNames, required.
  - discriminate.
Qed.

(** A line of a document whose header resolves is skipped with an error or
    gives its record. *)
Lemma importRow_spec (csvText line : string) :
  header_resolves csvText ->
  importRow csvText line
  = if is_empty (trim line) then Throw "Empty row found in the CSV file"
    else if row_skipped csvText line then Throw "Required keys not found in the CSV row"
    else Ok (Some (rowRecord csvText line)).
Proof.
  intros R. destruct (header_resolves_indices _ R) as [Hn [Ht V]].
  unfold importRow, rowRecord, plaintextContent, passthroughContent, row_skipped.
  rewrite V, findColumnIndices_spec by assumption.
  change (findContentColumnIndex (columnsOf csvText))
    with (index_of COLUMN_CONTENT csvText).
  change (findIndex (matches_key COLUMN_NAME) (columnsOf csvText))
    with (index_of COLUMN_NAME csvText).
  change (findIndex (matches_key COLUMN_TYPE) (columnsOf csvText))
    with (index_of COLUMN_TYPE csvText).
  change (findIndex (matches_key COLUMN_METADATA) (columnsOf csvText))
    with (index_of COLUMN_METADATA csvText).
  rewrite processRow_spec. cbv zeta.
  destruct (is_empty (trim line)); [reflexivity|]. cbn [orb].
  destruct (negb (truthy _) || negb (truthy _)); [reflexivity|].
  do 3 f_equal.
  destruct (array_get (parseCSVLine line) (index_of COLUMN_METADATA csvText));
    [|reflexivity].
  destruct (index_of COLUMN_CONTENT csvText =? -1)%Z; [reflexivity|].
  unfold trimmed_at. destruct (array_get (parseCSVLine line) _) as [cell|]; [|reflexivity].
  cbn [option_map]. unfold or_else, truthy. destruct (trim cell); reflexivity.
Qed.

Lemma row_skipped_blank (csvText line : string) :
  is_empty (trim line) = true -> row_skipped csvText line = true.
Proof. intros H. unfold row_skipped. now rewrite H. Qed.

Lemma materializedRows_spec (csvText : string) :
  header_resolves csvText ->
  materializedRows csvText
  = map (rowRecord csvText)
        (filter (fun line => negb (row_skipped csvText line)) (dataLines csvText)).
Proof.
  intros R. unfold materializedRows.
  induction (dataLines csvText) as [|line lines IH]; [reflexivity|].
  cbn [flat_map filter]. rewrite IH, (importRow_spec _ _ R).
  destruct (is_empty (trim line)) eqn:B.
  - now rewrite row_skipped_blank.
  - destruct (row_skipped csvText line); reflexivity.
Qed.

Lemma truthy_or_else (value : option string) :
  truthy value = true -> or_else value EmptyString <> EmptyString.
Proof.
  unfold or_else. intros H. rewrite H. destruct value as [[|c s]|]; discriminate.
Qed.

Lemma rowRecord_required (csvText line : string) :
  row_skipped csvText line = false ->
  name (rowRecord csvText line) <> EmptyString
  /\ type (rowRecord csvText line) <> EmptyString.
Proof.
  unfold row_skipped. intros H.
  apply orb_false_iff in H as [H Ht]. apply orb_false_iff in H as [_ Hn].
  apply negb_false_iff in Hn, Ht. split; apply truthy_or_else; assumption.
Qed.
End Importer.

Section ImporterClaims.
Context {runtime : Runtime}.

Lemma parseCSV_ok (csvText : string) (rows : list CSVRow) :
  parseCSV csvText = Ok rows ->
  header_resolves csvText /\ dataLines csvText <> []
  /\ rows = map (rowRecord csvText)
              (filter (fun line => negb (row_skipped csvText line)) (dataLines csvText)).
Proof.
  rewrite parseCSV_spec.
  destruct (documentLines csvText) as [|header [|line lines]] eqn:D; try discriminate.
  destruct (parseHeader (headerLine csvText)) as [columnNames|] eqn:H; [|discriminate].
  destruct (validateRequiredKeys columnNames) as [required|] eqn:V; [|discriminate].
  intros E. injection E as <-.
  assert (R : header_resolves csvText) by (now exists columnNames, required).
  split; [exact R|]. split; [unfold dataLines; rewrite D; discriminate|].
  now apply materializedRows_spec.
Qed.

Lemma parseCSV_resolved (csvText : string) :
  header_resolves csvText -> dataLines csvText <> [] ->
  parseCSV csvText
  = Ok (map (rowRecord csvText)
          (filter (fun line => negb (row_skipped csvText line)) (dataLines csvText))).
Proof.
  intros R D. rewrite parseCSV_spec. unfold dataLines in D.
  destruct (documentLines csvText) as [|header [|line lines]] eqn:E;
    [contradiction | contradiction |].
  destruct R as [columnNames [required [H V]]]. rewrite H, V.
  rewrite materializedRows_spec; [reflexivity | now exists columnNames, required].
Qed.

Lemma metadataExtracted_spec (csvText line : string) :
  header_resolves csvText ->
  metadataExtracted csvText line
  = match array_get (parseCSVLine line) (index_of COLUMN_METADATA csvText) with
    | Some _ => true
    | None => false
    end.
Proof.
  intros R. destruct (header_resolves_indices _ R) as [Hn [Ht _]].
  unfold metadataExtracted. rewrite findColumnIndices_spec by assumption.
  change (findIndex (matches_key COLUMN_METADATA) (columnsOf csvText))
    with (index_of COLUMN_METADATA csvText).
  unfold outsideContentIndices, extractKeysOutsideContent.
  cbn [extractKeysOutsideContent_loop].
  destruct (trimmed_at (parseCSVLine line) (findIndex (matches_key COLUMN_NAME) _));
    destruct (trimmed_at (parseCSVLine line) (findIndex (matches_key COLUMN_TYPE) _));
    (destruct (Z.eqb_spec (index_of COLUMN_METADATA csvText) (-1)) as [->|Hm];
     [reflexivity|]);
    cbn [extractKeysOutsideContent_loop]; unfold trimmed_at;
    destruct (array_get (parseCSVLine line) (index_of COLUMN_METADATA csvText));
    reflexivity.
Qed.

Lemma passthroughSelected_spec (csvText line : string) :
  header_resolves csvText ->
  passthroughSelected csvText line
  = match array_get (parseCSVLine line) (index_of COLUMN_METADATA csvText) with
    | Some _ => negb (index_of COLUMN_CONTENT csvText =? -1)%Z
    | None => false
    end.
Proof.
  intros R. unfold passthroughSelected. rewrite (metadataExtracted_spec _ _ R).
  change (findContentColumnIndex (columnsOf csvText))
    with (index_of COLUMN_CONTENT csvText).
  destruct (array_get _ _); reflexivity.
Qed.

(** The content of a materialized row is the one of the mode its line
    selects. *)
Lemma importRow_content (csvText line : string) (row : CSVRow) :
  importRow csvText line = Ok (Some row) ->
  content row = if passthroughSelected csvText line
                then passthroughContent csvText line
                else plaintextContent csvText line.
Proof.
  intros H. pose proof (importRow_resolves _ _ _ H) as R.
  rewrite passthroughSelected_spec by exact R.
  rewrite (importRow_spec _ _ R) in H.
  destruct (is_empty (trim line)); [discriminate|].
  destruct (row_skipped csvText line); [discriminate|].
  injection H as <-. unfold rowRecord. cbn [content].
  destruct (array_get (parseCSVLine line) (index_of COLUMN_METADATA csvText));
    [|reflexivity].
  destruct (index_of COLUMN_CONTENT csvText =? -1)%Z; reflexivity.
Qed.

(** C2: in a document whose header has a metadata column and a content
    column, every record [parseCSV] returns for a line from which a metadata
    value was extracted has for content the trimmed content cell of that
    line (nothing when the line ends before it), whatever [JSON.parse] and
    [JSON.stringify] do.  The records are paired with the lines they come
    from, the data lines that are not skipped. *)
Theorem passthrough_content_verbatim (csvText : string) (rows : list CSVRow) :
  parseCSV csvText = Ok rows ->
  index_of COLUMN_METADATA csvText <> (-1)%Z ->
  index_of COLUMN_CONTENT csvText <> (-1)%Z ->
  Forall2
    (fun line row =>
       importRow csvText line = Ok (Some row)
       /\ (metadataExtracted csvText line = true ->
           content row
           = match array_get (parseCSVLine line) (index_of COLUMN_CONTENT csvText) with
             | Some contentCell => trim contentCell
             | None => EmptyString
             end))
    (filter (fun line => negb (row_skipped csvText line)) (dataLines csvText))
    rows.
Proof.
  intros H Hm Hc. destruct (parseCSV_ok _ _ H) as [R [_ ->]]. clear H.
  induction (dataLines csvText) as [|line lines IH]; [constructor|].
  cbn [filter]. destruct (row_skipped csvText line) eqn:S; [exact IH|].
  cbn [negb map]. constructor; [|exact IH].
  assert (I : importRow csvText line = Ok (Some (rowRecord csvText line))).
  { rewrite (importRow_spec _ _ R), S.
    destruct (is_empty (trim line)) eqn:B; [|reflexivity].
    now rewrite row_skipped_blank in S. }
  split; [exact I|]. intros M.
  rewrite (importRow_content _ _ _ I). unfold passthroughSelected. rewrite M.
  change (findContentColumnIndex (columnsOf csvText))
    with (index_of COLUMN_CONTENT csvText).
  apply Z.eqb_neq in Hc. rewrite Hc. reflexivity.
Qed.

Lemma array_get_In {A : Type} (values : list A) (index : Z) (x : A) :
  array_get values index = Some x -> In x values.
Proof.
  unfold array_get. destruct (index <? 0)%Z; [discriminate|]. apply nth_error_In.
Qed.

Lemma parseHeader_columns (line : string) (columnNames : list string) :
  parseHeader line = Some columnNames ->
  columnNames
  = filter (fun col => negb (String.eqb col EmptyString)) (parseCSVLine line).
Proof.
  unfold parseHeader.
  rewrite (map_ext_Forall trim (fun field => field) (parseCSVLine_trimmed line)).
  rewrite map_id.
  destruct (List.length _ =? 0)%nat; [discriminate|]. now intros [= <-].
Qed.

Lemma header_lacks_index (csvText key : string) :
  header_lacks csvText key -> index_of key csvText = (-1)%Z.
Proof.
  intros L. unfold index_of.
  destruct (findIndex_spec (matches_key key) (columnsOf csvText))
    as [[E _] | [_ [col [Hcol M]]]]; [exact E | exfalso].
  apply array_get_In in Hcol. unfold columnsOf in Hcol.
  destruct (parseHeader (headerLine csvText)) as [columnNames|] eqn:H; [|contradiction].
  rewrite (parseHeader_columns _ _ H) in Hcol. apply filter_In in Hcol as [Hcol _].
  unfold matches_key in M. apply String.eqb_eq in M. exact (L col Hcol M).
Qed.

(** C3: a document whose header has no entry equal, up to case, to the name
    of the identity column, or none equal to the name of the type column, is
    rejected: [parseCSV] throws and returns no record. *)
Theorem parseCSV_rejects_missing_required_column (csvText : string) :
  header_lacks csvText COLUMN_NAME \/ header_lacks csvText COLUMN_TYPE ->
  (exists message, parseCSV csvText = Throw message)
  /\ forall rows, parseCSV csvText <> Ok rows.
Proof.
  intros L.
  assert (T : exists message, parseCSV csvText = Throw message).
  { rewrite parseCSV_spec.
    destruct (documentLines csvText) as [|header [|line lines]]; try (eexists; reflexivity).
    destruct (parseHeader (headerLine csvText)) as [columnNames|] eqn:H;
      [|eexists; reflexivity].
    rewrite validateRequiredKeys_spec. cbv zeta.
    pose proof (columnsOf_header _ _ H) as C.
    replace (findIndex (matches_key COLUMN_NAME) columnNames)
      with (index_of COLUMN_NAME csvText) by (unfold index_of; now rewrite C).
    replace (findIndex (matches_key COLUMN_TYPE) columnNames)
      with (index_of COLUMN_TYPE csvText) by (unfold index_of; now rewrite C).
    destruct L as [L | L]; rewrite (header_lacks_index _ _ L).
    - eexists; reflexivity.
    - rewrite orb_true_r. eexists; reflexivity. }
  split; [exact T|]. destruct T as [message ->]. discriminate.
Qed.

(** C4, as the code has it: the data lines of a document are the lines
    after the first of its trimmed text, so that blank lines ending the
    text are trimmed away with it and are no rows.  On a document whose
    header resolves, [parseCSV] throws for no row: left without data lines
    it refuses the document as having no lines, and otherwise it returns
    the records of the data lines that are neither blank nor without a
    value at a required index, in the order of the lines; each of these
    lines gives its record, each other line an error that is caught. *)
Theorem parseCSV_skips_failing_rows (csvText : string) :
  header_resolves csvText ->
  ((dataLines csvText = []
    /\ parseCSV csvText = Throw "No lines found in the CSV file")
   \/ (dataLines csvText <> []
       /\ parseCSV csvText
          = Ok (map (rowRecord csvText)
                  (filter (fun line => negb (row_skipped csvText line))
                          (dataLines csvText)))))
  /\ (forall line,
        row_skipped csvText line = false ->
        importRow csvText line = Ok (Some (rowRecord csvText line)))
  /\ (forall line,
        row_skipped csvText line = true ->
        exists message, importRow csvText line = Throw message).
Proof.
  intros R. split.
  - destruct (dataLines csvText) as [|line lines] eqn:D.
    + left. split; [reflexivity|]. rewrite parseCSV_spec. unfold dataLines in D.
      pose proof (split_nonempty LF (trim csvText)) as N. unfold documentLines in *.
      destruct (split LF (trim csvText)) as [|header [|l ls]];
        [contradiction | reflexivity | discriminate].
    + right. split; [discriminate|]. rewrite <- D. apply parseCSV_resolved; [exact R|].
      rewrite D. discriminate.
  - split; intros line S; rewrite (importRow_spec _ _ R), S.
    + destruct (is_empty (trim line)) eqn:B; [|reflexivity].
      now rewrite row_skipped_blank in S.
    + destruct (is_empty (trim line)); eexists; reflexivity.
Qed.

(** C8: every record [parseCSV] returns has a name and a type that are not
    empty. *)
Theorem parseCSV_records_have_name_and_type (csvText : string) (rows : list CSVRow) :
  parseCSV csvText = Ok rows ->
  Forall (fun row => name row <> EmptyString /\ type row <> EmptyString) rows.
Proof.
  intros H. destruct (parseCSV_ok _ _ H) as [_ [_ ->]].
  apply Forall_map, Forall_forall. intros line Hline.
  apply filter_In in Hline as [_ S]. apply negb_true_iff in S.
  now apply rowRecord_required.
Qed.

(** C9: with a metadata column and a content column in the header, a
    materialized row whose line has a cell at the metadata index, be it
    empty, has a metadata value extracted and is in passthrough mode: its
    content is the trimmed content cell, and its metadata is the empty string
    when that cell is empty.  Plaintext mode is selected exactly when the
    line has no cell at the metadata index. *)
Theorem empty_metadata_cell_selects_passthrough (csvText line : string) (row : CSVRow) :
  importRow csvText line = Ok (Some row) ->
  index_of COLUMN_METADATA csvText <> (-1)%Z ->
  index_of COLUMN_CONTENT csvText <> (-1)%Z ->
  (forall cell,
      array_get (parseCSVLine line) (index_of COLUMN_METADATA csvText) = Some cell ->
      metadataExtracted csvText line = true
      /\ passthroughSelected csvText line = true
      /\ content row = passthroughContent csvText line
      /\ (trim cell = EmptyString -> metadata row = Some EmptyString))
  /\ (passthroughSelected csvText line = false
      <-> array_get (parseCSVLine line) (index_of COLUMN_METADATA csvText) = None)
  /\ content row = (if passthroughSelected csvText line
                    then passthroughContent csvText line
                    else plaintextContent csvText line).
Proof.
  intros H Hm Hc. pose proof (importRow_resolves _ _ _ H) as R.
  pose proof (importRow_content _ _ _ H) as C.
  pose proof (passthroughSelected_spec _ line R) as P.
  pose proof (metadataExtracted_spec _ line R) as M.
  apply Z.eqb_neq in Hc. rewrite Hc in P. cbn [negb] in P.
  split; [|split; [|exact C]].
  - intros cell Hcell. rewrite Hcell in P, M. rewrite P in C.
    split; [exact M|]. split; [exact P|]. split; [exact C|]. intros E.
    rewrite (importRow_spec _ _ R) in H.
    destruct (is_empty (trim line)); [discriminate|].
    destruct (row_skipped csvText line); [discriminate|].
    injection H as <-. unfold rowRecord. cbn [metadata].
    unfold trimmed_at. rewrite Hcell. cbn [option_map]. now rewrite E.
  - rewrite P. destruct (array_get _ _); split; congruence.
Qed.
End ImporterClaims.

(** ** The tokenizer and the escaping of values *)

(** C5: [parseCSVLine] is the scan the specification describes: the fields
    are split at the commas met outside quotes and trimmed; a quote toggles
    the state, and inside a quoted field two quotes in a row give one quote
    (so a quoted field built with [double_quotes] comes back as it was); two
    commas in a row outside quotes give an empty field.  The loop has ended
    once its index has reached the length of the line: more iterations
    change nothing. *)
Theorem parseCSVLine_tokenizes (line : string) :
  parseCSVLine line = tokenize_spec line
  /\ Forall (fun field => trim field = field) (parseCSVLine line)
  /\ (includes line DQUOTE = false -> parseCSVLine line = map trim (split COMMA line))
  /\ (forall rest,
        inside_after false line = false ->
        parseCSVLine (line ++ String COMMA rest)
        = (parseCSVLine line ++ parseCSVLine rest)%list)
  /\ (forall rest,
        inside_after false line = false ->
        parseCSVLine (line ++ String COMMA (String COMMA rest))
        = (parseCSVLine line ++ EmptyString :: parseCSVLine rest)%list)
  /\ parseCSVLine (String DQUOTE (double_quotes line ++ String DQUOTE EmptyString))
     = [trim line]
  /\ (forall fuel,
        (String.length line <= fuel)%nat ->
        (let '(values, current) :=
           parseCSVLine_loop fuel line 0 [] EmptyString false in
         values ++ [trim current])%list
        = parseCSVLine line).
Proof.
  split; [apply parseCSVLine_scan|].
  split; [apply parseCSVLine_trimmed|].
  split; [|split; [|split; [|split]]].
  - intros Q. rewrite parseCSVLine_scan. unfold tokenize_spec.
    rewrite fields_quote_free by exact Q.
    pose proof (split_nonempty COMMA line) as N.
    destruct (split COMMA line); [contradiction | reflexivity].
  - intros rest I. rewrite !parseCSVLine_scan. unfold tokenize_spec.
    now apply fields_split_comma.
  - intros rest I. rewrite !parseCSVLine_scan. unfold tokenize_spec.
    rewrite fields_split_comma by exact I. reflexivity.
  - apply parseCSVLine_quoted.
  - intros fuel. apply parseCSVLine_fuel.
Qed.

Lemma parseCSVLine_tokenizes_witness :
  includes "a, b,,c" DQUOTE = false
  /\ inside_after false (lit "'x,y'") = false
  /\ parseCSVLine "a, b,,c" = ["a"; "b"; EmptyString; "c"]
  /\ parseCSVLine (lit "'x,y'" ++ String COMMA (String COMMA "z"))
     = ["x,y"; EmptyString; "z"].
Proof.
  split; [reflexivity|]. split; [reflexivity|].
  split.
  - rewrite (proj1 (proj2 (proj2 (parseCSVLine_tokenizes "a, b,,c"))) eq_refl).
    reflexivity.
  - rewrite (proj1 (proj2 (proj2 (proj2 (proj2 (parseCSVLine_tokenizes (lit "'x,y'"))))))
               "z" eq_refl).
    reflexivity.
Defined.

Section EscapeClaims.
Context {runtime : Runtime}.

Lemma representable_trimmed (value : string) : representable value <-> trim value = value.
Proof.
  split.
  - intros [line H]. pose proof (parseCSVLine_trimmed line) as T.
    rewrite Forall_forall in T. now apply T.
  - intros T. exists (escapeCSVValue (Value (JString value))).
    rewrite parseCSVLine_escaped, T. now left.
Qed.

(** C6: escaping then tokenizing gives back every value the tokenizer can
    represent, alone on its line or among other escaped values. *)
Theorem escape_then_tokenize_identity (value : string) :
  representable value ->
  parseCSVLine (escapeCSVValue (Value (JString value))) = [value]
  /\ forall before after,
       parseCSVLine
         (join "," (map (fun s => escapeCSVValue (Value (JString s)))
                        (before ++ value :: after)%list))
       = (map trim before ++ value :: map trim after)%list.
Proof.
  intros R. apply representable_trimmed in R. split.
  - now rewrite parseCSVLine_escaped, R.
  - intros before after.
    destruct (before ++ value :: after)%list as [|v vs] eqn:E.
    + destruct before; discriminate.
    + rewrite parseCSVLine_row, <- E, map_app. cbn [map]. now rewrite R.
Qed.
End EscapeClaims.

Lemma escape_then_tokenize_identity_witness :
  representable said_hi
  /\ parseCSVLine (escapeCSVValue (runtime := decimal_runtime) (Value (JString said_hi)))
     = [said_hi].
Proof.
  assert (R : representable said_hi).
  { exists (escapeCSVValue (runtime := decimal_runtime) (Value (JString said_hi))).
    vm_compute. now left. }
  split; [exact R|].
  exact (proj1 (escape_then_tokenize_identity (runtime := decimal_runtime) said_hi R)).
Defined.

(** ** Lines and rows of plain cells *)

Lemma includes_append (a b : string) (c : ascii) :
  includes (a ++ b) c = includes a c || includes b c.
Proof. induction a as [|x a IH]; simpl; [reflexivity | now rewrite IH, orb_assoc]. Qed.

Lemma includes_join (sep : string) (parts : list string) (c : ascii) :
  includes sep c = false ->
  Forall (fun part => includes part c = false) parts ->
  includes (join sep parts) c = false.
Proof.
  intros Hsep H. induction H as [|part parts Hp _ IH]; [reflexivity|].
  destruct parts as [|next parts]; [exact Hp|].
  rewrite join_cons, !includes_append, Hp, Hsep, IH. reflexivity.
Qed.

Lemma split_free (sep : ascii) (s : string) :
  includes s sep = false -> split sep s = [s].
Proof.
  induction s as [|c s IH]; intros H; [reflexivity|].
  simpl in H |- *. apply orb_false_iff in H as [Hc Hs]. rewrite Hc, IH by exact Hs.
  reflexivity.
Qed.

Lemma split_append (sep : ascii) (a b : string) :
  includes a sep = false -> split sep (a ++ String sep b) = a :: split sep b.
Proof.
  induction a as [|c a IH]; intros H; simpl.
  - now rewrite Ascii.eqb_refl.
  - simpl in H. apply orb_false_iff in H as [Hc Ha]. rewrite Hc, IH by exact Ha.
    reflexivity.
Qed.

Lemma split_join (sep : ascii) (parts : list string) :
  parts <> [] ->
  Forall (fun part => includes part sep = false) parts ->
  split sep (join (String sep EmptyString) parts) = parts.
Proof.
  intros N H. induction H as [|part parts Hp _ IH]; [contradiction|].
  destruct parts as [|next parts]; [now apply split_free|].
  rewrite join_cons. change (String sep EmptyString ++ ?x) with (String sep x).
  rewrite split_append by exact Hp. f_equal. apply IH. discriminate.
Qed.

Lemma join_last (sep : string) (parts : list string) (last : string) :
  parts <> [] -> join sep (parts ++ [last]) = join sep parts ++ sep ++ last.
Proof.
  intros N. induction parts as [|part parts IH]; [contradiction|].
  destruct parts as [|next parts]; [reflexivity|].
  change ((part :: next :: parts) ++ [last])%list
    with (part :: next :: (parts ++ [last]))%list.
  rewrite !join_cons, append_assoc, append_assoc. do 2 f_equal.
  apply IH. discriminate.
Qed.

Lemma trimEnd_length (s : string) : (String.length (trimEnd s) <= String.length s)%nat.
Proof.
  induction s as [|c s IH]; simpl; [lia|].
  destruct (trimEnd s); [destruct (is_whitespace c)|]; simpl in *; lia.
Qed.

Lemma trimStart_length (s : string) : (String.length (trimStart s) <= String.length s)%nat.
Proof.
  induction s as [|c s IH]; simpl; [lia|]. destruct (is_whitespace c); simpl; lia.
Qed.

(** A trimmed string is empty or starts with a character that is not white
    space, and its end needs no trimming. *)
Lemma trimmed_start (s : string) :
  trim s = s ->
  match s with EmptyString => True | String c _ => is_whitespace c = false end.
Proof.
  intros T. destruct s as [|c s]; [exact I|].
  destruct (is_whitespace c) eqn:W; [exfalso | reflexivity].
  unfold trim in T. simpl in T. rewrite W in T.
  pose proof (trimEnd_length (trimStart s)). pose proof (trimStart_length s).
  rewrite T in H. simpl in H. lia.
Qed.

Lemma trimmed_end (s : string) : trim s = s -> trimEnd s = s.
Proof.
  intros T. pose proof (trimmed_start s T) as H. unfold trim in T.
  destruct s as [|c s]; [reflexivity|]. now rewrite trimStart_fixed in T.
Qed.

Lemma trim_fixed (s : string) :
  match s with EmptyString => True | String c _ => is_whitespace c = false end ->
  trimEnd s = s -> trim s = s.
Proof.
  intros H E. unfold trim. destruct s as [|c s]; [reflexivity|].
  now rewrite trimStart_fixed.
Qed.

(** A line of two trimmed cells or more needs no trimming and is not
    empty. *)
Lemma trim_join_row (cell next : string) (cells : list string) :
  Forall (fun c => trim c = c) (cell :: next :: cells) ->
  trim (join "," (cell :: next :: cells)) = join "," (cell :: next :: cells)
  /\ join "," (cell :: next :: cells) <> EmptyString.
Proof.
  intros H.
  assert (Tail : forall row c, Forall (fun c => trim c = c) (c :: row) ->
                   trimEnd ("," ++ join "," (c :: row)) = "," ++ join "," (c :: row)).
  { induction row as [|d row IH]; intros c Hc.
    - rewrite join_one. apply Forall_inv in Hc. apply trimmed_end in Hc.
      cbn [append trimEnd]. rewrite Hc. destruct c; reflexivity.
    - rewrite join_cons.
      replace ("," ++ c ++ "," ++ join "," (d :: row))
        with (("," ++ c) ++ ("," ++ join "," (d :: row)))
        by (now rewrite append_assoc).
      apply trimEnd_append; [|discriminate].
      apply IH. now apply Forall_inv_tail in Hc. }
  rewrite join_cons. split.
  - apply trim_fixed.
    + apply Forall_inv in H. apply trimmed_start in H. destruct cell; [reflexivity | exact H].
    + apply trimEnd_append; [|discriminate]. apply Tail. now apply Forall_inv_tail in H.
  - destruct cell; discriminate.
Qed.

(** A row of plain cells tokenizes to itself. *)
Lemma fields_plain_row (cell : string) (cells : list string) :
  Forall plain_cell (cell :: cells) ->
  forall buffer,
    fields_from false buffer (join "," (cell :: cells))
    = trim (buffer ++ cell) :: cells.
Proof.
  revert cell. induction cells as [|next cells IH]; intros cell H buffer.
  - rewrite join_one, <- (append_empty_r cell) at 1.
    apply Forall_inv in H. destruct H as [Hc [Hq _]].
    rewrite fields_plain_tail; [reflexivity | exact Hq | now left].
  - rewrite join_cons. change ("," ++ ?x) with (String COMMA x).
    pose proof (Forall_inv H) as [Hc [Hq _]].
    rewrite fields_plain_tail; [| exact Hq | now left].
    cbn [fields_from]. replace (Ascii.eqb COMMA DQUOTE) with false by reflexivity.
    replace (Ascii.eqb COMMA COMMA) with true by reflexivity. cbn [andb negb].
    apply Forall_inv_tail in H. rewrite IH by exact H. cbn [append].
    apply Forall_inv in H. destruct H as [_ [_ [_ T]]]. now rewrite T.
Qed.

Lemma parseCSVLine_plain_row (cell : string) (cells : list string) :
  Forall plain_cell (cell :: cells) ->
  parseCSVLine (join "," (cell :: cells)) = cell :: cells.
Proof.
  intros H. rewrite parseCSVLine_scan. unfold tokenize_spec.
  rewrite fields_plain_row by exact H. cbn [append].
  apply Forall_inv in H. destruct H as [_ [_ [_ T]]]. now rewrite T.
Qed.

Lemma plain_cell_column (c : column) : plain_cell (column_header c).
Proof. destruct c; repeat split. Qed.

Lemma plain_not_special (cell : string) : plain_cell cell -> special cell = false.
Proof. intros [Hc [Hq [Hl _]]]. unfold special. now rewrite Hc, Hq, Hl. Qed.

(** ** Export of what was imported *)

Lemma matches_key_column (c d : column) :
  matches_key (column_header c) (column_header d) = column_eqb c d.
Proof. destruct c, d; reflexivity. Qed.

Lemma column_eqb_eq (c d : column) : column_eqb c d = true <-> c = d.
Proof. destruct c, d; simpl; split; congruence. Qed.

Lemma findIndex_from_headers (c : column) (cols : list column) :
  forall i,
    findIndex_from (matches_key (column_header c)) (map column_header cols) i
    = findIndex_from (column_eqb c) cols i.
Proof.
  induction cols as [|d cols IH]; intros i; simpl; [reflexivity|].
  rewrite matches_key_column, IH. reflexivity.
Qed.

Lemma findIndex_from_position (c : column) (cols : list column) :
  NoDup cols ->
  forall i k,
    nth_error cols i = Some c ->
    findIndex_from (column_eqb c) cols k = (k + Z.of_nat i)%Z.
Proof.
  intros N. induction N as [|d cols Hd N IH]; intros i k H.
  - destruct i; discriminate.
  - simpl. destruct i as [|i]; simpl in H.
    + injection H as ->. replace (column_eqb c c) with true
        by (symmetry; now apply column_eqb_eq).
      lia.
    + destruct (column_eqb c d) eqn:E.
      * apply column_eqb_eq in E. subst d. apply nth_error_In in H. contradiction.
      * rewrite (IH i (k + 1)%Z H). lia.
Qed.

Lemma array_get_nat {A : Type} (values : list A) (i : nat) :
  array_get values (Z.of_nat i) = nth_error values i.
Proof.
  unfold array_get. destruct (Z.ltb_spec (Z.of_nat i) 0); [lia|].
  now rewrite Nat2Z.id.
Qed.

Lemma Forall2_nth {A B : Type} (R : A -> B -> Prop) (l1 : list A) (l2 : list B) :
  Forall2 R l1 l2 ->
  forall i a, nth_error l1 i = Some a -> exists b, nth_error l2 i = Some b /\ R a b.
Proof.
  induction 1 as [|x y l1 l2 Hxy _ IH]; intros i a H.
  - destruct i; discriminate.
  - destruct i as [|i]; simpl in H |- *.
    + injection H as <-. now exists y.
    + now apply IH.
Qed.

Lemma map_pointwise {A B : Type} (f : A -> B) (l1 : list A) :
  forall l2,
    List.length l1 = List.length l2 ->
    (forall i a b, nth_error l1 i = Some a -> nth_error l2 i = Some b -> f a = b) ->
    map f l1 = l2.
Proof.
  induction l1 as [|a l1 IH]; intros [|b l2] L H; try discriminate; [reflexivity|].
  simpl. f_equal.
  - exact (H 0%nat a b eq_refl eq_refl).
  - apply IH; [simpl in L; lia|]. intros i. exact (H (S i)).
Qed.

Lemma or_else_some (s : string) : or_else (Some s) EmptyString = s.
Proof. destruct s; reflexivity. Qed.

Section RoundTrip.
Context {runtime : Runtime}.
Variable cols : list column.
Hypothesis layout : valid_layout cols.
Variable cells : list (list string).
Hypothesis cells_fit : Forall (row_fits cols) cells.
Hypothesis some_row : cells <> [].

Local Abbreviation header := (map column_header cols).
Local Abbreviation text := (tableText (map column_header cols) cells).

Lemma layout_two_columns : exists c d rest, cols = c :: d :: rest.
Proof.
  destruct layout as [_ [Hn [Ht _]]].
  destruct cols as [|c [|d rest]]; [contradiction | | now exists c, d, rest].
  destruct Hn as [->|[]]. destruct Ht as [E|[]]. discriminate.
Qed.

Lemma fitting_row_shape (row : list string) :
  row_fits cols row ->
  List.length row = List.length cols
  /\ exists cell next more, row = cell :: next :: more.
Proof.
  intros [_ F]. pose proof (Forall2_length F) as L. split; [now symmetry|].
  destruct layout_two_columns as [c [d [rest E]]]. rewrite E in L.
  destruct row as [|cell [|next more]]; try discriminate. now exists cell, next, more.
Qed.

Lemma header_line_plain : Forall plain_cell header.
Proof. apply Forall_map, Forall_forall. intros c _. apply plain_cell_column. Qed.

Lemma line_without_feed (row : list string) :
  Forall plain_cell row -> includes (join "," row) LF = false.
Proof.
  intros P. apply includes_join; [reflexivity|].
  eapply Forall_impl; [|exact P]. now intros cell [_ [_ [H _]]].
Qed.

Lemma text_lines : documentLines text = join "," header :: map (join ",") cells.
Proof.
  unfold documentLines.
  assert (T : trim text = text).
  { destruct (exists_last some_row) as [front [last E]].
    destruct layout_two_columns as [c [d [rest Ecols]]].
    assert (Hlast : row_fits cols last).
    { rewrite Forall_forall in cells_fit. apply cells_fit. rewrite E.
      apply in_or_app. right. now left. }
    destruct (fitting_row_shape last Hlast) as [_ [cell [next [more Erow]]]].
    destruct Hlast as [Plast _]. rewrite Erow in Plast.
    assert (Tlast : Forall (fun c => trim c = c) (cell :: next :: more)).
    { eapply Forall_impl; [|exact Plast]. now intros x [_ [_ [_ H]]]. }
    destruct (trim_join_row cell next more Tlast) as [Tl Nl].
    apply trim_fixed.
    - unfold tableText. rewrite E, Ecols.
      destruct front as [|f front]; cbn [map app]; rewrite !join_cons;
        destruct c; exact eq_refl.
    - unfold tableText. rewrite E, map_app. cbn [map].
      change (join "," header :: (map (join ",") front ++ [join "," last])%list)
        with ((join "," header :: map (join ",") front) ++ [join "," last])%list.
      rewrite join_last by discriminate. rewrite <- append_assoc.
      apply trimEnd_append; rewrite Erow; [now apply trimmed_end | exact Nl]. }
  rewrite T. unfold tableText. apply split_join; [discriminate|].
  constructor.
  - apply line_without_feed, header_line_plain.
  - apply Forall_map. eapply Forall_impl; [|exact cells_fit].
    intros row [P _]. now apply line_without_feed.
Qed.

Lemma text_header : parseHeader (headerLine text) = Some header.
Proof.
  unfold headerLine. rewrite text_lines. cbn [nth]. unfold parseHeader.
  destruct layout_two_columns as [c [d [rest E]]].
  assert (H : header = column_header c :: map column_header (d :: rest))
    by (now rewrite E).
  pose proof header_line_plain as P. rewrite H in P |- *.
  rewrite parseCSVLine_plain_row by exact P.
  rewrite (map_ext_Forall trim (fun cell => cell)), map_id
    by (eapply Forall_impl; [|exact P]; now intros x [_ [_ [_ T]]]).
  assert (F : filter (fun col => negb (String.eqb col EmptyString))
                (column_header c :: map column_header (d :: rest))
              = column_header c :: map column_header (d :: rest)).
  { rewrite <- map_cons. generalize (c :: d :: rest). intros l.
    induction l as [|x l IH]; [reflexivity|].
    cbn [map filter]. rewrite IH. destruct x; reflexivity. }
  rewrite F. reflexivity.
Qed.

Lemma text_columns : columnsOf text = header.
Proof. apply columnsOf_header, text_header. Qed.

Lemma text_index (c : column) (i : nat) :
  nth_error cols i = Some c -> index_of (column_header c) text = Z.of_nat i.
Proof.
  intros H. unfold index_of. rewrite text_columns. unfold findIndex.
  rewrite findIndex_from_headers.
  rewrite (findIndex_from_position c cols (proj1 layout) i 0%Z H). lia.
Qed.

Lemma text_resolves : header_resolves text.
Proof.
  exists header. rewrite validateRequiredKeys_spec. cbv zeta.
  destruct layout as [_ [Hn [Ht _]]].
  apply In_nth_error in Hn as [i Hi], Ht as [j Hj].
  pose proof (text_index _ _ Hi) as Ei. pose proof (text_index _ _ Hj) as Ej.
  unfold index_of in Ei, Ej. rewrite text_columns in Ei, Ej.
  change (column_header ColName) with COLUMN_NAME in Ei.
  change (column_header ColType) with COLUMN_TYPE in Ej.
  rewrite Ei, Ej.
  destruct (Z.eqb_spec (Z.of_nat i) (-1)); [lia|].
  destruct (Z.eqb_spec (Z.of_nat j) (-1)); [lia|].
  eexists. split; [exact text_header | reflexivity].
Qed.

Section Row.
Variable row : list string.
Hypothesis fits : row_fits cols row.

Local Abbreviation line := (join "," row).

Lemma line_fields : parseCSVLine line = row.
Proof.
  destruct (fitting_row_shape row fits) as [_ [cell [next [more E]]]].
  rewrite E. apply parseCSVLine_plain_row. rewrite <- E. apply fits.
Qed.

(** The cell under a column is what the engine reads at the index of that
    column. *)
Lemma cell_at (c : column) (i : nat) (cell : string) :
  nth_error cols i = Some c -> nth_error row i = Some cell ->
  array_get (parseCSVLine line) (index_of (column_header c) text) = Some cell
  /\ trimmed_at (parseCSVLine line) (index_of (column_header c) text) = Some cell.
Proof.
  intros Hc Hr. unfold trimmed_at.
  rewrite line_fields, (text_index _ _ Hc), array_get_nat, Hr.
  split; [reflexivity|]. cbn [option_map]. f_equal.
  destruct fits as [P _]. rewrite Forall_forall in P.
  now apply (P cell (nth_error_In _ _ Hr)).
Qed.

Lemma cell_of_column (c : column) :
  In c cols ->
  exists i cell,
    nth_error cols i = Some c /\ nth_error row i = Some cell
    /\ (required_column c = true -> cell <> EmptyString).
Proof.
  intros H. apply In_nth_error in H as [i Hi].
  destruct (Forall2_nth _ _ _ (proj2 fits) i c Hi) as [cell [Hcell R]].
  now exists i, cell.
Qed.

Lemma line_not_skipped : row_skipped text line = false.
Proof.
  unfold row_skipped.
  destruct (fitting_row_shape row fits) as [_ [cell [next [more E]]]].
  assert (T : Forall (fun c => trim c = c) (cell :: next :: more)).
  { rewrite <- E. eapply Forall_impl; [|exact (proj1 fits)]. now intros x [_ [_ [_ H]]]. }
  destruct (trim_join_row cell next more T) as [Tl Nl].
  rewrite E at 1. rewrite Tl. apply is_empty_false in Nl. rewrite Nl. cbn [orb].
  destruct layout as [_ [Hn [Ht _]]].
  destruct (cell_of_column ColName Hn) as [i [c [Hi [Hc Rc]]]].
  destruct (cell_of_column ColType Ht) as [j [d [Hj [Hd Rd]]]].
  destruct (cell_at _ _ _ Hi Hc) as [_ En]. destruct (cell_at _ _ _ Hj Hd) as [_ Et].
  change (column_header ColName) with COLUMN_NAME in En.
  change (column_header ColType) with COLUMN_TYPE in Et.
  rewrite En, Et. cbn [truthy].
  specialize (Rc eq_refl). specialize (Rd eq_refl).
  apply is_empty_false in Rc, Rd. now rewrite Rc, Rd.
Qed.

(** The record of the line, serialized under the same columns, is the
    line. *)
Lemma line_exported :
  map (fun c => escapeCSVValue (column_value (rowRecord text line) c)) cols = row.
Proof.
  apply map_pointwise; [symmetry; apply (fitting_row_shape row fits)|].
  intros i c cell Hc Hr.
  destruct (cell_at _ _ _ Hc Hr) as [Ea Et].
  assert (P : plain_cell cell).
  { destruct fits as [P _]. rewrite Forall_forall in P.
    exact (P cell (nth_error_In _ _ Hr)). }
  assert (E : column_value (rowRecord text line) c = Value (JString cell)).
  { destruct c; unfold column_value, rowRecord;
      cbn [name content type metadata].
    - change COLUMN_NAME with (column_header ColName). now rewrite Et, or_else_some.
    - destruct layout as [_ [_ [_ Hm]]].
      destruct (cell_of_column ColMetadata (Hm (nth_error_In _ _ Hc)))
        as [j [m [Hj [Hmr _]]]].
      destruct (cell_at _ _ _ Hj Hmr) as [Em _].
      change (column_header ColMetadata) with COLUMN_METADATA in Em. rewrite Em.
      pose proof (text_index _ _ Hc) as Ei.
      change (column_header ColContent) with COLUMN_CONTENT in Ei, Ea.
      rewrite Ei. destruct (Z.eqb_spec (Z.of_nat i) (-1)); [lia|].
      unfold passthroughContent. rewrite Ea. now destruct P as [_ [_ [_ ->]]].
    - change COLUMN_TYPE with (column_header ColType). now rewrite Et, or_else_some.
    - change COLUMN_METADATA with (column_header ColMetadata).
      now rewrite Et, or_else_some. }
  rewrite E, escapeCSVValue_string, plain_not_special by exact P. reflexivity.
Qed.
End Row.

Lemma text_rows :
  parseCSV text = Ok (map (rowRecord text) (map (join ",") cells)).
Proof.
  rewrite parseCSV_resolved.
  - f_equal. f_equal. unfold dataLines. rewrite text_lines. cbn [tl].
    assert (K : forall rows,
               Forall (row_fits cols) rows ->
               filter (fun line => negb (row_skipped text line)) (map (join ",") rows)
               = map (join ",") rows).
    { induction 1 as [|row rows Hrow _ IH]; [reflexivity|].
      cbn [map filter]. rewrite (line_not_skipped row Hrow). cbn [negb]. now rewrite IH. }
    exact (K cells cells_fit).
  - exact text_resolves.
  - unfold dataLines. rewrite text_lines. cbn [tl].
    destruct cells; [contradiction | discriminate].
Qed.

Lemma text_exported :
  exportRecords cols (map (rowRecord text) (map (join ",") cells)) = text.
Proof.
  unfold exportRecords, generateCSV, tableText. f_equal. f_equal.
  - f_equal. rewrite map_map.
    rewrite (map_ext_Forall _ (fun cell => cell)), map_id; [reflexivity|].
    eapply Forall_impl; [|exact header_line_plain].
    intros cell P. now rewrite escapeCSVValue_string, plain_not_special.
  - rewrite !map_map.
    assert (K : forall rows,
               Forall (row_fits cols) rows ->
               map (fun row =>
                      join "," (map escapeCSVValue
                                  (map (column_value (rowRecord text (join "," row))) cols)))
                   rows
               = map (join ",") rows).
    { induction 1 as [|row rows Hrow _ IH]; [reflexivity|].
      cbn [map]. rewrite IH. f_equal. f_equal. rewrite map_map.
      exact (line_exported row Hrow). }
    exact (K cells cells_fit).
Qed.
End RoundTrip.

(** ** Objects and the merge of the content column *)

Lemma map_get_set {V : Type} (m : list (string * V)) (k : string) (v : V) (k' : string) :
  map_get String.eqb (map_set String.eqb m k v) k'
  = if String.eqb k k' then Some v else map_get String.eqb m k'.
Proof.
  induction m as [|[k0 v0] m IH]; simpl; [reflexivity|].
  destruct (String.eqb_spec k0 k) as [->|N]; simpl.
  - destruct (String.eqb k k'); reflexivity.
  - rewrite IH. destruct (String.eqb_spec k0 k') as [->|N'].
    + destruct (String.eqb_spec k k'); [congruence | reflexivity].
    + reflexivity.
Qed.

Lemma map_set_keys {V : Type} (m : list (string * V)) (k : string) (v : V) (k' : string) :
  In k' (map fst (map_set String.eqb m k v)) -> k' = k \/ In k' (map fst m).
Proof.
  induction m as [|[k0 v0] m IH]; simpl.
  - intros [<-|[]]. now left.
  - destruct (String.eqb_spec k0 k) as [->|N]; simpl.
    + intros [<-|H]; [now left | right; now right].
    + intros [<-|H]; [right; now left|]. destruct (IH H); [now left | right; now right].
Qed.

Lemma fold_assign_other (ps : list (string * json)) (key : string) :
  ~ In key (map fst ps) ->
  forall target,
    map_get String.eqb (fold_left assign_property ps target) key
    = map_get String.eqb target key.
Proof.
  induction ps as [|[k v] ps IH]; intros N target; [reflexivity|].
  simpl in N |- *. rewrite IH by tauto. unfold assign_property. cbn [fst snd].
  destruct (String.eqb k "__proto__"); [reflexivity|].
  unfold object_set. rewrite map_get_set.
  destruct (String.eqb_spec k key); [tauto | reflexivity].
Qed.

Lemma fold_assign_in (ps : list (string * json)) (key : string) (value : json) :
  NoDup (map fst ps) -> In (key, value) ps -> key <> "__proto__" ->
  forall target,
    map_get String.eqb (fold_left assign_property ps target) key = Some value.
Proof.
  induction ps as [|[k v] ps IH]; intros D I P target; [contradiction|].
  simpl in D. apply NoDup_cons_iff in D as [Dk D]. simpl.
  destruct I as [E|I].
  - injection E as -> ->. rewrite fold_assign_other by exact Dk.
    unfold assign_property. cbn [fst snd].
    destruct (String.eqb_spec key "__proto__"); [contradiction|].
    unfold object_set. now rewrite map_get_set, String.eqb_refl.
  - now apply IH.
Qed.

Lemma fold_assign_proto (ps : list (string * json)) :
  forall target,
    map_get String.eqb (fold_left assign_property ps target) "__proto__"
    = map_get String.eqb target "__proto__".
Proof.
  induction ps as [|[k v] ps IH]; intros target; [reflexivity|].
  simpl. rewrite IH. unfold assign_property. cbn [fst snd].
  destruct (String.eqb_spec k "__proto__") as [|N]; [reflexivity|].
  unfold object_set. rewrite map_get_set.
  destruct (String.eqb_spec k "__proto__"); [contradiction | reflexivity].
Qed.

Lemma insert_index_permutation {V : Type} (n : N) (p : string * V)
    (sorted : list (N * (string * V))) :
  Permutation (map snd (insert_index n p sorted)) (p :: map snd sorted).
Proof.
  induction sorted as [|[m q] sorted IH]; simpl; [reflexivity|].
  destruct (n <? m)%N; simpl; [reflexivity|].
  rewrite IH. apply perm_swap.
Qed.

Lemma own_properties_permutation {V : Type} (obj : list (string * V)) :
  Permutation (own_properties obj) obj.
Proof.
  unfold own_properties, named_properties.
  induction obj as [|[k v] obj IH]; simpl; [reflexivity|].
  destruct (array_index k); simpl.
  - rewrite insert_index_permutation. simpl. now constructor.
  - rewrite <- Permutation_middle. now constructor.
Qed.

Section Merge.
Context {runtime : Runtime}.

(** The content column's object wins: each of its properties but
    [__proto__] is in the merged object under its key as written. *)
Lemma Object_assign_wins (target source : list (string * json))
    (key : string) (value : json) :
  NoDup (map fst source) -> In (key, value) source -> key <> "__proto__" ->
  map_get String.eqb (Object_assign target source) key = Some value.
Proof.
  intros D I P. unfold Object_assign.
  pose proof (own_properties_permutation source) as Perm.
  apply fold_assign_in; [| | exact P].
  - eapply Permutation_NoDup; [|exact D]. apply Permutation_map, Permutation_sym, Perm.
  - eapply Permutation_in; [apply Permutation_sym, Perm | exact I].
Qed.

Lemma Object_assign_keeps (target source : list (string * json)) (key : string) :
  ~ In key (map fst source) ->
  map_get String.eqb (Object_assign target source) key = map_get String.eqb target key.
Proof.
  intros N. unfold Object_assign. apply fold_assign_other. intros I. apply N.
  eapply Permutation_in; [|exact I].
  apply Permutation_map, own_properties_permutation.
Qed.

Lemma Object_assign_proto (target source : list (string * json)) :
  map_get String.eqb (Object_assign target source) "__proto__"
  = map_get String.eqb target "__proto__".
Proof. apply fold_assign_proto. Qed.

(** The keys the first loop of [buildContent] creates are uppercased column
    names. *)
Lemma buildContent_columns_keys (values columnNames : list string)
    (keysOutsideContentIndices : list (Z * string)) (contentColumnIndex : Z) :
  forall i contentObject key,
    In key (map fst (buildContent_columns i values columnNames
                       keysOutsideContentIndices contentColumnIndex contentObject)) ->
    In key (map fst contentObject)
    \/ exists columnName, In columnName columnNames /\ key = toUpperCase columnName.
Proof.
  revert columnNames.
  induction values as [|cell values IH]; intros [|columnName columnNames] i obj key H;
    try (now left).
  cbn [buildContent_columns] in H. apply IH in H as [H | [c [Hc E]]].
  - destruct (negb (map_has Z.eqb keysOutsideContentIndices i)
              && negb (i =? contentColumnIndex)%Z); [|now left].
    destruct (negb (String.eqb (trim cell) EmptyString)); [|now left].
    assert (K : forall v, In key (map fst (object_set obj (toUpperCase columnName) v)) ->
                  In key (map fst obj)
                  \/ exists c, In c (columnName :: columnNames) /\ key = toUpperCase c).
    { intros v Hv. apply map_set_keys in Hv as [-> | Hv]; [right | now left].
      exists columnName. split; [now left | reflexivity]. }
    destruct (JSON_parse (trim cell)); exact (K _ H).
  - right. exists c. split; [now right | exact E].
Qed.

Lemma buildContent_merge_object (values : list string) (contentColumnIndex : Z)
    (contentObject : list (string * json)) (cell : string)
    (parsedContent : list (string * json)) :
  contentColumnIndex <> (-1)%Z ->
  trimmed_at values contentColumnIndex = Some cell ->
  cell <> EmptyString ->
  JSON_parse cell = Some (JObject parsedContent) ->
  buildContent_merge values contentColumnIndex contentObject
  = Object_assign contentObject parsedContent.
Proof.
  intros Hc Hv Hn Hp. unfold buildContent_merge.
  apply Z.eqb_neq in Hc. rewrite Hc, Hv. cbn [negb].
  apply is_empty_false in Hn. rewrite Hn, Hp. reflexivity.
Qed.
End Merge.

(** ** The merge of the content column and the shifted header *)

(** C10: [parseHeader] drops the empty names of the header while the cells
    of a row keep their places, so that an empty header field before a named
    column shifts what is read: under the header a,,name,type the name
    column has index 1, and the row v,w,n,t gives the record named w (and of
    type n), whatever the runtime. *)
Theorem empty_header_field_shifts_cells {runtime : Runtime} :
  (forall line columnNames,
      parseHeader line = Some columnNames ->
      columnNames
      = filter (fun col => negb (String.eqb col EmptyString)) (parseCSVLine line))
  /\ parseHeader "a,,name,type" = Some ["a"; "name"; "type"]
  /\ parseCSVLine "v,w,n,t" = ["v"; "w"; "n"; "t"]
  /\ index_of COLUMN_NAME shifted_document = 1%Z
  /\ index_of COLUMN_TYPE shifted_document = 2%Z
  /\ exists row,
       parseCSV shifted_document = Ok [row] /\ name row = "w" /\ type row = "n".
Proof.
  split; [exact parseHeader_columns|].
  repeat (split; [reflexivity|]).
  eexists. split; [vm_compute; reflexivity|]. split; reflexivity.
Qed.

Lemma empty_header_field_shifts_cells_witness :
  parseHeader "a,,name,type" = Some ["a"; "name"; "type"]
  /\ ["a"; "name"; "type"]
     = filter (fun col => negb (String.eqb col EmptyString)) (parseCSVLine "a,,name,type").
Proof.
  split; [reflexivity|].
  exact (proj1 (empty_header_field_shifts_cells (runtime := decimal_runtime))
           "a,,name,type" ["a"; "name"; "type"] eq_refl).
Defined.

(** C1, as the code has it: the keys that come from columns are uppercased
    column names, and the properties of the object in the content column are
    merged under their keys as written, over what the columns gave (but for
    the key [__proto__], which creates no property).  With the
    content cell holding the key a (value 1) and a column b (value 2), the
    content is the object with B, 2 and a, 1; the content column wins where a
    key of its object equals an uppercased column name; and the row of the
    Grid Bot example has for content the object with the key symbol, in
    lower case. *)
Theorem content_column_keys_kept_as_written :
  (forall (runtime : Runtime) values columnNames keysOutsideContentIndices
          contentColumnIndex key,
      In key (map fst (buildContent_columns 0%Z values columnNames
                         keysOutsideContentIndices contentColumnIndex [])) ->
      exists columnName, In columnName columnNames /\ key = toUpperCase columnName)
  /\ (forall (runtime : Runtime) values contentColumnIndex contentObject cell
             parsedContent,
        contentColumnIndex <> (-1)%Z ->
        trimmed_at values contentColumnIndex = Some cell ->
        cell <> EmptyString ->
        JSON_parse cell = Some (JObject parsedContent) ->
        NoDup (map fst parsedContent) ->
        (forall key value,
            In (key, value) parsedContent -> key <> "__proto__" ->
            map_get String.eqb
              (buildContent_merge values contentColumnIndex contentObject) key
            = Some value)
        /\ (forall key,
              ~ In key (map fst parsedContent) ->
              map_get String.eqb
                (buildContent_merge values contentColumnIndex contentObject) key
              = map_get String.eqb contentObject key)
        /\ map_get String.eqb
             (buildContent_merge values contentColumnIndex contentObject) "__proto__"
           = map_get String.eqb contentObject "__proto__")
  /\ parseCSV (runtime := decimal_runtime) merge_document
     = Ok [{| name := "n"; content := lit "{'B':2,'a':1}"; type := "t";
              metadata := Some EmptyString |}]
  /\ parseCSV (runtime := decimal_runtime) collision_document
     = Ok [{| name := "n"; content := lit "{'A':1}"; type := "t";
              metadata := Some EmptyString |}]
  /\ parseCSV (runtime := decimal_runtime) grid_document
     = Ok [{| name := "Grid Bot"; content := lit "{'symbol':'BTC/USDT'}";
              type := "execute_actions"; metadata := Some EmptyString |}].
Proof.
  split; [|split].
  - intros runtime values columnNames indices contentColumnIndex key H.
    apply buildContent_columns_keys in H as [[] | H]. exact H.
  - intros runtime values contentColumnIndex contentObject cell parsedContent
           Hc Hv Hn Hp D.
    rewrite (buildContent_merge_object _ _ _ _ _ Hc Hv Hn Hp). split; [|split].
    + intros key value I P. now apply Object_assign_wins.
    + intros key N. now apply Object_assign_keeps.
    + apply Object_assign_proto.
  - repeat split; vm_compute; reflexivity.
Qed.

Lemma content_column_keys_kept_as_written_witness :
  trimmed_at ["n"; "t"; lit "{'a':1}"; "2"] 2%Z = Some (lit "{'a':1}")
  /\ JSON_parse (Runtime := decimal_runtime) (lit "{'a':1}")
     = Some (JObject [("a", JNumber {| mantissa := 1; exponent := 0 |})])
  /\ map_get String.eqb
       (buildContent_merge (runtime := decimal_runtime)
          ["n"; "t"; lit "{'a':1}"; "2"] 2%Z
          [("B", JNumber {| mantissa := 2; exponent := 0 |})])
       "a"
     = Some (JNumber {| mantissa := 1; exponent := 0 |}).
Proof.
  split; [reflexivity|]. split; [reflexivity|].
  refine (proj1 (proj1 (proj2 content_column_keys_kept_as_written)
                   decimal_runtime ["n"; "t"; lit "{'a':1}"; "2"] 2%Z
                   [("B", JNumber {| mantissa := 2; exponent := 0 |})]
                   (lit "{'a':1}")
                   [("a", JNumber {| mantissa := 1; exponent := 0 |})]
                   _ eq_refl _ eq_refl _)
            "a" (JNumber {| mantissa := 1; exponent := 0 |}) _ _).
  - discriminate.
  - discriminate.
  - repeat constructor. intros [].
  - now left.
  - discriminate.
Defined.

(** C1 fails as stated: the content of the Grid Bot row has the key symbol
    and not SYMBOL, and the content of the row with the key a and the column
    b, parsed, has no key A. *)
Lemma uppercased_content_keys_counterexample :
  (exists row,
      parseCSV (runtime := decimal_runtime) grid_document = Ok [row]
      /\ content row = lit "{'symbol':'BTC/USDT'}"
      /\ content row <> lit "{'SYMBOL':'BTC/USDT'}")
  /\ (exists row props,
        parseCSV (runtime := decimal_runtime) merge_document = Ok [row]
        /\ json_parse (content row) = Some (JObject props)
        /\ map_get String.eqb props "A" = None
        /\ map_get String.eqb props "a" = Some (JNumber {| mantissa := 1; exponent := 0 |})
        /\ map_get String.eqb props "B" = Some (JNumber {| mantissa := 2; exponent := 0 |})).
Proof.
  split.
  - eexists. split; [vm_compute; reflexivity|]. split; [reflexivity | discriminate].
  - do 2 eexists. split; [vm_compute; reflexivity|].
    split; [vm_compute; reflexivity|]. repeat split.
Qed.

(** C7, as the code has it: a document whose header lists the record's
    columns (each once at most, name and type among them, content only next
    to metadata) and whose rows hold one plain cell per column, with a name
    and a type, is reproduced verbatim by serializing, under the same
    columns, the records imported from it.  There is one record per row. *)
Theorem export_of_import_reproduces_document {runtime : Runtime}
    (cols : list column) (cells : list (list string)) :
  valid_layout cols ->
  cells <> [] ->
  Forall (row_fits cols) cells ->
  exists rows,
    parseCSV (tableText (map column_header cols) cells) = Ok rows
    /\ List.length rows = List.length cells
    /\ exportRecords cols rows = tableText (map column_header cols) cells.
Proof.
  intros layout some_row cells_fit.
  exists (map (rowRecord (tableText (map column_header cols) cells))
              (map (join ",") cells)).
  split; [now apply text_rows|]. split; [now rewrite !length_map|].
  now apply text_exported.
Qed.

Lemma export_of_import_reproduces_document_witness :
  valid_layout [ColType; ColContent; ColMetadata; ColName]
  /\ Forall (row_fits [ColType; ColContent; ColMetadata; ColName])
            [["bar"; "abc"; EmptyString; "foo"]; ["t"; EmptyString; "m"; "n"]]
  /\ exists rows,
       parseCSV (runtime := decimal_runtime)
         (tableText (map column_header [ColType; ColContent; ColMetadata; ColName])
            [["bar"; "abc"; EmptyString; "foo"]; ["t"; EmptyString; "m"; "n"]])
       = Ok rows
       /\ exportRecords (runtime := decimal_runtime)
            [ColType; ColContent; ColMetadata; ColName] rows
          = document ["type,content,metadata,name"; "bar,abc,,foo"; "t,,m,n"].
Proof.
  assert (L : valid_layout [ColType; ColContent; ColMetadata; ColName]).
  { split; [|simpl; tauto].
    repeat constructor; simpl; intuition discriminate. }
  assert (F : Forall (row_fits [ColType; ColContent; ColMetadata; ColName])
                [["bar"; "abc"; EmptyString; "foo"]; ["t"; EmptyString; "m"; "n"]]).
  { repeat constructor; discriminate. }
  split; [exact L|]. split; [exact F|].
  destruct (export_of_import_reproduces_document (runtime := decimal_runtime)
              [ColType; ColContent; ColMetadata; ColName]
              [["bar"; "abc"; EmptyString; "foo"]; ["t"; EmptyString; "m"; "n"]]
              L ltac:(discriminate) F) as [rows [P [_ E]]].
  exists rows. split; [exact P | exact E].
Defined.

(** C7 fails as stated: the document of plain cells with the header
    name,type,content and the row foo,bar,abc is imported as one record,
    whose content is an object holding abc under the key CONTENT; whatever
    columns of the record are serialized, in whatever order, no line of the
    result holds the cell abc, so the result is not the document, even up to
    the order of the columns. *)
Lemma export_of_import_counterexample :
  content_document = tableText ["name"; "type"; "content"] [["foo"; "bar"; "abc"]]
  /\ Forall (Forall plain_cell) [["name"; "type"; "content"]; ["foo"; "bar"; "abc"]]
  /\ exists row,
       parseCSV (runtime := decimal_runtime) content_document = Ok [row]
       /\ content row = lit "{'CONTENT':'abc'}"
       /\ forall cols,
            ~ same_cells_per_line
                (exportRecords (runtime := decimal_runtime) cols [row])
                content_document.
Proof.
  split; [reflexivity|]. split; [repeat constructor|].
  eexists. split; [vm_compute; reflexivity|]. split; [reflexivity|].
  intros cols S. unfold same_cells_per_line, exportRecords, generateCSV in S.
  cbn [map] in S.
  set (row := {| name := "foo"; content := _; type := "bar"; metadata := _ |}) in S.
  set (values := fun c : column =>
                   match c with
                   | ColName => name row
                   | ColContent => content row
                   | ColType => type row
                   | ColMetadata => EmptyString
                   end).
  assert (V : map escapeCSVValue (map (column_value row) cols)
              = map (fun s => escapeCSVValue (Value (JString s))) (map values cols)).
  { rewrite !map_map. apply map_ext. now intros []. }
  rewrite V in S.
  rewrite join_cons in S. change (String LF EmptyString ++ ?x) with (String LF x) in S.
  rewrite split_append in S.
  2:{ apply includes_join; [reflexivity|]. rewrite !map_map.
      apply Forall_map, Forall_forall. now intros [] _. }
  rewrite join_one, split_free in S.
  2:{ apply includes_join; [reflexivity|]. rewrite map_map.
      apply Forall_map, Forall_forall. now intros [] _. }
  replace (split LF content_document) with ["name,type,content"; "foo,bar,abc"] in S
    by reflexivity.
  apply Forall2_cons_iff in S as [_ S]. apply Forall2_cons_iff in S as [P _].
  assert (I : In "abc" (parseCSVLine "foo,bar,abc")) by (vm_compute; tauto).
  apply (Permutation_in _ (Permutation_sym P)) in I.
  destruct cols as [|c cols].
  - vm_compute in I. destruct I as [I|[]]. discriminate.
  - change (map values (c :: cols)) with (values c :: map values cols) in I.
    rewrite parseCSVLine_row in I.
    apply in_map_iff in I as [cell [T I]].
    change (values c :: map values cols) with (map values (c :: cols)) in I.
    apply in_map_iff in I as [d [<- _]].
    destruct d; vm_compute in T; discriminate.
Qed.

(** ** The importer at concrete documents *)

Lemma passthrough_content_verbatim_witness :
  parseCSV (runtime := decimal_runtime) passthrough_document
  = Ok [{| name := "n1"; content := "{raw"; type := "t1"; metadata := Some "m1" |};
        {| name := "n2"; content := "c2"; type := "t2"; metadata := Some EmptyString |};
        {| name := "n3"; content := lit "{'CONTENT':7}"; type := "t3";
           metadata := Some EmptyString |}]
  /\ index_of COLUMN_METADATA passthrough_document = 3%Z
  /\ index_of COLUMN_CONTENT passthrough_document = 2%Z
  /\ Forall2
       (fun line row =>
          importRow (runtime := decimal_runtime) passthrough_document line = Ok (Some row)
          /\ (metadataExtracted passthrough_document line = true ->
               content row
               = match array_get (parseCSVLine line)
                         (index_of COLUMN_CONTENT passthrough_document) with
                 | Some contentCell => trim contentCell
                 | None => EmptyString
                 end))
       ["n1,t1, {raw ,m1"; "n2,t2,c2,"; "n3,t3,7"]
       [{| name := "n1"; content := "{raw"; type := "t1"; metadata := Some "m1" |};
        {| name := "n2"; content := "c2"; type := "t2"; metadata := Some EmptyString |};
        {| name := "n3"; content := lit "{'CONTENT':7}"; type := "t3";
           metadata := Some EmptyString |}].
Proof.
  split; [vm_compute; reflexivity|]. split; [reflexivity|]. split; [reflexivity|].
  exact (passthrough_content_verbatim (runtime := decimal_runtime) passthrough_document _
           eq_refl ltac:(discriminate) ltac:(discriminate)).
Defined.

Lemma parseCSV_rejects_missing_required_column_witness :
  header_lacks rejected_document COLUMN_NAME
  /\ parseCSV (runtime := decimal_runtime) rejected_document
     = Throw "Required keys not found in the CSV header"
  /\ (exists message, parseCSV (runtime := decimal_runtime) rejected_document = Throw message).
Proof.
  assert (L : header_lacks rejected_document COLUMN_NAME).
  { intros col [<-|[<-|[]]]; discriminate. }
  split; [exact L|]. split; [reflexivity|].
  exact (proj1 (parseCSV_rejects_missing_required_column (runtime := decimal_runtime)
                  rejected_document (or_introl L))).
Defined.

Lemma parseCSV_skips_failing_rows_witness :
  header_resolves skipping_document
  /\ map (row_skipped skipping_document) (dataLines skipping_document)
     = [false; true; true; false]
  /\ parseCSV (runtime := decimal_runtime) skipping_document
     = Ok [{| name := "a"; content := lit "{'X':1}"; type := "b";
              metadata := Some EmptyString |};
           {| name := "c"; content := lit "{'X':3}"; type := "d";
              metadata := Some EmptyString |}]
  /\ importRow (runtime := decimal_runtime) skipping_document "c,d,3"
     = Ok (Some (rowRecord (runtime := decimal_runtime) skipping_document "c,d,3")).
Proof.
  assert (R : header_resolves skipping_document).
  { do 2 eexists. split; vm_compute; reflexivity. }
  split; [exact R|]. split; [reflexivity|]. split; [vm_compute; reflexivity|].
  exact (proj1 (proj2 (parseCSV_skips_failing_rows (runtime := decimal_runtime)
                         skipping_document R)) "c,d,3" eq_refl).
Defined.

(** C4 fails as stated: the document with the header name,type followed by
    a line of one space and an empty line has a header that resolves and
    rows that are all blank, yet the import does not return the empty list
    of records: trimming the text leaves the header alone, and [parseCSV]
    throws that the document has no lines. *)
Lemma blank_rows_abort_import_counterexample :
  split LF blank_rows_document = ["name,type"; " "; EmptyString]
  /\ header_resolves blank_rows_document
  /\ Forall (fun line => is_empty (trim line) = true)
            (tl (split LF blank_rows_document))
  /\ dataLines blank_rows_document = []
  /\ parseCSV (runtime := decimal_runtime) blank_rows_document
     = Throw "No lines found in the CSV file"
  /\ ~ (exists rows, parseCSV (runtime := decimal_runtime) blank_rows_document = Ok rows).
Proof.
  split; [reflexivity|].
  split; [do 2 eexists; split; vm_compute; reflexivity|].
  split; [repeat constructor|].
  split; [reflexivity|].
  split; [reflexivity|].
  intros [rows E]. discriminate E.
Qed.

Lemma parseCSV_records_have_name_and_type_witness :
  parseCSV (runtime := decimal_runtime) skipping_document
  = Ok [{| name := "a"; content := lit "{'X':1}"; type := "b";
           metadata := Some EmptyString |};
        {| name := "c"; content := lit "{'X':3}"; type := "d";
           metadata := Some EmptyString |}]
  /\ Forall (fun row => name row <> EmptyString /\ type row <> EmptyString)
       [{| name := "a"; content := lit "{'X':1}"; type := "b";
           metadata := Some EmptyString |};
        {| name := "c"; content := lit "{'X':3}"; type := "d";
           metadata := Some EmptyString |}].
Proof.
  split; [vm_compute; reflexivity|].
  exact (parseCSV_records_have_name_and_type (runtime := decimal_runtime)
           skipping_document _ eq_refl).
Defined.

Lemma empty_metadata_cell_selects_passthrough_witness :
  importRow (runtime := decimal_runtime) passthrough_document "n2,t2,c2,"
  = Ok (Some {| name := "n2"; content := "c2"; type := "t2";
                metadata := Some EmptyString |})
  /\ array_get (parseCSVLine "n2,t2,c2,") (index_of COLUMN_METADATA passthrough_document)
     = Some EmptyString
  /\ metadataExtracted passthrough_document "n2,t2,c2," = true
  /\ passthroughSelected passthrough_document "n2,t2,c2," = true
  /\ passthroughSelected passthrough_document "n3,t3,7" = false.
Proof.
  split; [vm_compute; reflexivity|]. split; [reflexivity|].
  split; [|split; reflexivity].
  exact (proj1 (proj1 (empty_metadata_cell_selects_passthrough
                         (runtime := decimal_runtime) passthrough_document
                         "n2,t2,c2," _ eq_refl
                         ltac:(discriminate) ltac:(discriminate))
                  EmptyString eq_refl)).
Defined.

(** * Further properties of the engine *)

(** ** The fatal errors of the importer *)

Lemma split_includes (sep : ascii) (s : string) :
  includes s sep = true -> exists a b rest, split sep s = a :: b :: rest.
Proof.
  induction s as [|c s IH]; intros H; [discriminate|]. simpl in H |- *.
  destruct (Ascii.eqb c sep).
  - pose proof (split_nonempty sep s) as N.
    destruct (split sep s) as [|b rest]; [contradiction|]. now exists EmptyString, b, rest.
  - destruct (IH H) as [a [b [rest E]]]. rewrite E. now exists (String c a), b, rest.
Qed.

Lemma filter_nil_iff {A : Type} (p : A -> bool) (l : list A) :
  filter p l = [] <-> Forall (fun x => p x = false) l.
Proof.
  induction l as [|x l IH]; simpl; [split; [constructor | reflexivity]|].
  destruct (p x) eqn:P; split; intros H.
  - discriminate.
  - apply Forall_inv in H. congruence.
  - constructor; [exact P | now apply IH].
  - apply IH. now apply Forall_inv_tail in H.
Qed.

Lemma parseHeader_none (line : string) :
  parseHeader line = None <-> Forall (fun field => field = EmptyString) (parseCSVLine line).
Proof.
  unfold parseHeader.
  rewrite (map_ext_Forall trim (fun field => field) (parseCSVLine_trimmed line)), map_id.
  destruct (filter _ (parseCSVLine line)) as [|col cols] eqn:F; simpl.
  - split; [intros _ | reflexivity].
    apply filter_nil_iff in F. eapply Forall_impl; [|exact F].
    intros field H. apply negb_false_iff in H. now apply String.eqb_eq.
  - split; [discriminate|]. intros H. exfalso.
    assert (I : In col (filter (fun c => negb (String.eqb c EmptyString)) (parseCSVLine line)))
      by (rewrite F; now left).
    apply filter_In in I as [I N]. rewrite Forall_forall in H.
    rewrite (H col I) in N. discriminate.
Qed.

Section FatalErrors.
Context {runtime : Runtime}.

Lemma index_of_absent (csvText key : string) (columnNames : list string) :
  parseHeader (headerLine csvText) = Some columnNames ->
  toLowerCase key <> EmptyString ->
  index_of key csvText = (-1)%Z -> header_lacks csvText key.
Proof.
  intros H K E col I M. unfold index_of in E. rewrite (columnsOf_header _ _ H) in E.
  destruct (findIndex_spec (matches_key key) columnNames) as [[_ F] | [P _]]; [|lia].
  rewrite (parseHeader_columns _ _ H) in F. rewrite Forall_forall in F.
  destruct (String.eqb_spec col EmptyString) as [->|N].
  - simpl in M. congruence.
  - assert (Hin : In col (filter (fun c => negb (String.eqb c EmptyString))
                            (parseCSVLine (headerLine csvText)))).
    { apply filter_In. split; [exact I|]. now apply negb_true_iff, String.eqb_neq. }
    specialize (F col Hin). unfold matches_key in F. apply String.eqb_neq in F.
    contradiction.
Qed.

(** What [parseCSV] does with the lines of a document, by case. *)
Lemma parseCSV_cases (csvText : string) :
  (includes (trim csvText) LF = false
   /\ parseCSV csvText = Throw "No lines found in the CSV file")
  \/ (includes (trim csvText) LF = true
      /\ Forall (fun field => field = EmptyString) (headerFields csvText)
      /\ parseCSV csvText = Throw "No column names found in the CSV header")
  \/ (includes (trim csvText) LF = true
      /\ ~ Forall (fun field => field = EmptyString) (headerFields csvText)
      /\ (header_lacks csvText COLUMN_NAME \/ header_lacks csvText COLUMN_TYPE)
      /\ parseCSV csvText = Throw "Required keys not found in the CSV header")
  \/ (includes (trim csvText) LF = true
      /\ header_resolves csvText
      /\ parseCSV csvText = Ok (materializedRows csvText)).
Proof.
  rewrite parseCSV_spec.
  destruct (includes (trim csvText) LF) eqn:I.
  - right. destruct (split_includes _ _ I) as [a [b [rest E]]].
    change (split LF (trim csvText)) with (documentLines csvText) in E. rewrite E.
    destruct (parseHeader (headerLine csvText)) as [columnNames|] eqn:H.
    + right.
      assert (N : ~ Forall (fun field => field = EmptyString) (headerFields csvText)).
      { intros F. apply parseHeader_none in F. unfold headerFields in *. congruence. }
      destruct (validateRequiredKeys columnNames) as [required|] eqn:V.
      * right. split; [reflexivity|]. split; [|reflexivity]. now exists columnNames, required.
      * left. split; [reflexivity|]. split; [exact N|]. split; [|reflexivity].
        rewrite validateRequiredKeys_spec in V. cbv zeta in V.
        pose proof (columnsOf_header _ _ H) as C.
        destruct (Z.eqb_spec (findIndex (matches_key COLUMN_NAME) columnNames) (-1)) as [En|_].
        -- left. apply (index_of_absent _ _ _ H); [discriminate|].
           unfold index_of. now rewrite C.
        -- destruct (Z.eqb_spec (findIndex (matches_key COLUMN_TYPE) columnNames) (-1))
             as [Et|_]; [|discriminate].
           right. apply (index_of_absent _ _ _ H); [discriminate|].
           unfold index_of. now rewrite C.
    + left. split; [reflexivity|]. split; [|reflexivity].
      now apply parseHeader_none.
  - left. pose proof (split_free _ _ I) as E.
    change (split LF (trim csvText)) with (documentLines csvText) in E. rewrite E.
    now split.
Qed.

(** X1: the three fatal errors of [parseCSV] and when each is thrown: no
    line feed in the trimmed text (an empty document or a header alone); a
    header whose fields are all empty; a header without the name column or
    without the type column.  Every other document gives rows. *)
Theorem parseCSV_fatal_errors (csvText : string) :
  (parseCSV csvText = Throw "No lines found in the CSV file"
   <-> includes (trim csvText) LF = false)
  /\ (parseCSV csvText = Throw "No column names found in the CSV header"
      <-> includes (trim csvText) LF = true
          /\ Forall (fun field => field = EmptyString) (headerFields csvText))
  /\ (parseCSV csvText = Throw "Required keys not found in the CSV header"
      <-> includes (trim csvText) LF = true
          /\ ~ Forall (fun field => field = EmptyString) (headerFields csvText)
          /\ (header_lacks csvText COLUMN_NAME \/ header_lacks csvText COLUMN_TYPE))
  /\ ((exists rows, parseCSV csvText = Ok rows)
      <-> includes (trim csvText) LF = true /\ header_resolves csvText).
Proof.
  assert (R : header_resolves csvText ->
              ~ Forall (fun field => field = EmptyString) (headerFields csvText)
              /\ ~ (header_lacks csvText COLUMN_NAME \/ header_lacks csvText COLUMN_TYPE)).
  { intros Res. destruct (header_resolves_indices _ Res) as [Hn [Ht _]].
    split.
    - intros F. apply parseHeader_none in F. destruct Res as [c [r [H _]]].
      unfold headerFields in *. congruence.
    - intros [L | L]; apply header_lacks_index in L; contradiction. }
  destruct (parseCSV_cases csvText)
    as [[I E] | [[I [F E]] | [[I [N [L E]]] | [I [Res E]]]]]; rewrite E.
  - split; [tauto|]. split; [split; [discriminate | intros [? _]; congruence]|].
    split; [split; [discriminate | intros [? _]; congruence]|].
    split; [intros [rows ?]; discriminate | intros [? _]; congruence].
  - split; [split; [discriminate | congruence]|]. split; [tauto|].
    split; [split; [discriminate | tauto]|].
    split; [intros [rows ?]; discriminate | intros [_ Res]].
    destruct (R Res). contradiction.
  - split; [split; [discriminate | congruence]|].
    split; [split; [discriminate | tauto]|]. split; [tauto|].
    split; [intros [rows ?]; discriminate | intros [_ Res]].
    destruct (R Res). contradiction.
  - destruct (R Res) as [N L].
    split; [split; [discriminate | congruence]|].
    split; [split; [discriminate | tauto]|].
    split; [split; [discriminate | tauto]|].
    split; [tauto | intros _; eexists; reflexivity].
Qed.
End FatalErrors.

(** ** Skipped lines and the console *)

Section Console.
Context {runtime : Runtime}.

Lemma parseCSV_loop_pair (columnNames : list string)
    (requiredKeysIndices keysOutsideContentIndices : list (Z * string))
    (contentColumnIndex : Z) (dataLines : list string) :
  forall rows console,
    parseCSV_loop dataLines columnNames requiredKeysIndices
      keysOutsideContentIndices contentColumnIndex rows console
    = ((rows ++ flat_map (fun line =>
                            match processRow line columnNames requiredKeysIndices
                                    keysOutsideContentIndices contentColumnIndex with
                            | Ok (Some row) => [row]
                            | _ => []
                            end) dataLines)%list,
       (console ++ flat_map (fun line =>
                               match processRow line columnNames requiredKeysIndices
                                       keysOutsideContentIndices contentColumnIndex with
                               | Throw message => [row_failure message]
                               | Ok _ => []
                               end) dataLines)%list).
Proof.
  induction dataLines as [|line dataLines IH]; intros rows console; simpl.
  - now rewrite !app_nil_r.
  - destruct (processRow line columnNames requiredKeysIndices
                keysOutsideContentIndices contentColumnIndex) as [[row|]|message];
      rewrite IH; simpl; now rewrite <- ?app_assoc.
Qed.

(** X2: when [parseCSV] returns, every data line is accounted for once:
    it gave a record, or it wrote one line to the console, which tells a
    blank line from a line without a required value.  Records and console
    lines keep the order of the data lines. *)
Theorem parseCSV_accounts_for_every_line (csvText : string)
    (rows : list CSVRow) (console : list string) :
  parseCSV_run csvText = Ok (rows, console) ->
  rows = map (rowRecord csvText)
           (filter (fun line => negb (row_skipped csvText line)) (dataLines csvText))
  /\ console = map skipMessage (filter (row_skipped csvText) (dataLines csvText))
  /\ (List.length rows + List.length console = List.length (dataLines csvText))%nat.
Proof.
  intros H.
  assert (P : parseCSV csvText = Ok rows) by (unfold parseCSV; now rewrite H).
  destruct (parseCSV_ok _ _ P) as [R [_ Erows]].
  assert (Econsole : console
                     = map skipMessage (filter (row_skipped csvText) (dataLines csvText))).
  { unfold parseCSV_run in H. fold (documentLines csvText) in H.
    destruct ((List.length (documentLines csvText) =? 0)%nat
              || (List.length (documentLines csvText) =? 1)%nat); [discriminate|].
    fold (headerLine csvText) in H. destruct R as [columnNames [required [Hh V]]].
    rewrite Hh, V in H. rewrite parseCSV_loop_pair in H. injection H as _ <-.
    fold (dataLines csvText). cbn [app].
    assert (Res : header_resolves csvText) by (now exists columnNames, required).
    clear Erows P.
    induction (dataLines csvText) as [|line lines IH]; [reflexivity|].
    cbn [flat_map filter].
    pose proof (importRow_spec csvText line Res) as I. unfold importRow in I.
    rewrite (columnsOf_header _ _ Hh), V in I. rewrite I, IH.
    destruct (is_empty (trim line)) eqn:B.
    - rewrite row_skipped_blank by exact B. cbn [map].
      assert (M : skipMessage line = row_failure "Empty row found in the CSV file")
        by (unfold skipMessage; now rewrite B).
      now rewrite M.
    - destruct (row_skipped csvText line); [|reflexivity]. cbn [map].
      assert (M : skipMessage line = row_failure "Required keys not found in the CSV row")
        by (unfold skipMessage; now rewrite B).
      now rewrite M. }
  split; [exact Erows|]. split; [exact Econsole|].
  rewrite Erows, Econsole, !length_map. clear.
  induction (dataLines csvText) as [|line lines IH]; [reflexivity|].
  cbn [filter]. destruct (row_skipped csvText line); cbn [negb List.length]; lia.
Qed.
End Console.

Lemma parseCSV_accounts_for_every_line_witness :
  parseCSV_run (runtime := decimal_runtime) skipping_document
  = Ok ([{| name := "a"; content := lit "{'X':1}"; type := "b";
            metadata := Some EmptyString |};
         {| name := "c"; content := lit "{'X':3}"; type := "d";
            metadata := Some EmptyString |}],
        ["Failed to process CSV row: Empty row found in the CSV file";
         "Failed to process CSV row: Required keys not found in the CSV row"])
  /\ ["Failed to process CSV row: Empty row found in the CSV file";
      "Failed to process CSV row: Required keys not found in the CSV row"]
     = map skipMessage
         (filter (row_skipped skipping_document) (dataLines skipping_document)).
Proof.
  split; [vm_compute; reflexivity|].
  exact (proj1 (proj2 (parseCSV_accounts_for_every_line (runtime := decimal_runtime)
                         skipping_document _ _ eq_refl))).
Defined.

(** ** Line ends with a carriage return *)

Lemma is_whitespace_CR : is_whitespace CR = true.
Proof. reflexivity. Qed.

Lemma is_whitespace_LF : is_whitespace LF = true.
Proof. reflexivity. Qed.

Lemma LF_eq (c : ascii) : Ascii.eqb c LF = true -> is_whitespace c = true.
Proof. intros H. apply Ascii.eqb_eq in H. now subst c. Qed.

Lemma trimEnd_append_space (s : string) (c : ascii) :
  is_whitespace c = true -> trimEnd (s ++ String c EmptyString) = trimEnd s.
Proof.
  intros W. induction s as [|a s IH]; simpl; [now rewrite W | now rewrite IH].
Qed.

Lemma trim_append_space (s : string) (c : ascii) :
  is_whitespace c = true -> trim (s ++ String c EmptyString) = trim s.
Proof.
  intros W. unfold trim. induction s as [|a s IH]; simpl; [now rewrite W|].
  destruct (is_whitespace a); [exact IH|].
  exact (trimEnd_append_space (String a s) c W).
Qed.

(** A white space at the end of a line changes none of its fields: it is
    trimmed with the last one, quoted or not. *)
Lemma fields_append_space (c : ascii) (input : string) :
  is_whitespace c = true -> Ascii.eqb c DQUOTE = false -> Ascii.eqb c COMMA = false ->
  forall inside buffer,
    fields_from inside buffer (input ++ String c EmptyString)
    = fields_from inside buffer input.
Proof.
  intros W Q C.
  induction input as [|a rest IH1 IH2] using scan_ind; intros inside buffer.
  - cbn [append fields_from]. rewrite Q, C. cbn [andb]. now rewrite trim_append_space.
  - cbn [append fields_from]. destruct (Ascii.eqb a DQUOTE).
    + destruct rest as [|next rest'].
      * cbn [append fields_from]. rewrite Q, C, andb_false_r. cbn [andb].
        now rewrite trim_append_space.
      * cbn [append]. destruct (inside && Ascii.eqb next DQUOTE).
        -- exact (IH2 next rest' eq_refl _ _).
        -- exact (IH1 _ _).
    + destruct (Ascii.eqb a COMMA && negb inside); [f_equal|]; apply IH1.
Qed.

Lemma parseCSVLine_append_CR (line : string) :
  parseCSVLine (line ++ String CR EmptyString) = parseCSVLine line.
Proof.
  rewrite !parseCSVLine_scan. unfold tokenize_spec.
  now apply fields_append_space.
Qed.

Lemma crlf_empty (s : string) : crlf s = EmptyString -> s = EmptyString.
Proof. destruct s as [|c s]; [reflexivity|]. simpl. destruct (Ascii.eqb c LF); discriminate. Qed.

Lemma trimStart_crlf (s : string) : trimStart (crlf s) = crlf (trimStart s).
Proof.
  induction s as [|c s IH]; [reflexivity|]. simpl.
  destruct (Ascii.eqb c LF) eqn:E.
  - rewrite (LF_eq _ E). simpl. exact IH.
  - simpl. destruct (is_whitespace c); [exact IH|]. simpl. now rewrite E.
Qed.

Lemma trimEnd_cons (c : ascii) (s : string) :
  trimEnd (String c s)
  = if is_empty (trimEnd s)
    then (if is_whitespace c then EmptyString else String c EmptyString)
    else String c (trimEnd s).
Proof. simpl. destruct (trimEnd s); reflexivity. Qed.

Lemma is_empty_crlf (s : string) : is_empty (crlf s) = is_empty s.
Proof. destruct s as [|c s]; [reflexivity|]. simpl. destruct (Ascii.eqb c LF); reflexivity. Qed.

Lemma trimEnd_crlf (s : string) : trimEnd (crlf s) = crlf (trimEnd s).
Proof.
  induction s as [|c s IH]; [reflexivity|].
  rewrite (trimEnd_cons c s). cbn [crlf]. destruct (Ascii.eqb c LF) eqn:E.
  - rewrite !trimEnd_cons, IH, is_empty_crlf, (LF_eq _ E), is_whitespace_LF, is_whitespace_CR.
    destruct (is_empty (trimEnd s)); [reflexivity|].
    cbn [is_empty crlf]. now rewrite E.
  - rewrite trimEnd_cons, IH, is_empty_crlf.
    destruct (is_empty (trimEnd s)).
    + destruct (is_whitespace c); [reflexivity|]. cbn [crlf]. now rewrite E.
    + cbn [crlf]. now rewrite E.
Qed.

Lemma trim_crlf (s : string) : trim (crlf s) = crlf (trim s).
Proof. unfold trim. now rewrite trimStart_crlf, trimEnd_crlf. Qed.

Lemma with_cr_cons (line next : string) (lines : list string) :
  with_cr (line :: next :: lines)
  = (line ++ String CR EmptyString) :: with_cr (next :: lines).
Proof. reflexivity. Qed.

Lemma split_crlf (s : string) : split LF (crlf s) = with_cr (split LF s).
Proof.
  induction s as [|c s IH]; [reflexivity|].
  pose proof (split_nonempty LF s) as N.
  cbn [crlf split]. destruct (Ascii.eqb c LF) eqn:E.
  - cbn [split]. replace (Ascii.eqb CR LF) with false by reflexivity.
    rewrite Ascii.eqb_refl, IH.
    destruct (split LF s) as [|first others]; [contradiction|]. reflexivity.
  - cbn [split]. rewrite E, IH.
    destruct (split LF s) as [|first [|second others]];
      [contradiction | reflexivity | reflexivity].
Qed.

Lemma length_with_cr (lines : list string) :
  List.length (with_cr lines) = List.length lines.
Proof.
  induction lines as [|line [|next lines] IH]; [reflexivity | reflexivity |].
  rewrite with_cr_cons. cbn [List.length]. now rewrite IH.
Qed.

Lemma parseHeader_append_CR (line : string) :
  parseHeader (line ++ String CR EmptyString) = parseHeader line.
Proof. unfold parseHeader. now rewrite parseCSVLine_append_CR. Qed.

Section CarriageReturns.
Context {runtime : Runtime}.

Lemma processRow_append_CR (line : string) (columnNames : list string)
    (requiredKeysIndices keysOutsideContentIndices : list (Z * string))
    (contentColumnIndex : Z) :
  processRow (line ++ String CR EmptyString) columnNames requiredKeysIndices
    keysOutsideContentIndices contentColumnIndex
  = processRow line columnNames requiredKeysIndices keysOutsideContentIndices
      contentColumnIndex.
Proof.
  unfold processRow.
  now rewrite parseCSVLine_append_CR, (trim_append_space line CR is_whitespace_CR).
Qed.

Lemma parseCSV_loop_with_cr (columnNames : list string)
    (requiredKeysIndices keysOutsideContentIndices : list (Z * string))
    (contentColumnIndex : Z) (dataLines : list string) :
  forall rows console,
    parseCSV_loop (with_cr dataLines) columnNames requiredKeysIndices
      keysOutsideContentIndices contentColumnIndex rows console
    = parseCSV_loop dataLines columnNames requiredKeysIndices
        keysOutsideContentIndices contentColumnIndex rows console.
Proof.
  induction dataLines as [|line [|next lines] IH]; intros rows console;
    [reflexivity | reflexivity |].
  rewrite with_cr_cons. cbn [parseCSV_loop]. rewrite processRow_append_CR.
  destruct (processRow line _ _ _ _) as [[row|]|message]; apply IH.
Qed.

(** X3: a document whose lines end with a carriage return and a line feed
    is imported as the same document with line feeds alone: the same error,
    or the same records and the same console lines. *)
Theorem parseCSV_ignores_carriage_returns (csvText : string) :
  parseCSV_run (crlf csvText) = parseCSV_run csvText
  /\ parseCSV (crlf csvText) = parseCSV csvText.
Proof.
  assert (R : parseCSV_run (crlf csvText) = parseCSV_run csvText).
  { unfold parseCSV_run. rewrite trim_crlf, split_crlf, !length_with_cr.
    destruct (split LF (trim csvText)) as [|header [|line lines]];
      [reflexivity | reflexivity |].
    rewrite with_cr_cons. cbn [List.length Nat.eqb orb nth tl].
    rewrite parseHeader_append_CR.
    destruct (parseHeader header); [|reflexivity].
    destruct (validateRequiredKeys _); [|reflexivity].
    now rewrite parseCSV_loop_with_cr. }
  split; [exact R|]. unfold parseCSV. now rewrite R.
Qed.
End CarriageReturns.

(** ** Roles of the header columns *)

Lemma findIndex_from_least {A : Type} (p : A -> bool) (l : list A) :
  forall i j x,
    (i <= j < findIndex_from p l i)%Z ->
    nth_error l (Z.to_nat (j - i)) = Some x -> p x = false.
Proof.
  induction l as [|y l IH]; intros i j x Hj Hx; simpl in Hj.
  { destruct (Z.to_nat (j - i)); discriminate. }
  destruct (p y) eqn:Py; [lia|].
  destruct (Z.eq_dec j i) as [->|Hne].
  - rewrite Z.sub_diag in Hx. simpl in Hx. congruence.
  - apply (IH (i + 1)%Z j x); [lia|].
    replace (Z.to_nat (j - i)) with (S (Z.to_nat (j - (i + 1)))) in Hx by lia.
    exact Hx.
Qed.

Lemma findIndex_first_match (key : string) (columnNames : list string) :
  findIndex (matches_key key) columnNames <> (-1)%Z ->
  first_match columnNames key (findIndex (matches_key key) columnNames).
Proof.
  intros H. split.
  - destruct (findIndex_spec (matches_key key) columnNames) as [[E _] | [_ [x [Hx Px]]]];
      [contradiction|].
    exists x. split; [exact Hx | now apply String.eqb_eq].
  - intros j col Hj Hcol E.
    unfold array_get in Hcol. destruct (Z.ltb_spec j 0); [lia|].
    assert (P : matches_key key col = false).
    { apply (findIndex_from_least (matches_key key) columnNames 0%Z j col).
      - exact Hj.
      - now rewrite Z.sub_0_r. }
    unfold matches_key in P. apply String.eqb_neq in P. contradiction.
Qed.

Lemma map_set_In (m : list (Z * string)) (index : Z) (key : string) (p : Z * string) :
  In p (map_set Z.eqb m index key) -> p = (index, key) \/ In p m.
Proof.
  induction m as [|[i k] m IH]; simpl.
  - intros [<-|[]]. now left.
  - destruct (Z.eqb_spec i index) as [->|_]; simpl.
    + intros [<-|H]; [now left | right; now right].
    + intros [<-|H]; [right; now left|].
      destruct (IH H) as [->|H']; [now left | right; now right].
Qed.

Lemma findColumnIndices_loop_entries (columnNames keys : list string) :
  forall indices,
    Forall (fun p => fst p = findIndex (matches_key (snd p)) columnNames
                     /\ fst p <> (-1)%Z) indices ->
    Forall (fun p => fst p = findIndex (matches_key (snd p)) columnNames
                     /\ fst p <> (-1)%Z)
           (findColumnIndices_loop columnNames keys indices).
Proof.
  induction keys as [|key keys IH]; intros indices H; [exact H|].
  cbn [findColumnIndices_loop]. apply IH.
  destruct (Z.eqb_spec (findIndex (matches_key key) columnNames) (-1)) as [|N];
    [exact H|].
  cbn [negb]. apply Forall_forall. intros p Hp.
  apply map_set_In in Hp as [->|Hp]; [now split|].
  revert p Hp. now apply Forall_forall.
Qed.

(** X4: a role is bound to the first column carrying its name, whatever the
    letter case: every entry of the index maps that [findColumnIndices] and
    [validateRequiredKeys] build, and the index of the content column, is
    the position of a column named like the key, and no column before that
    position is named so. *)
Theorem roles_bind_first_matching_column (columnNames : list string) :
  (forall keys index key,
      In (index, key) (findColumnIndices columnNames keys) ->
      first_match columnNames key index)
  /\ (forall requiredKeysIndices index key,
         validateRequiredKeys columnNames = Some requiredKeysIndices ->
         In (index, key) requiredKeysIndices ->
         first_match columnNames key index)
  /\ (findContentColumnIndex columnNames <> (-1)%Z ->
      first_match columnNames COLUMN_CONTENT (findContentColumnIndex columnNames)).
Proof.
  split; [|split].
  - intros keys index key H.
    pose proof (findColumnIndices_loop_entries columnNames keys [] (Forall_nil _)) as F.
    rewrite Forall_forall in F. destruct (F _ H) as [E N]. cbn [fst snd] in E, N.
    rewrite E. apply findIndex_first_match. now rewrite <- E.
  - intros requiredKeysIndices index key V H.
    rewrite validateRequiredKeys_spec in V. cbv zeta in V.
    destruct (Z.eqb_spec (findIndex (matches_key COLUMN_NAME) columnNames) (-1)) as [|Nn];
      [discriminate|].
    destruct (Z.eqb_spec (findIndex (matches_key COLUMN_TYPE) columnNames) (-1)) as [|Nt];
      [discriminate|].
    cbn [orb] in V. injection V as <-.
    destruct H as [H|[H|[]]]; injection H as <- <-; now apply findIndex_first_match.
  - apply findIndex_first_match.
Qed.

Lemma roles_bind_first_matching_column_witness :
  findColumnIndices ["id"; "Type"; "NAME"; "type"; "name"] KEYS_OUTSIDE_CONTENT
  = [(2%Z, "name"); (1%Z, "type")]
  /\ first_match ["id"; "Type"; "NAME"; "type"; "name"] "name" 2.
Proof.
  split; [reflexivity|].
  apply (proj1 (roles_bind_first_matching_column ["id"; "Type"; "NAME"; "type"; "name"])
           KEYS_OUTSIDE_CONTENT).
  vm_compute. now left.
Defined.

Lemma findIndex_from_lower (key : string) (columnNames : list string) :
  forall i,
    findIndex_from (matches_key key) columnNames i
    = findIndex_from (fun col => String.eqb col (toLowerCase key))
        (map toLowerCase columnNames) i.
Proof.
  induction columnNames as [|col columnNames IH]; intros i; [reflexivity|].
  simpl. unfold matches_key at 1. now rewrite IH.
Qed.

Lemma findIndex_same_names (key : string) (columnNames columnNames' : list string) :
  map toLowerCase columnNames = map toLowerCase columnNames' ->
  findIndex (matches_key key) columnNames = findIndex (matches_key key) columnNames'.
Proof. intros E. unfold findIndex. now rewrite !findIndex_from_lower, E. Qed.

(** X5: the roles of a header depend on the column names only up to letter
    case: two headers whose names agree once lower-cased give the same
    required indices (or are both rejected), the same indices kept outside
    the content for any keys, and the same content column index. *)
Theorem header_roles_ignore_letter_case (columnNames columnNames' : list string)
    (E : map toLowerCase columnNames = map toLowerCase columnNames') :
  validateRequiredKeys columnNames = validateRequiredKeys columnNames'
  /\ (forall keys,
         findColumnIndices columnNames keys = findColumnIndices columnNames' keys)
  /\ findContentColumnIndex columnNames = findContentColumnIndex columnNames'.
Proof.
  split; [|split].
  - rewrite !validateRequiredKeys_spec. cbv zeta.
    now rewrite !(findIndex_same_names _ _ _ E).
  - intros keys. unfold findColumnIndices. generalize (@nil (Z * string)).
    induction keys as [|key keys IH]; intros indices; [reflexivity|].
    cbn [findColumnIndices_loop]. rewrite (findIndex_same_names _ _ _ E). apply IH.
  - unfold findContentColumnIndex. now apply findIndex_same_names.
Qed.

Lemma header_roles_ignore_letter_case_witness :
  validateRequiredKeys ["Name"; "TYPE"; "Content"]
  = validateRequiredKeys ["name"; "type"; "CONTENT"]
  /\ (forall keys,
         findColumnIndices ["Name"; "TYPE"; "Content"] keys
         = findColumnIndices ["name"; "type"; "CONTENT"] keys)
  /\ findContentColumnIndex ["Name"; "TYPE"; "Content"]
     = findContentColumnIndex ["name"; "type"; "CONTENT"].
Proof.
  apply (header_roles_ignore_letter_case ["Name"; "TYPE"; "Content"]
           ["name"; "type"; "CONTENT"]).
  reflexivity.
Defined.

(** ** Rows longer than the header *)

Lemma findIndex_bound {A : Type} (p : A -> bool) (l : list A) :
  (findIndex p l < Z.of_nat (List.length l))%Z.
Proof.
  destruct (findIndex_spec p l) as [[E _] | [Hle [x [Hx _]]]]; [lia|].
  unfold array_get in Hx. destruct (Z.ltb_spec (findIndex p l) 0); [lia|].
  assert (Z.to_nat (findIndex p l) < List.length l)%nat; [|lia].
  apply nth_error_Some. congruence.
Qed.

Lemma array_get_app {A : Type} (values extra : list A) (index : Z) :
  (index < Z.of_nat (List.length values))%Z ->
  array_get (values ++ extra) index = array_get values index.
Proof.
  intros H. unfold array_get. destruct (Z.ltb_spec index 0); [reflexivity|].
  apply nth_error_app1. lia.
Qed.

Lemma trimmed_at_app (values extra : list string) (index : Z) :
  (index < Z.of_nat (List.length values))%Z ->
  trimmed_at (values ++ extra) index = trimmed_at values index.
Proof. intros H. unfold trimmed_at. now rewrite array_get_app. Qed.

(** A blank line has no character but white space. *)
Lemma blank_includes (c : ascii) (s : string) :
  is_whitespace c = false -> is_empty (trim s) = true -> includes s c = false.
Proof.
  intros W. induction s as [|d s IH]; [reflexivity|].
  unfold trim. cbn [trimStart includes]. destruct (is_whitespace d) eqn:Wd.
  - intros H. rewrite (IH H), orb_false_r.
    destruct (Ascii.eqb_spec d c) as [->|]; [congruence | reflexivity].
  - destruct (trimEnd_head d s Wd) as [t ->]. discriminate.
Qed.

Lemma blank_line_fields (line : string) :
  is_empty (trim line) = true -> parseCSVLine line = [EmptyString].
Proof.
  intros B. rewrite parseCSVLine_scan. unfold tokenize_spec.
  rewrite fields_quote_free by (now apply blank_includes).
  rewrite split_free by (now apply blank_includes).
  cbn [append map]. apply is_empty_true in B. now rewrite B.
Qed.

Lemma trim_with_comma (a b : string) : is_empty (trim (a ++ String COMMA b)) = false.
Proof.
  destruct (is_empty (trim (a ++ String COMMA b))) eqn:B; [|reflexivity].
  apply (blank_includes COMMA) in B; [|reflexivity].
  rewrite includes_append in B. cbn [includes] in B.
  rewrite Ascii.eqb_refl, orb_true_r in B. discriminate.
Qed.

Lemma parseCSVLine_append_comma (line rest : string) :
  inside_after false line = false ->
  parseCSVLine (line ++ String COMMA rest) = (parseCSVLine line ++ parseCSVLine rest)%list.
Proof.
  intros H. rewrite !parseCSVLine_scan. unfold tokenize_spec.
  now apply fields_split_comma.
Qed.

Section SurplusCells.
Context {runtime : Runtime}.

Lemma buildContent_columns_app (extra : list string)
    (keysOutsideContentIndices : list (Z * string)) (contentColumnIndex : Z)
    (values : list string) :
  forall i columnNames contentObject,
    (List.length columnNames <= List.length values)%nat ->
    buildContent_columns i (values ++ extra) columnNames keysOutsideContentIndices
      contentColumnIndex contentObject
    = buildContent_columns i values columnNames keysOutsideContentIndices
        contentColumnIndex contentObject.
Proof.
  induction values as [|cell values IH]; intros i columnNames contentObject H.
  - destruct columnNames; [|simpl in H; lia]. destruct extra; reflexivity.
  - destruct columnNames as [|columnName columnNames]; [reflexivity|].
    cbn [app buildContent_columns]. apply IH. simpl in H. lia.
Qed.

Lemma buildContent_app (values extra columnNames : list string)
    (keysOutsideContentIndices : list (Z * string)) (contentColumnIndex : Z) :
  (List.length columnNames <= List.length values)%nat ->
  (contentColumnIndex < Z.of_nat (List.length values))%Z ->
  buildContent (values ++ extra) columnNames keysOutsideContentIndices contentColumnIndex
  = buildContent values columnNames keysOutsideContentIndices contentColumnIndex.
Proof.
  intros H C. unfold buildContent, buildContent_merge.
  now rewrite buildContent_columns_app, trimmed_at_app.
Qed.

Lemma resolved_columns (csvText : string) (requiredKeysIndices : list (Z * string)) :
  validateRequiredKeys (columnsOf csvText) = Some requiredKeysIndices ->
  header_resolves csvText.
Proof.
  unfold header_resolves, columnsOf.
  destruct (parseHeader (headerLine csvText)) as [columnNames|]; [|discriminate].
  intros V. now exists columnNames, requiredKeysIndices.
Qed.

Lemma index_of_bound (key csvText : string) (values : list string) :
  (List.length (columnsOf csvText) <= List.length values)%nat ->
  (index_of key csvText < Z.of_nat (List.length values))%Z.
Proof.
  intros H. pose proof (findIndex_bound (matches_key key) (columnsOf csvText)) as B.
  unfold index_of. lia.
Qed.

(** X6: cells beyond the last column of the header are ignored.  When a line
    has no quote left open and at least as many cells as the header has
    columns, whatever follows it after one more comma changes nothing of
    what the line imports to: the same record, or the same refusal. *)
Theorem surplus_cells_ignored (csvText line rest : string)
    (Hclosed : inside_after false line = false)
    (Hcells : (List.length (columnsOf csvText) <= List.length (parseCSVLine line))%nat) :
  importRow csvText (line ++ String COMMA rest) = importRow csvText line.
Proof.
  destruct (validateRequiredKeys (columnsOf csvText)) as [required|] eqn:V;
    [|unfold importRow; now rewrite V].
  pose proof (resolved_columns _ _ V) as R.
  destruct (header_resolves_indices _ R) as [Hn [Ht _]].
  assert (B : is_empty (trim line) = false).
  { destruct (is_empty (trim line)) eqn:B; [|reflexivity].
    rewrite (blank_line_fields _ B) in Hcells. cbn [List.length] in Hcells.
    pose proof (findIndex_keys_apart COLUMN_NAME COLUMN_TYPE (columnsOf csvText)
                  ltac:(discriminate) Hn) as Hnt.
    pose proof (findIndex_bound (matches_key COLUMN_NAME) (columnsOf csvText)) as Bn.
    pose proof (findIndex_bound (matches_key COLUMN_TYPE) (columnsOf csvText)) as Bt.
    destruct (findIndex_spec (matches_key COLUMN_NAME) (columnsOf csvText))
      as [[E _] | [Pn _]]; [contradiction|].
    destruct (findIndex_spec (matches_key COLUMN_TYPE) (columnsOf csvText))
      as [[E _] | [Pt _]]; [contradiction|].
    unfold index_of in Hn, Ht. lia. }
  rewrite !importRow_spec by exact R.
  rewrite trim_with_comma, B.
  unfold row_skipped, rowRecord, plaintextContent, passthroughContent.
  rewrite trim_with_comma, B, (parseCSVLine_append_comma _ _ Hclosed).
  rewrite !trimmed_at_app, !array_get_app, buildContent_app
    by (try apply index_of_bound; try apply findIndex_bound; exact Hcells).
  reflexivity.
Qed.
End SurplusCells.

Lemma surplus_cells_ignored_witness :
  importRow content_document (lit "foo,bar,'a,b'" ++ String COMMA "x, y,,z")
  = importRow content_document (lit "foo,bar,'a,b'")
  /\ importRow content_document (lit "foo,bar,'a,b'")
     = Ok (Some {| name := "foo"; content := lit "{'CONTENT':'a,b'}";
                   type := "bar"; metadata := Some EmptyString |}).
Proof.
  split; [|reflexivity].
  apply (surplus_cells_ignored (runtime := decimal_runtime) content_document
           (lit "foo,bar,'a,b'") "x, y,,z"); [reflexivity | vm_compute; lia].
Defined.

(** ** Columns folded into the content *)

Lemma map_get_app {V : Type} (a b : list (string * V)) (key : string) :
  map_get String.eqb (a ++ b) key
  = match map_get String.eqb a key with
    | Some value => Some value
    | None => map_get String.eqb b key
    end.
Proof.
  induction a as [|[k v] a IH]; [reflexivity|].
  cbn [app map_get]. destruct (String.eqb k key); [reflexivity | exact IH].
Qed.

Section FoldedColumns.
Context {runtime : Runtime}.

Lemma buildContent_columns_lookup (keysOutsideContentIndices : list (Z * string))
    (contentColumnIndex : Z) (values : list string) :
  forall i columnNames contentObject key,
    map_get String.eqb
      (buildContent_columns i values columnNames keysOutsideContentIndices
         contentColumnIndex contentObject) key
    = match last_value (foldedCells i values columnNames keysOutsideContentIndices
                          contentColumnIndex) key with
      | Some value => Some value
      | None => map_get String.eqb contentObject key
      end.
Proof.
  unfold last_value.
  induction values as [|cell values IH]; intros i columnNames contentObject key;
    [destruct columnNames; reflexivity|].
  destruct columnNames as [|columnName columnNames]; [reflexivity|].
  cbn [buildContent_columns foldedCells]. rewrite IH, rev_app_distr, map_get_app.
  destruct (map_get String.eqb (rev (foldedCells _ _ _ _ _)) key); [reflexivity|].
  destruct (negb (map_has Z.eqb keysOutsideContentIndices i)
            && negb (i =? contentColumnIndex)%Z); cbn [andb]; [|reflexivity].
  unfold cellValue.
  destruct (negb (String.eqb (trim cell) EmptyString)); [|reflexivity].
  cbn [rev app map_get]. unfold object_set.
  destruct (JSON_parse (trim cell)); rewrite map_get_set;
    destruct (String.eqb (toUpperCase columnName) key); reflexivity.
Qed.

(** X7: the last cell wins among columns of one name.  In the object that
    the first loop of [buildContent] builds, the value under a key is the
    one of the last cell that is folded under that key: of the last column,
    left to right, whose upper-cased name is the key and whose cell in the
    row is not empty, the columns kept outside the content and the content
    column apart.  A key no cell is folded under is not in the object. *)
Theorem last_cell_wins_among_equal_columns (values columnNames : list string)
    (keysOutsideContentIndices : list (Z * string)) (contentColumnIndex : Z)
    (key : string) :
  map_get String.eqb
    (buildContent_columns 0%Z values columnNames keysOutsideContentIndices
       contentColumnIndex []) key
  = last_value (foldedCells 0%Z values columnNames keysOutsideContentIndices
                  contentColumnIndex) key.
Proof.
  rewrite buildContent_columns_lookup.
  now destruct (last_value _ key).
Qed.
End FoldedColumns.

Lemma last_cell_wins_among_equal_columns_witness :
  foldedCells (runtime := decimal_runtime) 0%Z ["n"; "1"; "t"; " up "; ""; "3"]
    ["name"; "x"; "type"; "X"; "x"; "y"] [(0%Z, "name"); (2%Z, "type")] (-1)%Z
  = [("X", JNumber {| mantissa := 1; exponent := 0 |}); ("X", JString "up");
     ("Y", JNumber {| mantissa := 3; exponent := 0 |})]
  /\ map_get String.eqb
       (buildContent_columns (runtime := decimal_runtime) 0%Z
          ["n"; "1"; "t"; " up "; ""; "3"] ["name"; "x"; "type"; "X"; "x"; "y"]
          [(0%Z, "name"); (2%Z, "type")] (-1)%Z []) "X"
     = Some (JString "up")
  /\ parseCSV (runtime := decimal_runtime)
       (document ["name,x,type,X,x,y"; "n,1,t, up ,,3"])
     = Ok [{| name := "n"; content := lit "{'X':'up','Y':3}"; type := "t";
              metadata := Some EmptyString |}].
Proof.
  split; [reflexivity|]. split; [|reflexivity].
  rewrite (last_cell_wins_among_equal_columns (runtime := decimal_runtime)).
  reflexivity.
Defined.

(** ** The text the serializer writes *)

Lemma count_char_append (c : ascii) (a b : string) :
  count_char c (a ++ b) = (count_char c a + count_char c b)%nat.
Proof. induction a as [|d a IH]; simpl; [reflexivity | rewrite IH; lia]. Qed.

Lemma count_char_includes (c : ascii) (s : string) :
  includes s c = false <-> count_char c s = O.
Proof.
  induction s as [|d s IH]; simpl; [tauto|].
  destruct (Ascii.eqb d c); simpl; [split; [discriminate | lia] | exact IH].
Qed.

Lemma count_char_double_quotes (c : ascii) (s : string) :
  Ascii.eqb DQUOTE c = false -> count_char c (double_quotes s) = count_char c s.
Proof.
  intros N. induction s as [|d s IH]; [reflexivity|].
  cbn [double_quotes count_char]. destruct (Ascii.eqb d DQUOTE) eqn:Q.
  - apply Ascii.eqb_eq in Q. subst d. cbn [count_char]. now rewrite N, IH.
  - cbn [count_char]. now rewrite IH.
Qed.

Lemma count_char_join (c : ascii) (sep : string) (parts : list string) :
  count_char c (join sep parts)
  = (count_in_cells c parts + (List.length parts - 1) * count_char c sep)%nat.
Proof.
  induction parts as [|part parts IH]; [reflexivity|].
  destruct parts as [|next parts]; [simpl; lia|].
  rewrite join_cons, !count_char_append, IH.
  cbn [count_in_cells fold_right List.length]. lia.
Qed.

Lemma split_length (sep : ascii) (s : string) :
  List.length (split sep s) = S (count_char sep s).
Proof.
  induction s as [|c s IH]; [reflexivity|].
  simpl. destruct (Ascii.eqb c sep); simpl; [now rewrite IH|].
  destruct (split sep s); simpl in *; lia.
Qed.

Section Serializer.
Context {runtime : Runtime}.

(** Quoting is decided on the rendered string alone. *)
Lemma escapeCSVValue_rendered (value : unknown) :
  escapeCSVValue value = escapeCSVValue (Value (JString (stringValue value))).
Proof. destruct value as [|[]]; reflexivity. Qed.

Lemma count_char_escaped (value : unknown) :
  count_char LF (escapeCSVValue value) = count_char LF (stringValue value).
Proof.
  rewrite escapeCSVValue_rendered, escapeCSVValue_string.
  destruct (special (stringValue value)); [|reflexivity].
  cbn [count_char]. replace (Ascii.eqb DQUOTE LF) with false by reflexivity.
  rewrite count_char_append, count_char_double_quotes by reflexivity.
  cbn [count_char]. replace (Ascii.eqb DQUOTE LF) with false by reflexivity. lia.
Qed.

Lemma count_in_escaped_cells (row : list unknown) :
  count_in_cells LF (map escapeCSVValue row) = count_in_cells LF (map stringValue row).
Proof.
  induction row as [|value row IH]; [reflexivity|].
  cbn [map count_in_cells fold_right]. fold (count_in_cells LF (map escapeCSVValue row)).
  fold (count_in_cells LF (map stringValue row)). now rewrite count_char_escaped, IH.
Qed.

Lemma count_char_row (row : list unknown) :
  count_char LF (join "," (map escapeCSVValue row))
  = count_in_cells LF (map stringValue row).
Proof.
  rewrite count_char_join, count_in_escaped_cells.
  replace (count_char LF ",") with O by reflexivity. lia.
Qed.

Lemma count_in_lines (rows : list (list unknown)) :
  count_in_cells LF (map (fun row => join "," (map escapeCSVValue row)) rows)
  = list_sum (map (fun row => count_in_cells LF (map stringValue row)) rows).
Proof.
  induction rows as [|row rows IH]; [reflexivity|].
  cbn [map count_in_cells fold_right list_sum].
  fold (count_in_cells LF (map (fun row => join "," (map escapeCSVValue row)) rows)).
  fold (list_sum (map (fun row => count_in_cells LF (map stringValue row)) rows)).
  now rewrite count_char_row, IH.
Qed.

Lemma headers_rendered (headers : list string) :
  map stringValue (map (fun h => Value (JString h)) headers) = headers.
Proof. rewrite map_map. cbn [stringValue]. apply map_id. Qed.

(** X8: the text of [generateCSV] has one line for the header, one for each
    row, and one more for every line feed in a header or in a rendered
    value: quoting a value does not keep its line feeds from ending a
    line. *)
Theorem generateCSV_line_count (headers : list string) (rows : list (list unknown)) :
  List.length (split LF (generateCSV headers rows))
  = (1 + List.length rows + count_in_cells LF headers
     + list_sum (map (fun row => count_in_cells LF (map stringValue row)) rows))%nat.
Proof.
  rewrite split_length. unfold generateCSV. cbv zeta.
  rewrite count_char_join. cbn [count_in_cells fold_right List.length].
  fold (count_in_cells LF (map (fun row => join "," (map escapeCSVValue row)) rows)).
  rewrite count_char_row, headers_rendered, count_in_lines, length_map.
  replace (count_char LF (String LF EmptyString)) with 1%nat by reflexivity. lia.
Qed.

Lemma parseCSVLine_generated_row (row : list unknown) :
  row <> [] ->
  parseCSVLine (join "," (map escapeCSVValue row))
  = map (fun value => trim (stringValue value)) row.
Proof.
  intros N.
  replace (map escapeCSVValue row)
    with (map (fun s => escapeCSVValue (Value (JString s))) (map stringValue row)).
  - destruct row as [|value row]; [contradiction|].
    change (map stringValue (value :: row))
      with (stringValue value :: map stringValue row).
    rewrite (parseCSVLine_row (stringValue value) (map stringValue row)).
    cbn [map]. now rewrite map_map.
  - rewrite map_map. apply map_ext. intros value. symmetry.
    apply escapeCSVValue_rendered.
Qed.

Lemma line_feed_free_row (row : list unknown) :
  Forall (fun value => includes (stringValue value) LF = false) row ->
  includes (join "," (map escapeCSVValue row)) LF = false.
Proof.
  intros H. apply count_char_includes. rewrite count_char_row.
  induction H as [|value row Hv _ IH]; [reflexivity|].
  cbn [map count_in_cells fold_right]. fold (count_in_cells LF (map stringValue row)).
  apply count_char_includes in Hv. rewrite Hv, IH. reflexivity.
Qed.

(** X9: what the tokenizer reads back from the text of [generateCSV].  When
    no header and no rendered value holds a line feed and no row is empty,
    the lines of the text tokenize to the headers and to the rows, every
    value rendered as [escapeCSVValue] renders it (nothing for null and
    undefined, JSON for arrays and objects) and trimmed of the white space
    around it. *)
Theorem generateCSV_lines_tokenize (headers : list string) (rows : list (list unknown))
    (Hheaders : headers <> [])
    (Hrows : Forall (fun row => row <> []) rows)
    (Fheaders : Forall (fun h => includes h LF = false) headers)
    (Frows : Forall (Forall (fun value => includes (stringValue value) LF = false)) rows) :
  map parseCSVLine (split LF (generateCSV headers rows))
  = map trim headers :: map (map (fun value => trim (stringValue value))) rows.
Proof.
  unfold generateCSV. cbv zeta. rewrite split_join.
  - cbn [map]. f_equal.
    + rewrite parseCSVLine_generated_row.
      * rewrite map_map. reflexivity.
      * destruct headers; [contradiction | discriminate].
    + rewrite map_map. apply map_ext_Forall.
      revert Hrows. apply Forall_impl. intros row N.
      now apply parseCSVLine_generated_row.
  - discriminate.
  - constructor.
    + apply line_feed_free_row. rewrite Forall_map. cbn [stringValue]. exact Fheaders.
    + rewrite Forall_map. revert Frows. apply Forall_impl. intros row.
      apply line_feed_free_row.
Qed.
End Serializer.

Lemma generateCSV_lines_tokenize_witness :
  map parseCSVLine
    (split LF
       (generateCSV ["name"; "result"]
          [[Value (JString " bot, one "); Value (JArray [JBool true; JNull])];
           [Undefined; Value (JNumber {| mantissa := 15; exponent := (-1) |})]]))
  = [["name"; "result"]; ["bot, one"; "[true,null]"]; [""; "1.5"]].
Proof.
  apply (generateCSV_lines_tokenize (runtime := decimal_runtime) ["name"; "result"]
           [[Value (JString " bot, one "); Value (JArray [JBool true; JNull])];
            [Undefined; Value (JNumber {| mantissa := 15; exponent := (-1) |})]]).
  - discriminate.
  - repeat constructor; discriminate.
  - repeat constructor.
  - repeat constructor.
Defined.

(** ** Files *)

Lemma endsWith_spec (s suffix : string) :
  endsWith s suffix = true <-> exists stem, s = stem ++ suffix.
Proof.
  induction s as [|c s IH]; cbn [endsWith].
  - rewrite orb_false_r, String.eqb_eq. split.
    + intros <-. now exists EmptyString.
    + intros [[|d stem] E]; [exact E | discriminate].
  - rewrite orb_true_iff, String.eqb_eq, IH. split.
    + intros [<- | [stem ->]]; [now exists EmptyString | now exists (String c stem)].
    + intros [[|d stem] E]; [now left|].
      right. exists stem. simpl in E. congruence.
Qed.

Section FileImport.
Context {runtime : Runtime}.

(** X10: what [parseCSVFile] settles to.  It gives rows exactly when the name
    of the file ends in [.csv], in lower case, its text can be read and
    [parseCSV] accepts the text, and the rows are those of the text.  A file
    under another name is refused under one message whatever it holds, and
    any other failure, of the reading or of [parseCSV], comes back with its
    message behind a fixed prefix. *)
Theorem parseCSVFile_outcomes (file : File) :
  (forall rows,
      parseCSVFile file = Ok rows
      <-> (exists stem, fileName file = stem ++ ".csv")
          /\ exists text, fileText file = Ok text /\ parseCSV text = Ok rows)
  /\ (parseCSVFile file = Throw "File must be a CSV file"
      <-> ~ exists stem, fileName file = stem ++ ".csv")
  /\ (forall message,
         (exists stem, fileName file = stem ++ ".csv") ->
         fileText file = Throw message
         \/ (exists text, fileText file = Ok text /\ parseCSV text = Throw message) ->
         parseCSVFile file = Throw ("Failed to read CSV file: " ++ message)).
Proof.
  unfold parseCSVFile, isValidCSVFile.
  pose proof (endsWith_spec (fileName file) ".csv") as S.
  destruct (endsWith (fileName file) ".csv"); cbn [negb].
  - assert (N : exists stem, fileName file = stem ++ ".csv") by now apply S.
    split; [|split].
    + intros rows. split.
      * intros H. split; [exact N|].
        destruct (fileText file) as [text|message]; [|discriminate].
        exists text. split; [reflexivity|].
        destruct (parseCSV text) as [rows'|message]; [congruence | discriminate].
      * intros [_ [text [-> ->]]]. reflexivity.
    + split; [|intros H; contradiction].
      destruct (fileText file) as [text|message];
        [destruct (parseCSV text)|]; discriminate.
    + intros message _ [-> | [text [-> ->]]]; reflexivity.
  - assert (N : ~ exists stem, fileName file = stem ++ ".csv").
    { intros H. apply S in H. discriminate. }
    split; [|split].
    + intros rows. split; [discriminate | intros [H _]; contradiction].
    + split; [intros _; exact N | reflexivity].
    + intros message H. contradiction.
Qed.
End FileImport.

Lemma parseCSVFile_outcomes_witness :
  parseCSVFile {| fileName := "tasks.csv"; fileText := Ok content_document |}
  = Ok [{| name := "foo"; content := lit "{'CONTENT':'abc'}"; type := "bar";
           metadata := Some EmptyString |}]
  /\ parseCSVFile {| fileName := "TASKS.CSV"; fileText := Ok content_document |}
     = Throw "File must be a CSV file"
  /\ parseCSVFile {| fileName := "tasks.csv"; fileText := Ok "name,type" |}
     = Throw "Failed to read CSV file: No lines found in the CSV file".
Proof.
  split; [|split].
  - apply (proj1 (parseCSVFile_outcomes (runtime := decimal_runtime)
                    {| fileName := "tasks.csv"; fileText := Ok content_document |})).
    split; [now exists "tasks" | exists content_document; now split].
  - apply (proj1 (proj2 (parseCSVFile_outcomes (runtime := decimal_runtime)
                           {| fileName := "TASKS.CSV"; fileText := Ok content_document |}))).
    intros [stem E]. apply (f_equal (fun s => endsWith s ".csv")) in E.
    cbn [fileName] in E.
    rewrite (proj2 (endsWith_spec (stem ++ ".csv") ".csv")) in E by now exists stem.
    discriminate.
  - apply (proj2 (proj2 (parseCSVFile_outcomes (runtime := decimal_runtime)
                           {| fileName := "tasks.csv"; fileText := Ok "name,type" |}))
             "No lines found in the CSV file").
    + now exists "tasks".
    + right. exists "name,type". now split.
Defined.

(** ** The export of task results *)

Lemma trimEnd_nonblank (c : ascii) (s : string) :
  is_whitespace c = false -> includes s c = true -> trimEnd s <> EmptyString.
Proof.
  intros W. induction s as [|d s IH]; [discriminate|].
  cbn [includes trimEnd]. intros H.
  destruct (trimEnd s) eqn:E; [|discriminate].
  destruct (Ascii.eqb_spec d c) as [->|_].
  - rewrite W. discriminate.
  - cbn [orb] in H. now specialize (IH H).
Qed.

Lemma trimEnd_append_nonblank (a b : string) :
  trimEnd b <> EmptyString -> trimEnd (a ++ b) = a ++ trimEnd b.
Proof.
  intros N. induction a as [|c a IH]; [reflexivity|].
  cbn [append trimEnd]. rewrite IH.
  destruct (a ++ trimEnd b) eqn:E; [|reflexivity].
  destruct a; simpl in E; [contradiction | discriminate].
Qed.

Section ExportResults.
Context {runtime : Runtime}.

Lemma handleExport_download (now : string) (tasks : list Task) (state : ExportState) :
  filter hasResult tasks <> [] ->
  handleExport now (Some tasks) state
  = {| isExporting := false;
       exportEffects :=
         (exportEffects state
          ++ [DownloadFile
                (downloadCSV (generateCSV exportHeaders (map exportRow (filter hasResult tasks)))
                   ("task-results-" ++ nth 0 (split "T"%char now) EmptyString));
              ShowSuccessToast
                ("Exported " ++ count_text (List.length (filter hasResult tasks))
                 ++ " task result" ++ plural (List.length (filter hasResult tasks)) "s")])%list |}.
Proof.
  intros N. unfold handleExport.
  destruct tasks as [|task tasks]; [contradiction|].
  destruct (filter hasResult (task :: tasks)) as [|kept others]; [contradiction|].
  reflexivity.
Qed.

Lemma handleExport_nothing (now : string) (tasks : list Task) (state : ExportState) :
  filter hasResult tasks = [] ->
  exists message,
    exportEffects (handleExport now (Some tasks) state)
    = (exportEffects state ++ [ShowErrorToast message])%list.
Proof.
  intros N. unfold handleExport. destruct tasks as [|task tasks]; [now eexists|].
  rewrite N. now eexists.
Qed.

Lemma exportRow_line_has_comma (task : Task) :
  includes (join "," (map escapeCSVValue (exportRow task))) COMMA = true.
Proof.
  unfold exportRow. cbn [map]. rewrite join_cons, includes_append.
  change (includes ("," ++ ?x) COMMA) with true. apply orb_true_r.
Qed.

(** The text exported for results that exist: its first line is the four
    headers, and more lines follow. *)
Lemma exported_lines (rows : list Task) :
  rows <> [] ->
  exists line lines,
    documentLines (generateCSV exportHeaders (map exportRow rows))
    = "name,status,result,result_metadata" :: line :: lines.
Proof.
  intros N. destruct rows as [|task rows]; [contradiction|].
  unfold generateCSV. cbv zeta. cbn [map]. rewrite join_cons.
  change (join "," (map escapeCSVValue
                      (map (fun h : string => Value (JString h)) exportHeaders)))
    with "name,status,result,result_metadata".
  generalize (map (fun row => join "," (map escapeCSVValue row)) (map exportRow rows)).
  intros following.
  set (rest := join _ (_ :: following)).
  assert (C : includes rest COMMA = true).
  { subst rest. destruct following as [|next others].
    - rewrite join_one. apply exportRow_line_has_comma.
    - rewrite join_cons, includes_append, exportRow_line_has_comma. reflexivity. }
  unfold documentLines, trim.
  change (trimStart ("name,status,result,result_metadata" ++ String LF EmptyString ++ rest))
    with ("name,status,result,result_metadata" ++ String LF rest).
  pose proof (trimEnd_nonblank COMMA rest eq_refl C) as T.
  rewrite trimEnd_append_nonblank.
  - cbn [trimEnd]. destruct (trimEnd rest) as [|c kept] eqn:E; [contradiction|].
    rewrite split_append by reflexivity.
    destruct (split LF (String c kept)) as [|line lines] eqn:S.
    + now apply split_nonempty in S.
    + now exists line, lines.
  - cbn [trimEnd]. destruct (trimEnd rest); [contradiction | discriminate].
Qed.

Lemma exported_text_rejected (rows : list Task) :
  rows <> [] ->
  parseCSV (generateCSV exportHeaders (map exportRow rows))
  = Throw "Required keys not found in the CSV header".
Proof.
  intros N. destruct (exported_lines rows N) as [line [lines D]].
  rewrite parseCSV_spec. unfold headerLine. rewrite D. cbn [nth].
  reflexivity.
Qed.

(** X11: a file of exported results cannot be imported.  Whenever
    [handleExport] downloads a file, the name of the file passes the check
    of [parseCSVFile], but its text is refused: the exported header has no
    type column. *)
Theorem exported_results_are_refused_by_import (now : string) (tasks : list Task)
    (state : ExportState) (Hresults : existsb hasResult tasks = true) :
  exists download toast,
    exportEffects (handleExport now (Some tasks) state)
    = (exportEffects state ++ [DownloadFile download; toast])%list
    /\ isValidCSVFile (savedFile download) = true
    /\ parseCSVFile (savedFile download)
       = Throw "Failed to read CSV file: Required keys not found in the CSV header".
Proof.
  assert (N : filter hasResult tasks <> []).
  { apply existsb_exists in Hresults as [task [I H]].
    intros E. assert (I' : In task (filter hasResult tasks)) by now apply filter_In.
    now rewrite E in I'. }
  rewrite (handleExport_download _ _ _ N). cbn [exportEffects].
  eexists. eexists. split; [reflexivity|].
  assert (V : isValidCSVFile
                (savedFile
                   (downloadCSV
                      (generateCSV exportHeaders (map exportRow (filter hasResult tasks)))
                      ("task-results-" ++ nth 0 (split "T"%char now) EmptyString))) = true).
  { unfold isValidCSVFile, savedFile, downloadCSV. cbn [fileName downloadName].
    apply endsWith_spec. now eexists. }
  split; [exact V|].
  unfold parseCSVFile. rewrite V. cbn [negb].
  unfold savedFile, downloadCSV. cbn [fileText blobParts join].
  now rewrite exported_text_rejected.
Qed.

(** X12: what [handleExport] exports.  A file is downloaded exactly when
    some task has a result that is not blank; it is named after the date
    and is followed by one success toast.  When no exported value holds a
    line feed, the lines of the file tokenize to the four headers and then
    to one row for each task with a result, in the order of the tasks. *)
Theorem handleExport_exports_tasks_with_results (now : string) (tasks : list Task)
    (state : ExportState) :
  (existsb hasResult tasks = false ->
   forall download,
     In (DownloadFile download) (exportEffects (handleExport now (Some tasks) state)) ->
     In (DownloadFile download) (exportEffects state))
  /\ (existsb hasResult tasks = true ->
      exists csvString toast,
        handleExport now (Some tasks) state
        = {| isExporting := false;
             exportEffects :=
               (exportEffects state
                ++ [DownloadFile
                      (downloadCSV csvString
                         ("task-results-" ++ nth 0 (split "T"%char now) EmptyString));
                    ShowSuccessToast toast])%list |}
        /\ (Forall (fun task =>
                      Forall (fun value => includes (stringValue value) LF = false)
                             (exportRow task))
                   (filter hasResult tasks) ->
            map parseCSVLine (split LF csvString)
            = exportHeaders
              :: map (fun task => map (fun value => trim (stringValue value)) (exportRow task))
                   (filter hasResult tasks))).
Proof.
  split.
  - intros H download I.
    assert (N : filter hasResult tasks = []).
    { destruct (filter hasResult tasks) as [|task kept] eqn:E; [reflexivity|].
      assert (I' : In task (filter hasResult tasks)) by (rewrite E; now left).
      apply filter_In in I' as [I1 I2].
      assert (X : existsb hasResult tasks = true) by (apply existsb_exists; eauto).
      congruence. }
    destruct (handleExport_nothing now tasks state N) as [message E].
    rewrite E in I. apply in_app_or in I as [I|[I|[]]]; [exact I | discriminate].
  - intros H.
    assert (N : filter hasResult tasks <> []).
    { apply existsb_exists in H as [task [I H]].
      intros E. assert (I' : In task (filter hasResult tasks)) by now apply filter_In.
      now rewrite E in I'. }
    rewrite (handleExport_download _ _ _ N).
    eexists. eexists. split; [reflexivity|].
    intros F. unfold generateCSV. cbv zeta. rewrite split_join.
    + cbn [map]. f_equal. rewrite !map_map. apply map_ext.
      intros task. now apply parseCSVLine_generated_row.
    + discriminate.
    + constructor; [reflexivity|].
      rewrite Forall_map, Forall_map. revert F. apply Forall_impl.
      intros task. apply line_feed_free_row.
Qed.
End ExportResults.

Lemma exported_results_are_refused_by_import_witness :
  existsb hasResult [pending_task; finished_task] = true
  /\ exists download toast,
       exportEffects
         (handleExport "2024-05-01T10:20:30.000Z" (Some [pending_task; finished_task])
            idle_export)
       = (exportEffects idle_export ++ [DownloadFile download; toast])%list
       /\ isValidCSVFile (savedFile download) = true
       /\ parseCSVFile (savedFile download)
          = Throw "Failed to read CSV file: Required keys not found in the CSV header".
Proof.
  split; [reflexivity|].
  apply (exported_results_are_refused_by_import (runtime := decimal_runtime)
           "2024-05-01T10:20:30.000Z" [pending_task; finished_task] idle_export).
  reflexivity.
Defined.

Lemma handleExport_exports_tasks_with_results_witness :
  exportEffects
    (handleExport "2024-05-01T10:20:30.000Z" (Some [pending_task; finished_task]) idle_export)
  = [DownloadFile
       {| blobParts :=
            [document ["name,status,result,result_metadata";
                       lit "t1,completed,'{''ok'':true}',"]];
          blobType := "text/csv;charset=utf-8;";
          downloadName := "task-results-2024-05-01.csv" |};
     ShowSuccessToast "Exported 1 task result"]
  /\ exists csvString toast,
       handleExport "2024-05-01T10:20:30.000Z" (Some [pending_task; finished_task])
         idle_export
       = {| isExporting := false;
            exportEffects :=
              (exportEffects idle_export
               ++ [DownloadFile
                     (downloadCSV csvString
                        ("task-results-"
                         ++ nth 0 (split "T"%char "2024-05-01T10:20:30.000Z") EmptyString));
                   ShowSuccessToast toast])%list |}
       /\ (Forall (fun task =>
                     Forall (fun value => includes (stringValue value) LF = false)
                            (exportRow task))
                  (filter hasResult [pending_task; finished_task]) ->
           map parseCSVLine (split LF csvString)
           = exportHeaders
             :: map (fun task => map (fun value => trim (stringValue value)) (exportRow task))
                  (filter hasResult [pending_task; finished_task])).
Proof.
  split; [reflexivity|].
  apply (proj2 (handleExport_exports_tasks_with_results (runtime := decimal_runtime)
                  "2024-05-01T10:20:30.000Z" [pending_task; finished_task] idle_export)).
  reflexivity.
Defined.

(** ** The session *)

Lemma getItem_setItem (storage : Storage) (key value key' : string) :
  getItem (setItem storage key value) key'
  = if String.eqb key key' then Some value else getItem storage key'.
Proof. apply map_get_set. Qed.

Lemma getItem_removeItem (storage : Storage) (key key' : string) :
  getItem (removeItem storage key) key'
  = if String.eqb key key' then None else getItem storage key'.
Proof.
  unfold getItem, removeItem.
  induction storage as [|[k v] storage IH]; cbn [filter map_get fst].
  - now destruct (String.eqb key key').
  - destruct (String.eqb_spec k key) as [->|N]; cbn [negb map_get].
    + rewrite IH. destruct (String.eqb key key'); reflexivity.
    + rewrite IH. destruct (String.eqb_spec k key') as [->|N']; [|reflexivity].
      destruct (String.eqb_spec key key'); [congruence | reflexivity].
Qed.

(** X13: the session follows the last answer of the server.  After
    [loginMutation] the user is logged in exactly when [testAuth] succeeded,
    under the credentials just entered and on the route of the home page; a
    refused login leaves no credentials, also none of an earlier session,
    hands the error to [handleError] and does not navigate.  After [logout]
    the user is logged out and on the login page.  Neither touches another
    key of the storage. *)
Theorem session_follows_authentication (testAuth : result unit) (data : LoginCredentials)
    (browser : Browser) :
  (isLoggedIn (localStorage (loginMutation testAuth data browser)) = true
   <-> testAuth = Ok tt)
  /\ match testAuth with
     | Ok _ =>
         getItem (localStorage (loginMutation testAuth data browser)) "auth_username"
         = Some (username data)
         /\ getItem (localStorage (loginMutation testAuth data browser)) "auth_password"
            = Some (password data)
         /\ route (loginMutation testAuth data browser) = Some "/"
         /\ handledErrors (loginMutation testAuth data browser) = handledErrors browser
     | Throw message =>
         getItem (localStorage (loginMutation testAuth data browser)) "auth_username" = None
         /\ getItem (localStorage (loginMutation testAuth data browser)) "auth_password"
            = None
         /\ route (loginMutation testAuth data browser) = route browser
         /\ handledErrors (loginMutation testAuth data browser)
            = (handledErrors browser ++ [message])%list
     end
  /\ isLoggedIn (localStorage (logout browser)) = false
  /\ route (logout browser) = Some "/login"
  /\ (forall key,
         key <> "auth_username" -> key <> "auth_password" ->
         getItem (localStorage (loginMutation testAuth data browser)) key
         = getItem (localStorage browser) key
         /\ getItem (localStorage (logout browser)) key = getItem (localStorage browser) key).
Proof.
  split; [|split; [|split; [|split]]].
  - destruct testAuth as [[]|message]; unfold isLoggedIn, stored, loginMutation, login_store;
      cbn [localStorage].
    + rewrite !getItem_setItem. cbn. tauto.
    + rewrite !getItem_removeItem. cbn. split; discriminate.
  - destruct testAuth as [[]|message]; unfold loginMutation, login_store;
      cbn [localStorage route handledErrors].
    + rewrite !getItem_setItem. cbn. tauto.
    + rewrite !getItem_removeItem. cbn. tauto.
  - unfold isLoggedIn, stored, logout. cbn [localStorage].
    rewrite !getItem_removeItem. reflexivity.
  - reflexivity.
  - intros key Hu Hp. apply String.eqb_neq in Hu, Hp.
    rewrite String.eqb_sym in Hu. rewrite String.eqb_sym in Hp.
    split.
    + destruct testAuth as [[]|message]; unfold loginMutation, login_store;
        cbn [localStorage];
        rewrite ?getItem_removeItem, !getItem_setItem, ?Hu, ?Hp; reflexivity.
    + unfold logout. cbn [localStorage]. now rewrite !getItem_removeItem, Hu, Hp.
Qed.

Lemma session_follows_authentication_witness :
  isLoggedIn (localStorage signed_in_browser) = true
  /\ isLoggedIn
       (localStorage
          (loginMutation (Throw "Unauthorized") {| username := "bob"; password := "pw" |}
             signed_in_browser)) = false
  /\ getItem
       (localStorage
          (loginMutation (Throw "Unauthorized") {| username := "bob"; password := "pw" |}
             signed_in_browser)) "theme"
     = getItem (localStorage signed_in_browser) "theme".
Proof.
  split; [reflexivity|].
  pose proof (session_follows_authentication (Throw "Unauthorized")
                {| username := "bob"; password := "pw" |} signed_in_browser) as S.
  split.
  - apply proj1 in S. destruct (isLoggedIn _); [|reflexivity].
    destruct S as [S _]. discriminate (S eq_refl).
  - apply (proj2 (proj2 (proj2 (proj2 S))) "theme"); discriminate.
Defined.

(** ** The import dialog *)

Section ImportDialog.
Context {runtime : Runtime}.

Lemma parsed_rows_sendable (file : File) (rows : list CSVRow) :
  parseCSVFile file = Ok rows -> Forall sendable (map taskOfRow rows).
Proof.
  unfold parseCSVFile. destruct (negb (isValidCSVFile file)); [discriminate|].
  destruct (fileText file) as [text|message]; [|discriminate].
  destruct (parseCSV text) as [rows'|message] eqn:P; [|discriminate].
  intros E. injection E as <-.
  apply parseCSV_ok in P as [_ [_ ->]].
  rewrite Forall_map, Forall_map. apply Forall_forall. intros line I.
  apply filter_In in I as [_ S]. apply negb_true_iff in S.
  destruct (rowRecord_required _ _ S) as [Hn Ht].
  eexists _, _, _, _. split; [reflexivity|]. now split.
Qed.

Lemma handleImport_sends (created : result (nat * nat)) (state : ImportState) :
  parsedTasks state <> [] ->
  exists outcome,
    importEffects (handleImport created state)
    = (importEffects state ++ CreateTasks (map taskOfRow (parsedTasks state)) :: outcome)%list
    /\ sends_nothing outcome.
Proof.
  intros N. unfold handleImport.
  destruct (parsedTasks state) as [|row rows] eqn:E; [contradiction|].
  cbn [List.length Nat.eqb].
  destruct created as [[successCount errorCount]|message];
    cbn [resetSelection importEffects]; eexists; (split; [reflexivity|]);
    intros requestBody [I|[I|[]]]; try discriminate.
  destruct (0 <? successCount)%nat; discriminate.
Qed.

(** X14: what the import dialog sends for a file with tasks.  When
    [parseCSVFile] gives rows for the selected file, [handleFileSelect]
    keeps the file and the rows, and [handleImport] asks once for the
    creation of one task per row, in the order of the rows, whatever was
    selected before; every task sent has a name and a type that are not
    empty, a content and a content metadata. *)
Theorem import_sends_rows_of_selected_file (file : File) (rows : list CSVRow)
    (state : ImportState) (created : result (nat * nat))
    (Hrows : parseCSVFile file = Ok rows) (Hsome : rows <> []) :
  selectedFile (handleFileSelect (Some file) state) = Some file
  /\ parsedTasks (handleFileSelect (Some file) state) = rows
  /\ isParsing (handleFileSelect (Some file) state) = false
  /\ (exists outcome,
         importEffects (handleImport created (handleFileSelect (Some file) state))
         = (importEffects state ++ CreateTasks (map taskOfRow rows) :: outcome)%list
         /\ sends_nothing outcome)
  /\ Forall sendable (map taskOfRow rows).
Proof.
  assert (S : handleFileSelect (Some file) state
              = {| isOpen := isOpen state;
                   selectedFile := Some file;
                   parsedTasks := rows;
                   isParsing := false;
                   fileInput := fileInput state;
                   importEffects := importEffects state |}).
  { unfold handleFileSelect. rewrite Hrows.
    destruct rows; [contradiction | reflexivity]. }
  rewrite S. cbn [selectedFile parsedTasks isParsing].
  repeat split; [|now apply (parsed_rows_sendable file)].
  now apply handleImport_sends.
Qed.

(** X15: rows outlive a file without tasks.  When the selected file parses
    to no row at all, [handleFileSelect] shows an error and forgets the
    file but keeps the rows parsed from the file selected before, so that
    [handleImport] still sends those; when [parseCSVFile] fails instead,
    the rows are dropped and [handleImport] sends nothing. *)
Theorem rows_outlive_a_file_without_tasks (file : File) (state : ImportState)
    (created : result (nat * nat)) :
  (parseCSVFile file = Ok [] ->
   selectedFile (handleFileSelect (Some file) state) = None
   /\ parsedTasks (handleFileSelect (Some file) state) = parsedTasks state
   /\ (parsedTasks state <> [] ->
       exists outcome,
         importEffects (handleImport created (handleFileSelect (Some file) state))
         = (importEffects state
            ++ ShowErrorToast "No valid tasks found in the CSV file"
               :: CreateTasks (map taskOfRow (parsedTasks state)) :: outcome)%list))
  /\ (forall message,
         parseCSVFile file = Throw message ->
         selectedFile (handleFileSelect (Some file) state) = None
         /\ parsedTasks (handleFileSelect (Some file) state) = []
         /\ importEffects (handleImport created (handleFileSelect (Some file) state))
            = (importEffects state
               ++ [ShowErrorToast message; ShowErrorToast "No tasks to import"])%list).
Proof.
  split.
  - intros P. unfold handleFileSelect. rewrite P.
    cbn [List.length Nat.eqb selectedFile parsedTasks].
    repeat split. intros N.
    destruct (handleImport_sends created
                {| isOpen := isOpen state;
                   selectedFile := None;
                   parsedTasks := parsedTasks state;
                   isParsing := false;
                   fileInput := fileInput state;
                   importEffects :=
                     (importEffects state
                      ++ [ShowErrorToast "No valid tasks found in the CSV file"])%list |} N)
      as [outcome [E _]].
    exists outcome. rewrite E. cbn [importEffects parsedTasks].
    now rewrite <- app_assoc.
  - intros message P. unfold handleFileSelect. rewrite P.
    cbn [selectedFile parsedTasks]. repeat split.
    unfold handleImport. cbn [parsedTasks List.length Nat.eqb importEffects].
    now rewrite <- app_assoc.
Qed.
End ImportDialog.

Lemma import_sends_rows_of_selected_file_witness :
  parseCSVFile one_task_file
  = Ok [{| name := "foo"; content := lit "{'CONTENT':'abc'}"; type := "bar";
           metadata := Some EmptyString |}]
  /\ exists outcome,
       importEffects
         (handleImport (Ok (1, 0)%nat) (handleFileSelect (Some one_task_file) opened_dialog))
       = (importEffects opened_dialog
          ++ CreateTasks
               (map taskOfRow
                  [{| name := "foo"; content := lit "{'CONTENT':'abc'}"; type := "bar";
                      metadata := Some EmptyString |}]) :: outcome)%list
       /\ sends_nothing outcome.
Proof.
  split; [reflexivity|].
  apply (import_sends_rows_of_selected_file (runtime := decimal_runtime) one_task_file
           [{| name := "foo"; content := lit "{'CONTENT':'abc'}"; type := "bar";
               metadata := Some EmptyString |}]
           opened_dialog (Ok (1, 0)%nat)); [reflexivity | discriminate].
Defined.

Lemma rows_outlive_a_file_without_tasks_witness :
  parseCSVFile no_task_file = Ok []
  /\ parsedTasks (handleFileSelect (Some one_task_file) opened_dialog) <> []
  /\ selectedFile
       (handleFileSelect (Some no_task_file)
          (handleFileSelect (Some one_task_file) opened_dialog)) = None
  /\ exists outcome,
       importEffects
         (handleImport (Ok (1, 0)%nat)
            (handleFileSelect (Some no_task_file)
               (handleFileSelect (Some one_task_file) opened_dialog)))
       = (importEffects (handleFileSelect (Some one_task_file) opened_dialog)
          ++ ShowErrorToast "No valid tasks found in the CSV file"
             :: CreateTasks
                  (map taskOfRow
                     (parsedTasks (handleFileSelect (Some one_task_file) opened_dialog)))
             :: outcome)%list.
Proof.
  split; [reflexivity|]. split; [discriminate|].
  pose proof (proj1 (rows_outlive_a_file_without_tasks (runtime := decimal_runtime)
                       no_task_file (handleFileSelect (Some one_task_file) opened_dialog)
                       (Ok (1, 0)%nat)) eq_refl) as [S [_ I]].
  split; [exact S|]. apply I. discriminate.
Defined.

(** ** A quote left open *)

Lemma fields_open_tail (line : string) :
  forall inside buffer rest,
    inside_after inside line = true ->
    includes rest DQUOTE = false ->
    exists fields last,
      fields_from inside buffer line = (fields ++ [trim last])%list
      /\ fields_from inside buffer (line ++ rest) = (fields ++ [trim (last ++ rest)])%list.
Proof.
  induction line as [|c tail IH1 IH2] using scan_ind; intros inside buffer rest H Q.
  - cbn [inside_after] in H. subst inside. exists [], buffer. split; [reflexivity|].
    cbn [append app]. rewrite <- (append_empty_r rest) at 1.
    rewrite fields_plain_tail; [reflexivity | exact Q | now right].
  - cbn [inside_after] in H. cbn [append fields_from].
    destruct (Ascii.eqb c DQUOTE) eqn:E.
    + destruct tail as [|next tail'].
      * cbn [append]. apply negb_true_iff in H. subst inside.
        exists [], buffer. split; [reflexivity|]. cbn [app negb].
        destruct rest as [|r rest']; [now rewrite append_empty_r|].
        cbn [includes] in Q. apply orb_false_iff in Q as [Q1 Q2].
        rewrite Q1. cbn [andb negb].
        change (String r rest') with (String r EmptyString ++ rest').
        rewrite <- (append_empty_r rest') at 1.
        rewrite <- append_assoc.
        rewrite (fields_plain_tail (String r EmptyString ++ rest') true buffer EmptyString);
          [reflexivity | | now right].
        cbn [append includes]. now rewrite Q1, Q2.
      * cbn [append]. destruct (inside && Ascii.eqb next DQUOTE).
        -- exact (IH2 next tail' eq_refl _ _ _ H Q).
        -- exact (IH1 _ _ _ H Q).
    + destruct (Ascii.eqb c COMMA && negb inside).
      * destruct (IH1 inside EmptyString rest H Q) as [fields [last [F1 F2]]].
        exists (trim buffer :: fields), last. rewrite F1, F2. now split.
      * exact (IH1 _ _ _ H Q).
Qed.

(** X16: a quote left open takes the rest of the line.  When a line ends
    inside a quoted field, whatever follows it without a quote, commas
    included, lands in its last field: the line keeps its fields but the
    last, which grows by what follows, and nothing is refused. *)
Theorem open_quote_takes_rest_of_line (line rest : string)
    (Hopen : inside_after false line = true)
    (Hrest : includes rest DQUOTE = false) :
  exists fields last,
    parseCSVLine line = (fields ++ [trim last])%list
    /\ parseCSVLine (line ++ rest) = (fields ++ [trim (last ++ rest)])%list.
Proof.
  rewrite !parseCSVLine_scan. unfold tokenize_spec.
  now apply fields_open_tail.
Qed.

Lemma open_quote_takes_rest_of_line_witness :
  parseCSVLine (lit "a,'b") = ["a"; "b"]
  /\ parseCSVLine (lit "a,'b,c, d") = ["a"; "b,c, d"]
  /\ exists fields last,
       parseCSVLine (lit "a,'b") = (fields ++ [trim last])%list
       /\ parseCSVLine (lit "a,'b" ++ ",c, d") = (fields ++ [trim (last ++ ",c, d")])%list.
Proof.
  split; [reflexivity|]. split; [reflexivity|].
  apply (open_quote_takes_rest_of_line (lit "a,'b") ",c, d"); reflexivity.
Defined.
